(** * Expense approval workflow engine

    A shallow embedding of the approval workflow of the expense-management
    backend: the approvals routes ([PUT /api/approvals/:id],
    [PUT /api/approvals/:id/override]) with their helper
    [processApprovalWorkflow], and the expenses routes
    ([POST /api/expenses], [PUT /api/expenses/:id]) with their helper
    [determineApprovalWorkflow]; further the reading routes
    ([GET /api/approvals/pending], [GET /api/approvals/:id/history],
    [GET /api/expenses], [GET /api/expenses/:id]), the delete route and the
    exchange-rate cache of [utils/currency.js].

    Conventions of the embedding.
    - A Mongoose document is a record; a route handler is a function from
      the document stored before the request to the response and the
      document stored after it.
    - An ObjectId is a number; the source compares ids through [toString()],
      which is equality of ids.
    - A JavaScript Number that is only ever compared (amounts, thresholds,
      priorities) is a rational; a Number that is computed with (the approval
      percentage) is an IEEE 754 binary64 float, as in JavaScript; list
      lengths, steps and counters are integers.
    - [new Date()] reads the clock of the request, a field of [World].
    - An exception is the constructor [Thrown] of [Outcome].
    - A string is a sequence of ASCII characters.
    - Schema options of Mongoose that rewrite a value on assignment
      ([trim], [uppercase]) are not applied to the fields of the model: a
      field holds the value the route assigns. The validators that run at
      [save()] see the value as the setter leaves it, so a route that saves
      what a request assigns trims before it measures. *)

From Stdlib Require Import List ZArith QArith Bool String Ascii Lia Lqa.
From Stdlib Require Import Sorted Permutation.
From Stdlib Require Import PrimFloat Uint63.
From Stdlib Require SpecFloat FloatAxioms.
Import ListNotations.

Set Implicit Arguments.

(** ** Basic data *)

Definition ObjectId := N.

Definition same_id (a b : ObjectId) : bool := N.eqb a b.

(** The result of a call that may throw. *)
Inductive Outcome (A : Type) : Type :=
| Returned (a : A)
| Thrown.

Arguments Returned {A} a.
Arguments Thrown {A}.

(** Stable insertion sort, the behaviour of [Array.prototype.sort] with a
    comparator and of a sorted query: [later x y] says that [x] must come
    strictly after [y]. *)
Section StableSort.
Variable A : Type.
Variable later : A -> A -> bool.

Fixpoint insert_sorted (x : A) (l : list A) : list A :=
  match l with
  | [] => [x]
  | y :: l' => if later x y then y :: insert_sorted x l' else x :: y :: l'
  end.

Definition stable_sort (l : list A) : list A :=
  fold_right insert_sorted [] l.
End StableSort.

(** ** models/ApprovalRule.js *)

Record Approver := {
  user : ObjectId;
  step : Z;
  isRequired : bool;
  canOverride : bool
}.

Inductive ApprovalType :=
| sequential
| parallel
| percentage
| specific_approver
| hybrid
| unknown_type (name : string).

Record ApprovalSettings := {
  percentageRequired : option float;
  specificApproverCanApprove : option ObjectId;
  allowManagerOverride : bool;
  autoApproveAfterDays : option Z
}.

Record ApprovalRule := {
  rule_company : ObjectId;
  amountThreshold : option Q;
  approvers : list Approver;
  approvalType : ApprovalType;
  approvalSettings : ApprovalSettings;
  isActive : bool;
  priority : Q
}.

(** ** models/Expense.js *)

Inductive Status := pending | approved | rejected | partially_approved.

Inductive Action := action_approved | action_rejected.

Record HistoryEntry := {
  approver : ObjectId;
  action : Action;
  comment : string;
  entry_step : Z;
  timestamp : Z
}.

Record Expense := {
  employee : ObjectId;
  company : ObjectId;
  amount : Q;
  currency : string;
  amountInCompanyCurrency : Q;
  exchangeRate : Q;
  category : string;
  description : string;
  expenseDate : Z;
  status : Status;
  approvalHistory : list HistoryEntry;
  currentApprover : option ObjectId;
  approvalStep : Z;
  totalApprovers : Z;
  approvedBy : list ObjectId;
  rejectedBy : list ObjectId;
  finalApprovalDate : option Z;
  rejectionReason : option string
}.

(** Field assignments [expense.f = v]. *)
Definition set_status (v : Status) (e : Expense) : Expense :=
  {| employee := employee e; company := company e; amount := amount e;
     currency := currency e;
     amountInCompanyCurrency := amountInCompanyCurrency e;
     exchangeRate := exchangeRate e; category := category e;
     description := description e; expenseDate := expenseDate e;
     status := v; approvalHistory := approvalHistory e;
     currentApprover := currentApprover e; approvalStep := approvalStep e;
     totalApprovers := totalApprovers e; approvedBy := approvedBy e;
     rejectedBy := rejectedBy e; finalApprovalDate := finalApprovalDate e;
     rejectionReason := rejectionReason e |}.

Definition set_approvalHistory (v : list HistoryEntry) (e : Expense) : Expense :=
  {| employee := employee e; company := company e; amount := amount e;
     currency := currency e;
     amountInCompanyCurrency := amountInCompanyCurrency e;
     exchangeRate := exchangeRate e; category := category e;
     description := description e; expenseDate := expenseDate e;
     status := status e; approvalHistory := v;
     currentApprover := currentApprover e; approvalStep := approvalStep e;
     totalApprovers := totalApprovers e; approvedBy := approvedBy e;
     rejectedBy := rejectedBy e; finalApprovalDate := finalApprovalDate e;
     rejectionReason := rejectionReason e |}.

Definition set_currentApprover (v : option ObjectId) (e : Expense) : Expense :=
  {| employee := employee e; company := company e; amount := amount e;
     currency := currency e;
     amountInCompanyCurrency := amountInCompanyCurrency e;
     exchangeRate := exchangeRate e; category := category e;
     description := description e; expenseDate := expenseDate e;
     status := status e; approvalHistory := approvalHistory e;
     currentApprover := v; approvalStep := approvalStep e;
     totalApprovers := totalApprovers e; approvedBy := approvedBy e;
     rejectedBy := rejectedBy e; finalApprovalDate := finalApprovalDate e;
     rejectionReason := rejectionReason e |}.

Definition set_approvalStep (v : Z) (e : Expense) : Expense :=
  {| employee := employee e; company := company e; amount := amount e;
     currency := currency e;
     amountInCompanyCurrency := amountInCompanyCurrency e;
     exchangeRate := exchangeRate e; category := category e;
     description := description e; expenseDate := expenseDate e;
     status := status e; approvalHistory := approvalHistory e;
     currentApprover := currentApprover e; approvalStep := v;
     totalApprovers := totalApprovers e; approvedBy := approvedBy e;
     rejectedBy := rejectedBy e; finalApprovalDate := finalApprovalDate e;
     rejectionReason := rejectionReason e |}.

Definition set_totalApprovers (v : Z) (e : Expense) : Expense :=
  {| employee := employee e; company := company e; amount := amount e;
     currency := currency e;
     amountInCompanyCurrency := amountInCompanyCurrency e;
     exchangeRate := exchangeRate e; category := category e;
     description := description e; expenseDate := expenseDate e;
     status := status e; approvalHistory := approvalHistory e;
     currentApprover := currentApprover e; approvalStep := approvalStep e;
     totalApprovers := v; approvedBy := approvedBy e;
     rejectedBy := rejectedBy e; finalApprovalDate := finalApprovalDate e;
     rejectionReason := rejectionReason e |}.

Definition set_approvedBy (v : list ObjectId) (e : Expense) : Expense :=
  {| employee := employee e; company := company e; amount := amount e;
     currency := currency e;
     amountInCompanyCurrency := amountInCompanyCurrency e;
     exchangeRate := exchangeRate e; category := category e;
     description := description e; expenseDate := expenseDate e;
     status := status e; approvalHistory := approvalHistory e;
     currentApprover := currentApprover e; approvalStep := approvalStep e;
     totalApprovers := totalApprovers e; approvedBy := v;
     rejectedBy := rejectedBy e; finalApprovalDate := finalApprovalDate e;
     rejectionReason := rejectionReason e |}.

Definition set_rejectedBy (v : list ObjectId) (e : Expense) : Expense :=
  {| employee := employee e; company := company e; amount := amount e;
     currency := currency e;
     amountInCompanyCurrency := amountInCompanyCurrency e;
     exchangeRate := exchangeRate e; category := category e;
     description := description e; expenseDate := expenseDate e;
     status := status e; approvalHistory := approvalHistory e;
     currentApprover := currentApprover e; approvalStep := approvalStep e;
     totalApprovers := totalApprovers e; approvedBy := approvedBy e;
     rejectedBy := v; finalApprovalDate := finalApprovalDate e;
     rejectionReason := rejectionReason e |}.

Definition set_finalApprovalDate (v : option Z) (e : Expense) : Expense :=
  {| employee := employee e; company := company e; amount := amount e;
     currency := currency e;
     amountInCompanyCurrency := amountInCompanyCurrency e;
     exchangeRate := exchangeRate e; category := category e;
     description := description e; expenseDate := expenseDate e;
     status := status e; approvalHistory := approvalHistory e;
     currentApprover := currentApprover e; approvalStep := approvalStep e;
     totalApprovers := totalApprovers e; approvedBy := approvedBy e;
     rejectedBy := rejectedBy e; finalApprovalDate := v;
     rejectionReason := rejectionReason e |}.

Definition set_rejectionReason (v : option string) (e : Expense) : Expense :=
  {| employee := employee e; company := company e; amount := amount e;
     currency := currency e;
     amountInCompanyCurrency := amountInCompanyCurrency e;
     exchangeRate := exchangeRate e; category := category e;
     description := description e; expenseDate := expenseDate e;
     status := status e; approvalHistory := approvalHistory e;
     currentApprover := currentApprover e; approvalStep := approvalStep e;
     totalApprovers := totalApprovers e; approvedBy := approvedBy e;
     rejectedBy := rejectedBy e; finalApprovalDate := finalApprovalDate e;
     rejectionReason := v |}.

(** ** Users and companies, as the routes read them

    The User model is not among the sources. A user is modelled by the fields
    the routes and the middleware read. [manager] is what a query finds in
    the user document: nothing, or the reference to the manager as it is
    stored, which is the manager's ObjectId. No query of the workflow helpers
    populates the reference. *)

Inductive Role := role_admin | role_manager | role_employee.

Record ManagerRef := {
  manager_id : ObjectId
}.

Record User := {
  _id : ObjectId;
  user_company : ObjectId;
  role : Role;
  isManagerApprover : bool;
  manager : option ManagerRef
}.

Record Company := {
  company_id : ObjectId;
  company_currency : string;
  maxExpenseAmount : Q
}.

(** What a request finds outside the expense it works on: the collections,
    the currency conversion service and the clock. *)
Record World := {
  approvalRules : Outcome (list ApprovalRule);
  users : list User;
  companies : list Company;
  convertCurrency : Q -> string -> string -> Outcome (Q * Q);
  now : Z
}.

Definition User_findById (w : World) (id : ObjectId) : option User :=
  find (fun u => same_id (_id u) id) (users w).

Definition Company_findById (w : World) (id : ObjectId) : option Company :=
  find (fun c => same_id (company_id c) id) (companies w).

(** ** JavaScript numbers and arrays *)

Definition number_of_Z (z : Z) : float :=
  if (z <? 0)%Z
  then PrimFloat.opp (PrimFloat.of_uint63 (Uint63.of_Z (- z)))
  else PrimFloat.of_uint63 (Uint63.of_Z z).

(** The numbers that [||] skips: [0], [-0] and [NaN]. *)
Definition falsy_number (x : float) : bool :=
  PrimFloat.eqb x 0%float || negb (PrimFloat.eqb x x).

(** [x || d] for a possibly absent number [x]. *)
Definition number_or (x : option float) (d : float) : float :=
  match x with
  | Some v => if falsy_number v then d else v
  | None => d
  end.

(** [s || d] for a possibly absent string [s]: the empty string is falsy. *)
Definition string_or (s : option string) (d : string) : string :=
  match s with
  | Some v => if String.eqb v EmptyString then d else v
  | None => d
  end.

(** [String.prototype.trim], the setter of the schema option [trim]: the
    white space of ASCII is TAB, LF, VT, FF, CR and SP. *)
Definition white_space (c : ascii) : bool :=
  let n := nat_of_ascii c in
  ((9 <=? n) && (n <=? 13) || (n =? 32))%nat.

Fixpoint trimStart (s : string) : string :=
  match s with
  | EmptyString => EmptyString
  | String c s' => if white_space c then trimStart s' else s
  end.

Fixpoint trimEnd (s : string) : string :=
  match s with
  | EmptyString => EmptyString
  | String c s' =>
      match trimEnd s' with
      | EmptyString => if white_space c then EmptyString
                       else String c EmptyString
      | t => String c t
      end
  end.

Definition trim (s : string) : string := trimEnd (trimStart s).

(** The schema validators of a string path after [trim]: [required] refuses
    the empty string, [maxlength] a string longer than the bound. *)
Definition required_string (s : string) : bool :=
  negb (String.eqb (trim s) EmptyString).

Definition maxlength (bound : nat) (s : string) : bool :=
  (String.length (trim s) <=? bound)%nat.

(** [x >= y] on numbers. *)
Definition number_ge (x y : float) : bool := PrimFloat.leb y x.

Definition len {A : Type} (l : list A) : Z := Z.of_nat (List.length l).

(** [l[i]]: [undefined] outside the array. *)
Definition at_index {A : Type} (l : list A) (i : Z) : option A :=
  if (i <? 0)%Z then None else nth_error l (Z.to_nat i).

(** ** Rule resolution (the query that opens both helpers) *)

(** The filter of [ApprovalRule.find]: the company's active rules whose
    threshold is at most the amount, or that have no threshold. *)
Definition rule_applies (e : Expense) (r : ApprovalRule) : bool :=
  same_id (rule_company r) (company e)
  && isActive r
  && match amountThreshold r with
     | Some t => Qle_bool t (amountInCompanyCurrency e)
     | None => true
     end.

(** Order of a possibly missing threshold: a missing field sorts below every
    number. *)
Definition threshold_compare (x y : option Q) : comparison :=
  match x, y with
  | None, None => Eq
  | None, Some _ => Lt
  | Some _, None => Gt
  | Some a, Some b => (a ?= b)%Q
  end.

(** Order of the key [(priority, amountThreshold)]. *)
Definition rule_compare (a b : ApprovalRule) : comparison :=
  match (priority a ?= priority b)%Q with
  | Eq => threshold_compare (amountThreshold a) (amountThreshold b)
  | c => c
  end.

(** [.sort({ priority: -1, 'conditions.amountThreshold': -1 })]: a rule comes
    later when its key is smaller. *)
Definition rule_later (a b : ApprovalRule) : bool :=
  match rule_compare a b with
  | Lt => true
  | _ => false
  end.

Definition ApprovalRule_find (w : World) (e : Expense)
  : Outcome (list ApprovalRule) :=
  match approvalRules w with
  | Thrown => Thrown
  | Returned docs =>
      Returned (stable_sort rule_later (filter (rule_applies e) docs))
  end.

(** [rule.approvers.sort((a, b) => a.step - b.step)] *)
Definition step_later (a b : Approver) : bool := (step b <? step a)%Z.

Definition sort_by_step (l : list Approver) : list Approver :=
  stable_sort step_later l.

(** [id.isManagerApprover] for an ObjectId [id]: an ObjectId has no such
    property, the read gives [undefined]. *)
Definition ObjectId_isManagerApprover (id : ObjectId) : option bool := None.

(** Truthiness of a boolean that may be [undefined]. *)
Definition truthy (v : option bool) : bool :=
  match v with
  | Some b => b
  | None => false
  end.

(** The default workflow,
    [if (employee.manager && employee.manager.isManagerApprover)]: the
    employee comes from [User.findById(expense.employee)] without
    [populate], so [employee.manager] is the stored reference and the flag is
    read from an ObjectId. Reading [employee.manager] of a missing employee
    throws. *)
Definition default_approvers (w : World) (e : Expense)
  : Outcome (list Approver) :=
  match User_findById w (employee e) with
  | None => Thrown
  | Some emp =>
      match manager emp with
      | Some m =>
          if truthy (ObjectId_isManagerApprover (manager_id m))
          then Returned [ {| user := manager_id m; step := 1;
                             isRequired := true; canOverride := false |} ]
          else Returned []
      | None => Returned []
      end
  end.

Record Workflow := {
  wf_rules : list ApprovalRule;
  wf_approvers : list Approver;
  wf_approvalType : ApprovalType
}.

(** The part the two helpers have in common: query the rules, take the
    first one or fall back to the default workflow. *)
Definition resolve_workflow (w : World) (e : Expense) : Outcome Workflow :=
  match ApprovalRule_find w e with
  | Thrown => Thrown
  | Returned rules =>
      match rules with
      | rule :: _ =>
          Returned {| wf_rules := rules;
                      wf_approvers := sort_by_step (approvers rule);
                      wf_approvalType := approvalType rule |}
      | [] =>
          match default_approvers w e with
          | Thrown => Thrown
          | Returned l =>
              Returned {| wf_rules := [];
                          wf_approvers := l;
                          wf_approvalType := sequential |}
          end
      end
  end.

(** ** routes/expenses.js: [determineApprovalWorkflow]

    The result is the document stored when the helper returns: the saved
    expense, or the expense as it was stored before when something threw
    (the exception is logged and the in-memory changes are never saved).
    The helper also looks the company up and does not use it. *)
Definition determineApprovalWorkflow (w : World) (expense : Expense)
  : Expense :=
  match resolve_workflow w expense with
  | Thrown => expense
  | Returned wf =>
      let approvers := wf_approvers wf in
      let e1 := set_totalApprovers (len approvers) expense in
      let e2 := set_approvalStep 0 e1 in
      let e3 := set_approvedBy [] e2 in
      let e4 := set_rejectedBy [] e3 in
      let e5 := set_approvalHistory [] e4 in
      match approvers with
      | first :: _ =>
          set_approvalStep 1 (set_currentApprover (Some (user first)) e5)
      | [] =>
          set_finalApprovalDate (Some (now w)) (set_status approved e5)
      end
  end.

(** ** routes/approvals.js: [processApprovalWorkflow] *)

Definition mentions (ids : list ObjectId) (id : ObjectId) : bool :=
  existsb (fun x => same_id x id) ids.

(** [(expense.approvedBy.length / expense.totalApprovers) * 100] *)
Definition approvalPercentage (e : Expense) : float :=
  PrimFloat.mul
    (PrimFloat.div (number_of_Z (len (approvedBy e)))
                   (number_of_Z (totalApprovers e)))
    100%float.

(** [rules[0]?.approvalSettings?.percentageRequired] *)
Definition first_percentageRequired (rules : list ApprovalRule)
  : option float :=
  match rules with
  | rule :: _ => percentageRequired (approvalSettings rule)
  | [] => None
  end.

(** [rules[0]?.approvalSettings?.specificApproverCanApprove] *)
Definition first_specificApprover (rules : list ApprovalRule)
  : option ObjectId :=
  match rules with
  | rule :: _ => specificApproverCanApprove (approvalSettings rule)
  | [] => None
  end.

(** [expense.approvedBy.some(id => id.toString() === specific?.toString())] *)
Definition approved_by_specific (e : Expense) (specific : option ObjectId)
  : bool :=
  match specific with
  | Some s => mentions (approvedBy e) s
  | None => false
  end.

Definition requiredApprovers (approvers : list Approver) : list Approver :=
  filter isRequired approvers.

Definition approvedRequiredCount (approvers : list Approver) (e : Expense)
  : Z :=
  len (filter (fun approverId =>
                 existsb (fun a => same_id (user a) approverId)
                         (requiredApprovers approvers))
              (approvedBy e)).

Definition remainingApprovers (approvers : list Approver) (e : Expense)
  : list Approver :=
  filter (fun a => negb (mentions (approvedBy e) (user a))
                   && negb (mentions (rejectedBy e) (user a)))
         approvers.

(** The three assignments that close a workflow as approved. *)
Definition mark_approved (w : World) (e : Expense) : Expense :=
  set_currentApprover None
    (set_finalApprovalDate (Some (now w)) (set_status approved e)).

Definition mark_insufficient (w : World) (e : Expense) : Expense :=
  set_currentApprover None
    (set_finalApprovalDate (Some (now w))
       (set_rejectionReason (Some "Insufficient approvals"%string)
          (set_status rejected e))).

(** The [switch (approvalType)]: the expense after it and [isApproved], or
    the expense at the point where reading [.user] of a missing approver
    threw. *)
Definition approval_switch (wf : Workflow) (e : Expense)
  : Expense * Outcome bool :=
  let approvers := wf_approvers wf in
  let rules := wf_rules wf in
  let all_required :=
    (len (requiredApprovers approvers) <=? approvedRequiredCount approvers e)%Z in
  match wf_approvalType wf with
  | sequential =>
      if (len approvers <=? approvalStep e)%Z
      then (e, Returned true)
      else
        let e1 := set_approvalStep (approvalStep e + 1) e in
        match at_index approvers (approvalStep e1 - 1) with
        | Some a => (set_currentApprover (Some (user a)) e1, Returned false)
        | None => (e1, Thrown)
        end
  | parallel => (e, Returned all_required)
  | percentage =>
      let percentageRequired := number_or (first_percentageRequired rules) 100%float in
      (e, Returned (number_ge (approvalPercentage e) percentageRequired))
  | specific_approver =>
      (e, Returned (approved_by_specific e (first_specificApprover rules)))
  | hybrid =>
      let hybridPercentage := number_or (first_percentageRequired rules) 60%float in
      let hasSpecificApproval :=
        approved_by_specific e (first_specificApprover rules) in
      (e, Returned (number_ge (approvalPercentage e) hybridPercentage
                    || hasSpecificApproval))
  | unknown_type _ => (e, Returned all_required)
  end.

Definition is_sequential (t : ApprovalType) : bool :=
  match t with sequential => true | _ => false end.

Definition percentage_or_hybrid (t : ApprovalType) : bool :=
  match t with percentage | hybrid => true | _ => false end.

(** The expense in memory when the helper returns; an exception is caught
    and logged inside the helper, so the helper always returns. *)
Definition processApprovalWorkflow (w : World) (expense : Expense)
  : Expense :=
  match resolve_workflow w expense with
  | Thrown => expense
  | Returned wf =>
      let approvers := wf_approvers wf in
      match approval_switch wf expense with
      | (e1, Thrown) => e1
      | (e1, Returned isApproved) =>
          if isApproved then mark_approved w e1
          else if is_sequential (wf_approvalType wf)
                  && (approvalStep e1 <=? len approvers)%Z
          then e1
          else
            match remainingApprovers approvers e1 with
            | next :: _ => set_currentApprover (Some (user next)) e1
            | [] =>
                if percentage_or_hybrid (wf_approvalType wf)
                then
                  let finalPercentage := approvalPercentage e1 in
                  let requiredPercentage :=
                    number_or (first_percentageRequired (wf_rules wf)) 100%float in
                  if number_ge finalPercentage requiredPercentage
                  then mark_approved w e1
                  else mark_insufficient w e1
                else e1
            end
      end
  end.

(** ** Requests and responses *)

Inductive Response :=
| Success (code : Z)
| Failure (code : Z) (message : string).

(** The body of an approval or override request with the authenticated
    user that [protect] attached to it. *)
Record ApprovalRequest := {
  req_user : User;
  req_action : string;
  req_comment : option string
}.

(** The body of a create or update request. *)
Record ExpenseRequest := {
  ereq_user : User;
  ereq_amount : Q;
  ereq_currency : string;
  ereq_category : string;
  ereq_description : string;
  ereq_expenseDate : Z
}.

(** ** middleware/auth.js and middleware/validation.js *)

Definition canApprove (u : User) : bool :=
  match role u with
  | role_admin => true
  | role_manager => isManagerApprover u
  | role_employee => false
  end.

Definition validateApproval (req : ApprovalRequest) : bool :=
  (String.eqb (req_action req) "approved"
   || String.eqb (req_action req) "rejected")
  && match req_comment req with
     | Some c => (String.length c <=? 500)%nat
     | None => true
     end.

(** ** routes/approvals.js: [PUT /api/approvals/:id] *)

Definition is_pending (s : Status) : bool :=
  match s with pending => true | _ => false end.

Definition decision_entry (w : World) (req : ApprovalRequest) (e : Expense)
  : HistoryEntry :=
  {| approver := _id (req_user req);
     action := if String.eqb (req_action req) "approved"
               then action_approved else action_rejected;
     comment := string_or (req_comment req) "";
     entry_step := approvalStep e;
     timestamp := now w |}.

(** The handler, after the middleware: the response and the document stored
    when the request ends. Every early return and the [catch] leave the stored
    document as it was. *)
Definition approval_handler (w : World) (req : ApprovalRequest)
  (stored : option Expense) : Response * option Expense :=
  match stored with
  | None => (Failure 404 "Expense not found", stored)
  | Some expense =>
      match currentApprover expense with
      | None =>
          (* [expense.currentApprover.toString()] throws on null *)
          (Failure 500 "Server error", stored)
      | Some current =>
          if negb (same_id current (_id (req_user req)))
          then (Failure 403 "You are not the current approver for this expense",
                stored)
          else if negb (is_pending (status expense))
          then (Failure 400 "Expense is no longer pending approval", stored)
          else
            let e1 :=
              set_approvalHistory
                (approvalHistory expense ++ [decision_entry w req expense])
                expense in
            if String.eqb (req_action req) "approved"
            then
              let e2 := set_approvedBy (approvedBy e1 ++ [_id (req_user req)]) e1 in
              (Success 200, Some (processApprovalWorkflow w e2))
            else
              let e2 := set_rejectedBy (rejectedBy e1 ++ [_id (req_user req)]) e1 in
              let e3 := set_status rejected e2 in
              let e4 :=
                set_rejectionReason
                  (Some (string_or (req_comment req) "No reason provided")) e3 in
              (Success 200, Some (set_finalApprovalDate (Some (now w)) e4))
      end
  end.

(** The route with its middleware: [protect, canApprove, validateObjectId,
    validateApproval, handleValidationErrors]. *)
Definition put_approval (w : World) (req : ApprovalRequest)
  (stored : option Expense) : Response * option Expense :=
  if negb (canApprove (req_user req))
  then (Failure 403 "You do not have permission to approve expenses.", stored)
  else if negb (validateApproval req)
  then (Failure 400 "Validation failed", stored)
  else approval_handler w req stored.

(** ** routes/approvals.js: [PUT /api/approvals/:id/override] *)

Definition override_entry (w : World) (req : ApprovalRequest) (e : Expense)
  : HistoryEntry :=
  {| approver := _id (req_user req);
     action := if String.eqb (req_action req) "approved"
               then action_approved else action_rejected;
     comment := "[ADMIN OVERRIDE] " ++ string_or (req_comment req) "No reason provided";
     entry_step := approvalStep e + 1;
     timestamp := now w |}.

(** The validator of a history entry that a request can fail: the comment
    holds at most 500 characters. The route has no validation middleware for
    its body, so the entry meets the validator first at [expense.save()]. *)
Definition history_entry_valid (entry : HistoryEntry) : bool :=
  maxlength 500 (comment entry).

Definition put_override (w : World) (req : ApprovalRequest)
  (stored : option Expense) : Response * option Expense :=
  match role (req_user req) with
  | role_admin =>
      match stored with
      | None => (Failure 404 "Expense not found", stored)
      | Some expense =>
          let e1 :=
            set_approvalHistory
              (approvalHistory expense ++ [override_entry w req expense])
              expense in
          let e2 :=
            set_status (if String.eqb (req_action req) "approved"
                        then approved else rejected) e1 in
          let e3 := set_finalApprovalDate (Some (now w)) e2 in
          let e4 := set_currentApprover None e3 in
          let e5 :=
            if String.eqb (req_action req) "rejected"
            then set_rejectionReason
                   (Some (string_or (req_comment req) "Rejected by admin override"))
                   e4
            else e4 in
          if history_entry_valid (override_entry w req expense)
          then (Success 200, Some e5)
          else
            (* [expense.save()] throws a validation error *)
            (Failure 500 "Server error", stored)
      end
  | _ => (Failure 403 "Only admin can override approvals", stored)
  end.

(** ** routes/expenses.js: [POST /api/expenses] and [PUT /api/expenses/:id]

    The body of a request holds an amount, a currency, a category, a
    description and a date. The create route takes it as [validateExpense]
    lets it through; the update route has no such middleware, and what it
    assigns meets the validators of the schema at [expense.save()]. *)

Definition upper_ascii (c : ascii) : ascii :=
  let n := nat_of_ascii c in
  if ((97 <=? n) && (n <=? 122))%nat then ascii_of_nat (n - 32) else c.

Fixpoint toUpperCase (s : string) : string :=
  match s with
  | EmptyString => EmptyString
  | String c s' => String (upper_ascii c) (toUpperCase s')
  end.

(** The conversion both routes open with: the amount in company currency and
    the exchange rate. *)
Definition convert_if_needed (w : World) (req : ExpenseRequest) (c : Company)
  : Outcome (Q * Q) :=
  if String.eqb (ereq_currency req) (company_currency c)
  then Returned (ereq_amount req, 1%Q)
  else convertCurrency w (ereq_amount req) (ereq_currency req)
                       (company_currency c).

(** [Expense.create(expenseData)]: the schema defaults fill the workflow
    fields. *)
Definition Expense_create (req : ExpenseRequest) (converted : Q * Q)
  : Expense :=
  {| employee := _id (ereq_user req);
     company := user_company (ereq_user req);
     amount := ereq_amount req;
     currency := toUpperCase (ereq_currency req);
     amountInCompanyCurrency := fst converted;
     exchangeRate := snd converted;
     category := ereq_category req;
     description := ereq_description req;
     expenseDate := ereq_expenseDate req;
     status := pending;
     approvalHistory := [];
     currentApprover := None;
     approvalStep := 0;
     totalApprovers := 0;
     approvedBy := [];
     rejectedBy := [];
     finalApprovalDate := None;
     rejectionReason := None |}.

Definition post_expense (w : World) (req : ExpenseRequest)
  : Response * option Expense :=
  match Company_findById w (user_company (ereq_user req)) with
  | None => (Failure 404 "Company not found", None)
  | Some c =>
      match convert_if_needed w req c with
      | Thrown => (Failure 500 "Server error", None)
      | Returned converted =>
          if negb (Qle_bool (fst converted) (maxExpenseAmount c))
          then (Failure 400 "Expense amount exceeds company limit", None)
          else
            (Success 201,
             Some (determineApprovalWorkflow w (Expense_create req converted)))
      end
  end.

(** The seven assignments of the update route. *)
Definition update_fields (req : ExpenseRequest) (converted : Q * Q)
  (e : Expense) : Expense :=
  {| employee := employee e;
     company := company e;
     amount := ereq_amount req;
     currency := toUpperCase (ereq_currency req);
     amountInCompanyCurrency := fst converted;
     exchangeRate := snd converted;
     category := ereq_category req;
     description := ereq_description req;
     expenseDate := ereq_expenseDate req;
     status := status e;
     approvalHistory := approvalHistory e;
     currentApprover := currentApprover e;
     approvalStep := approvalStep e;
     totalApprovers := totalApprovers e;
     approvedBy := approvedBy e;
     rejectedBy := rejectedBy e;
     finalApprovalDate := finalApprovalDate e;
     rejectionReason := rejectionReason e |}.

Definition is_employee (r : Role) : bool :=
  match r with role_employee => true | _ => false end.

(** The schema validators of the paths that the update route assigns, as
    they run at [expense.save()]: the route has no [validateExpense]. *)
Definition assigned_paths_valid (e : Expense) : bool :=
  Qle_bool (1 # 100) (amount e)
  && negb (String.eqb (currency e) EmptyString)
  && required_string (category e)
  && required_string (description e)
  && maxlength 500 (description e).

Definition put_expense (w : World) (req : ExpenseRequest)
  (stored : option Expense) : Response * option Expense :=
  match stored with
  | None => (Failure 404 "Expense not found", stored)
  | Some expense =>
      if is_employee (role (ereq_user req))
         && negb (same_id (employee expense) (_id (ereq_user req)))
      then (Failure 403 "Access denied", stored)
      else if negb (is_pending (status expense))
      then (Failure 400 "Cannot update expense that is not pending", stored)
      else
        match Company_findById w (user_company (ereq_user req)) with
        | None =>
            (* [company.currency] throws on null *)
            (Failure 500 "Server error", stored)
        | Some c =>
            match convert_if_needed w req c with
            | Thrown => (Failure 500 "Server error", stored)
            | Returned converted =>
                let updated := update_fields req converted expense in
                if assigned_paths_valid updated
                then (Success 200, Some (determineApprovalWorkflow w updated))
                else
                  (* [expense.save()] throws a validation error *)
                  (Failure 500 "Server error", stored)
            end
        end
  end.

(** ** Lives of an expense

    An expense comes into being by a create request and is then worked on
    by update, decision and override requests, each in the world it finds. *)

Inductive Operation :=
| Update (w : World) (req : ExpenseRequest)
| Decide (w : World) (req : ApprovalRequest)
| Override (w : World) (req : ApprovalRequest).

Definition perform (stored : option Expense) (op : Operation)
  : option Expense :=
  match op with
  | Update w req => snd (put_expense w req stored)
  | Decide w req => snd (put_approval w req stored)
  | Override w req => snd (put_override w req stored)
  end.

Definition life (w : World) (req : ExpenseRequest) (ops : list Operation)
  : option Expense :=
  fold_left perform ops (snd (post_expense w req)).

(** ** Properties named by the specification *)

(** [finalApprovalDate] is set exactly in the terminal states. *)
Definition date_iff_terminal (e : Expense) : Prop :=
  finalApprovalDate e <> None <-> (status e = approved \/ status e = rejected).

(** The two lists are disjoint and no approver occurs twice across them. *)
Definition decided_once (e : Expense) : Prop :=
  NoDup (approvedBy e ++ rejectedBy e).

(** The current approver is in neither list. *)
Definition current_undecided (stored : option Expense) : bool :=
  match stored with
  | Some e =>
      match currentApprover e with
      | Some c => negb (mentions (approvedBy e) c)
                  && negb (mentions (rejectedBy e) c)
      | None => true
      end
  | None => true
  end.

(** No decision request of the life arrives while the current approver has
    already decided. *)
Fixpoint never_reoffered (stored : option Expense) (ops : list Operation)
  : bool :=
  match ops with
  | [] => true
  | op :: rest =>
      match op with
      | Decide _ _ => current_undecided stored
      | _ => true
      end
      && never_reoffered (perform stored op) rest
  end.

(** The expense in memory when the decision route calls the helper: the
    history entry and the approver's id are already pushed. *)
Definition approval_recorded (w : World) (req : ApprovalRequest) (e : Expense)
  : Expense :=
  set_approvedBy (approvedBy e ++ [_id (req_user req)])
    (set_approvalHistory (approvalHistory e ++ [decision_entry w req e]) e).

(** The decision request passes the middleware and the guards of the handler
    with [action = 'approved']. *)
Definition approves (req : ApprovalRequest) (e : Expense) : Prop :=
  canApprove (req_user req) = true
  /\ validateApproval req = true
  /\ currentApprover e = Some (_id (req_user req))
  /\ status e = pending
  /\ req_action req = "approved"%string.

Definition rejects (req : ApprovalRequest) (e : Expense) : Prop :=
  canApprove (req_user req) = true
  /\ validateApproval req = true
  /\ currentApprover e = Some (_id (req_user req))
  /\ status e = pending
  /\ req_action req = "rejected"%string.

(** Something throws inside the [try] of [processApprovalWorkflow]. *)
Definition evaluation_throws (w : World) (e : Expense) : bool :=
  match resolve_workflow w e with
  | Thrown => true
  | Returned wf =>
      match approval_switch wf e with
      | (_, Thrown) => true
      | (_, Returned _) => false
      end
  end.

(** The first approver of the list who is in neither list of the expense. *)
Definition first_undecided (approvers : list Approver) (e : Expense)
  : option Approver :=
  find (fun a => negb (mentions (approvedBy e) (user a))
                 && negb (mentions (rejectedBy e) (user a)))
       approvers.

(** The count of the specification's sentence on the parallel type: the
    required approvers whose id appears in [approvedBy]. *)
Definition required_approvers_approved (approvers : list Approver)
  (e : Expense) : Z :=
  len (filter (fun a => mentions (approvedBy e) (user a))
              (requiredApprovers approvers)).

(** The specification's sentence on the parallel type, for an expense [e] on
    which the approval is recorded and the expense [e'] the processor
    leaves. *)
Definition parallel_as_specified (approvers : list Approver) (e e' : Expense)
  : Prop :=
  (status e' = approved
   <-> (len (requiredApprovers approvers)
        <= required_approvers_approved approvers e)%Z)
  /\ ((required_approvers_approved approvers e
       < len (requiredApprovers approvers))%Z ->
      match first_undecided approvers e with
      | Some a => currentApprover e' = Some (user a)
      | None => status e' = rejected
                /\ rejectionReason e' = Some "Insufficient approvals"%string
      end).

(** The specification's words on the default policy: the employee has an
    assigned manager and that manager is flagged as an approver. *)
Definition has_flagged_manager (w : World) (emp : User) (m : ObjectId)
  : Prop :=
  exists mu,
    manager emp = Some {| manager_id := m |}
    /\ User_findById w m = Some mu
    /\ isManagerApprover mu = true.

(** The specification's sentence on a failed re-evaluation: the stored
    expense is the one stored before the request. *)
Definition failure_leaves_prior_state (w : World) (req : ApprovalRequest)
  (e : Expense) : Prop :=
  evaluation_throws w (approval_recorded w req e) = true ->
  snd (put_approval w req (Some e)) = Some e.

(** The threshold of the specification's sentence on the percentage type:
    the rule's [percentageRequired], 100 when no rule provides it. *)
Definition specified_threshold (rules : list ApprovalRule) : float :=
  match first_percentageRequired rules with
  | Some p => p
  | None => 100%float
  end.

(** The decisions of an expense: the fields no branch of the [switch]
    assigns. *)
Definition same_decisions (e1 e : Expense) : Prop :=
  status e1 = status e
  /\ finalApprovalDate e1 = finalApprovalDate e
  /\ approvedBy e1 = approvedBy e
  /\ rejectedBy e1 = rejectedBy e
  /\ approvalHistory e1 = approvalHistory e
  /\ rejectionReason e1 = rejectionReason e.


(** The shapes in which [processApprovalWorkflow] can leave an expense. *)
Inductive left_as (w : World) (e : Expense) : Expense -> Prop :=
| left_open (e1 : Expense) :
    same_decisions e1 e -> left_as w e e1
| left_approved (e1 : Expense) :
    same_decisions e1 e -> left_as w e (mark_approved w e1)
| left_insufficient (e1 : Expense) :
    same_decisions e1 e -> left_as w e (mark_insufficient w e1).


(** A property of the stored expense, when there is one. *)
Definition stored_satisfies (P : Expense -> Prop) (stored : option Expense)
  : Prop :=
  forall e, stored = Some e -> P e.


(** The order of the query, as a relation: [a] comes no later than [b]
    when its priority is higher, or the priorities are equal and its
    threshold is not lower; a missing threshold is the lowest. *)
Definition threshold_le (x y : option Q) : Prop :=
  match x, y with
  | None, _ => True
  | Some _, None => False
  | Some a, Some b => (a <= b)%Q
  end.

Definition ranks_no_lower (a b : ApprovalRule) : Prop :=
  (priority b < priority a)%Q
  \/ ((priority a == priority b)%Q
      /\ threshold_le (amountThreshold b) (amountThreshold a)).

(** A candidate of the resolution for an expense: a rule of the expense's
    company that is active and whose threshold is absent or at most the
    amount in company currency. *)
Definition candidate (e : Expense) (docs : list ApprovalRule)
  (r : ApprovalRule) : Prop :=
  In r docs
  /\ rule_company r = company e
  /\ isActive r = true
  /\ (amountThreshold r = None
      \/ exists t, amountThreshold r = Some t
                   /\ (t <= amountInCompanyCurrency e)%Q).

(** ** Example data *)

Definition alice : ObjectId := 1%N.
Definition bob : ObjectId := 2%N.
Definition dave : ObjectId := 7%N.
Definition carol : ObjectId := 9%N.
Definition acme : ObjectId := 100%N.

Definition approver_at (u : ObjectId) (s : Z) : Approver :=
  {| user := u; step := s; isRequired := true; canOverride := false |}.

Definition example_rule (t : ApprovalType) (l : list Approver)
  (p : option float) : ApprovalRule :=
  {| rule_company := acme;
     amountThreshold := Some 0%Q;
     approvers := l;
     approvalType := t;
     approvalSettings :=
       {| percentageRequired := p;
          specificApproverCanApprove := None;
          allowManagerOverride := false;
          autoApproveAfterDays := None |};
     isActive := true;
     priority := 0%Q |}.

Definition example_user (i : ObjectId) (r : Role) (flag : bool)
  (m : option ManagerRef) : User :=
  {| _id := i; user_company := acme; role := r;
     isManagerApprover := flag; manager := m |}.

Definition example_world (rules : Outcome (list ApprovalRule))
  (submitter : User) : World :=
  {| approvalRules := rules;
     users := [submitter;
               example_user alice role_manager true None;
               example_user bob role_manager true None;
               example_user dave role_admin false None];
     companies := [ {| company_id := acme; company_currency := "USD";
                       maxExpenseAmount := 10000%Q |} ];
     convertCurrency := fun _ _ _ => Thrown;
     now := 1700000000000%Z |}.

Definition carol_without_manager : User :=
  example_user carol role_employee false None.

Definition carol_under_alice : User :=
  example_user carol role_employee false
    (Some {| manager_id := alice |}).

Definition example_submission (submitter : User) : ExpenseRequest :=
  {| ereq_user := submitter;
     ereq_amount := 500%Q;
     ereq_currency := "USD";
     ereq_category := "Travel";
     ereq_description := "Train ticket";
     ereq_expenseDate := 1699000000000%Z |}.

Definition decision_by (u : ObjectId) (a : string) (c : option string)
  : ApprovalRequest :=
  {| req_user := example_user u role_manager true None;
     req_action := a;
     req_comment := c |}.

Definition override_by_admin (a : string) (c : option string)
  : ApprovalRequest :=
  {| req_user := example_user dave role_admin false None;
     req_action := a;
     req_comment := c |}.

(** A reason of 484 characters. *)
Fixpoint replicate (n : nat) (c : ascii) : string :=
  match n with
  | O => EmptyString
  | S n' => String c (replicate n' c)
  end.

Definition long_reason : string := replicate 484 "x".

(** A pending expense that waits for [current]. *)
Definition example_expense (current : option ObjectId)
  (yes no : list ObjectId) (total : Z) : Expense :=
  {| employee := carol; company := acme; amount := 500%Q; currency := "USD";
     amountInCompanyCurrency := 500%Q; exchangeRate := 1%Q;
     category := "Travel"; description := "Train ticket";
     expenseDate := 1699000000000%Z;
     status := pending; approvalHistory := [];
     currentApprover := current; approvalStep := 1;
     totalApprovers := total; approvedBy := yes; rejectedBy := no;
     finalApprovalDate := None; rejectionReason := None |}.

(** An expense created without a matching rule by an employee without a
    manager: approved on creation, with no current approver. *)
Definition world_without_rules : World :=
  example_world (Returned []) carol_without_manager.

Definition auto_approved_expense : Expense :=
  determineApprovalWorkflow world_without_rules
    (Expense_create (example_submission carol_without_manager) (500%Q, 1%Q)).

(** A sequential rule that lists alice at both of its steps, and a life in
    which she approves at the first step and rejects at the second. *)
Definition world_alice_twice : World :=
  example_world
    (Returned [example_rule sequential
                 [approver_at alice 1; approver_at alice 2] None])
    carol_without_manager.

Definition life_alice_twice : list Operation :=
  [Decide world_alice_twice (decision_by alice "approved" None);
   Decide world_alice_twice (decision_by alice "rejected" None)].

(** A sequential rule over alice and bob whose steps are swapped between the
    creation of the expense and the decisions. *)
Definition world_alice_then_bob : World :=
  example_world
    (Returned [example_rule sequential
                 [approver_at alice 1; approver_at bob 2] None])
    carol_without_manager.

Definition world_bob_then_alice : World :=
  example_world
    (Returned [example_rule sequential
                 [approver_at bob 1; approver_at alice 2] None])
    carol_without_manager.

Definition life_after_swap : list Operation :=
  [Decide world_bob_then_alice (decision_by alice "approved" None);
   Decide world_bob_then_alice (decision_by alice "approved" None)].

(** The ordinary life under the rule over alice and bob. *)
Definition life_alice_then_bob : list Operation :=
  [Decide world_alice_then_bob (decision_by alice "approved" None);
   Decide world_alice_then_bob (decision_by bob "approved" None)].

(** The rule collection cannot be read. *)
Definition world_rules_unavailable : World :=
  example_world Thrown carol_without_manager.

(** A parallel rule over alice and bob, both required. *)
Definition alice_and_bob : list Approver :=
  [approver_at alice 1; approver_at bob 2].

Definition world_parallel : World :=
  example_world (Returned [example_rule parallel alice_and_bob None])
                carol_without_manager.

(** A life under that rule in which the rule lookup fails once, while
    alice's first approval is processed, and alice approves again. *)
Definition life_lookup_fails_once : list Operation :=
  [Decide world_rules_unavailable (decision_by alice "approved" None);
   Decide world_parallel (decision_by alice "approved" None)].

(** A percentage rule over alice and bob with a threshold of 0 percent. *)
Definition zero_percent_rule : ApprovalRule :=
  example_rule percentage alice_and_bob (Some 0%float).

Definition world_zero_percent : World :=
  example_world (Returned [zero_percent_rule]) carol_without_manager.

(** Five rules of different rank: for an amount of 500 the fourth is the
    one to select (priority 5, threshold 200). *)
Definition ranked_rule (p : Q) (t : option Q) (active : bool)
  (ty : ApprovalType) : ApprovalRule :=
  {| rule_company := acme;
     amountThreshold := t;
     approvers := alice_and_bob;
     approvalType := ty;
     approvalSettings :=
       {| percentageRequired := Some 100%float;
          specificApproverCanApprove := None;
          allowManagerOverride := false;
          autoApproveAfterDays := None |};
     isActive := active;
     priority := p |}.

Definition ranked_rules : list ApprovalRule :=
  [ranked_rule 1 (Some 0%Q) true sequential;
   ranked_rule 5 (Some 100%Q) true parallel;
   ranked_rule 5 (Some 1000%Q) true hybrid;
   ranked_rule 5 (Some 200%Q) true percentage;
   ranked_rule 9 None false specific_approver].

Definition world_ranked : World :=
  example_world (Returned ranked_rules) carol_without_manager.

(** ** Further notions for the routes *)


(** The four guards a decision request has to pass: the two middleware
    checks and the two checks of the handler. *)
Definition decision_admitted (req : ApprovalRequest) (e : Expense) : bool :=
  canApprove (req_user req)
  && validateApproval req
  && match currentApprover e with
     | Some current => same_id current (_id (req_user req))
     | None => false
     end
  && is_pending (status e).

(** The expense a rejection stores. *)
Definition rejection_recorded (w : World) (req : ApprovalRequest)
  (e : Expense) : Expense :=
  set_finalApprovalDate (Some (now w))
    (set_rejectionReason
       (Some (string_or (req_comment req) "No reason provided"))
       (set_status rejected
          (set_rejectedBy (rejectedBy e ++ [_id (req_user req)])
             (set_approvalHistory
                (approvalHistory e ++ [decision_entry w req e]) e)))).

Definition is_admin (r : Role) : bool :=
  match r with role_admin => true | _ => false end.

(** The guards of the update route that look at the stored expense. *)
Definition update_admitted (req : ExpenseRequest) (e : Expense) : bool :=
  negb (is_employee (role (ereq_user req))
        && negb (same_id (employee e) (_id (ereq_user req))))
  && is_pending (status e).

(** A decision request of a user who passes the middleware. *)
Definition approval_of (u : User) : ApprovalRequest :=
  {| req_user := u; req_action := "approved"; req_comment := None |}.

(** The decision requests by which the given users approve, one after the
    other, in one world. *)
Definition approvals_in (w : World) (us : list User) : list Operation :=
  map (fun u => Decide w (approval_of u)) us.

(** The steps [first, first + 1, ...] of [n] consecutive decisions. *)
Fixpoint steps_from (first : Z) (n : nat) : list Z :=
  match n with
  | O => []
  | S n' => first :: steps_from (first + 1) n'
  end.

(** A hybrid rule without threshold over alice and bob, and a rule of
    specific-approver type that names bob. *)
Definition rule_with_settings (t : ApprovalType) (l : list Approver)
  (p : option float) (s : option ObjectId) : ApprovalRule :=
  {| rule_company := acme;
     amountThreshold := Some 0%Q;
     approvers := l;
     approvalType := t;
     approvalSettings :=
       {| percentageRequired := p;
          specificApproverCanApprove := s;
          allowManagerOverride := false;
          autoApproveAfterDays := None |};
     isActive := true;
     priority := 0%Q |}.

Definition world_with_rule (r : ApprovalRule) : World :=
  example_world (Returned [r]) carol_without_manager.

Definition manager_alice : User := example_user alice role_manager true None.
Definition manager_bob : User := example_user bob role_manager true None.
Definition admin_dave : User := example_user dave role_admin false None.

(** The five assignments with which initialization starts. *)
Definition workflow_reset (total : Z) (e : Expense) : Expense :=
  set_approvalHistory []
    (set_rejectedBy []
       (set_approvedBy []
          (set_approvalStep 0 (set_totalApprovers total e)))).

(** The expense an override stores. *)
Definition override_recorded (w : World) (req : ApprovalRequest)
  (e : Expense) : Expense :=
  let e4 :=
    set_currentApprover None
      (set_finalApprovalDate (Some (now w))
         (set_status (if String.eqb (req_action req) "approved"
                      then approved else rejected)
            (set_approvalHistory
               (approvalHistory e ++ [override_entry w req e]) e))) in
  if String.eqb (req_action req) "rejected"
  then set_rejectionReason
         (Some (string_or (req_comment req) "Rejected by admin override")) e4
  else e4.

(** What one request can make of a stored expense. *)
Inductive becomes (e : Expense) : Expense -> Prop :=
| becomes_same : becomes e e
| becomes_updated (w : World) (req : ExpenseRequest) (converted : Q * Q) :
    status e = pending ->
    becomes e (determineApprovalWorkflow w (update_fields req converted e))
| becomes_approved_by (w : World) (req : ApprovalRequest) :
    status e = pending ->
    currentApprover e = Some (_id (req_user req)) ->
    becomes e (processApprovalWorkflow w (approval_recorded w req e))
| becomes_rejected_by (w : World) (req : ApprovalRequest) :
    status e = pending ->
    currentApprover e = Some (_id (req_user req)) ->
    becomes e (rejection_recorded w req e)
| becomes_overridden (w : World) (req : ApprovalRequest) :
    becomes e (override_recorded w req e).

(** What initialization can make of an expense. *)
Inductive initialized (w : World) (e : Expense) : Expense -> Prop :=
| initialized_not : initialized w e e
| initialized_waiting (first : Approver) (total : Z) :
    (1 <= total)%Z ->
    initialized w e
      (set_approvalStep 1
         (set_currentApprover (Some (user first)) (workflow_reset total e)))
| initialized_approved :
    initialized w e
      (set_finalApprovalDate (Some (now w))
         (set_status approved (workflow_reset 0 e))).

Definition a_life_of_alice_and_bob : option Expense :=
  life world_alice_then_bob (example_submission carol_without_manager)
       life_alice_then_bob.

(** What the [switch] of the decision processor can make of an expense, and
    what the processor as a whole can. *)
Definition advanced (e b : Expense) : Prop :=
  b = e
  \/ b = set_approvalStep (approvalStep e + 1) e
  \/ exists a, b = set_currentApprover (Some (user a))
                     (set_approvalStep (approvalStep e + 1) e).

Definition processed (w : World) (e e' : Expense) : Prop :=
  exists b,
    advanced e b
    /\ (e' = b
        \/ e' = mark_approved w b
        \/ e' = mark_insufficient w b
        \/ exists a, e' = set_currentApprover (Some (user a)) b).

(** The same world with another conversion service. *)
Definition with_conversion (f : Q -> string -> string -> Outcome (Q * Q))
  (w : World) : World :=
  {| approvalRules := approvalRules w;
     users := users w;
     companies := companies w;
     convertCurrency := f;
     now := now w |}.

(** An update request of the owner, and a world whose service answers. *)
Definition example_update (u : User) (a : Q) (cur : string)
  : ExpenseRequest :=
  {| ereq_user := u;
     ereq_amount := a;
     ereq_currency := cur;
     ereq_category := "Travel";
     ereq_description := "Train ticket, first class";
     ereq_expenseDate := 1699000000000%Z |}.

(** ** The reading routes and the delete route

    A stored expense with its id and its creation time. The queries of the
    listing routes are modelled as the claims' rule query is: a filter, a
    stable sort and a window. *)

Record ExpenseDoc := {
  doc_id : ObjectId;
  doc : Expense;
  createdAt : Z
}.

(** The query string of a listing request: [page] and [limit], already
    read as integers where present. *)
Record PageQuery := {
  query_page : option Z;
  query_limit : option Z
}.

(** [validatePagination]: [page] at least 1, [limit] between 1 and 100. *)
Definition validatePagination (q : PageQuery) : bool :=
  match query_page q with
  | Some p => (1 <=? p)%Z
  | None => true
  end
  && match query_limit q with
     | Some l => (1 <=? l)%Z && (l <=? 100)%Z
     | None => true
     end.

(** [parseInt(x) || d]: the default for a missing parameter and for 0. *)
Definition parseInt_or (x : option Z) (d : Z) : Z :=
  match x with
  | Some n => if (n =? 0)%Z then d else n
  | None => d
  end.

(** [.sort({ createdAt: -1 })]: an older expense comes later. *)
Definition older (a b : ExpenseDoc) : bool := (createdAt a <? createdAt b)%Z.

(** [Expense.find(query)] with its sort, before the window. *)
Definition Expense_find (query : Expense -> bool) (docs : list ExpenseDoc)
  : list ExpenseDoc :=
  stable_sort older (filter (fun d => query (doc d)) docs).

(** [.skip(skip).limit(limit)]; a limit of 0 is no limit. *)
Definition window (skip limit : Z) (l : list ExpenseDoc) : list ExpenseDoc :=
  if (limit =? 0)%Z then skipn (Z.to_nat skip) l
  else firstn (Z.to_nat limit) (skipn (Z.to_nat skip) l).

(** [Math.ceil(total / limit)] for a count and a positive limit. *)
Definition ceil_div (total limit : Z) : Z := (total + limit - 1) / limit.

Record Listing := {
  results : Z;
  total : Z;
  currentPage : Z;
  totalPages : Z;
  listed : list ExpenseDoc
}.

(** The body both listing handlers share: the page and the limit of the
    query, the window of the sorted matches, and the counts. *)
Definition list_page (q : PageQuery) (query : Expense -> bool)
  (docs : list ExpenseDoc) : Listing :=
  let page := parseInt_or (query_page q) 1 in
  let limit := parseInt_or (query_limit q) 10 in
  let skip := ((page - 1) * limit)%Z in
  let expenses := window skip limit (Expense_find query docs) in
  let total := len (filter (fun d => query (doc d)) docs) in
  {| results := len expenses;
     total := total;
     currentPage := page;
     totalPages := ceil_div total limit;
     listed := expenses |}.

Definition is_manager (r : Role) : bool :=
  match r with role_manager => true | _ => false end.

Definition waits_for (e : Expense) (u : User) : bool :=
  match currentApprover e with
  | Some c => same_id c (_id u)
  | None => false
  end.

(** [GET /api/approvals/pending]: the pending expenses of the user's
    company; a manager sees those that wait for him. *)
Definition pending_query (u : User) (e : Expense) : bool :=
  same_id (company e) (user_company u)
  && is_pending (status e)
  && (if is_manager (role u) then waits_for e u else true).

Definition get_pending (u : User) (q : PageQuery) (docs : list ExpenseDoc)
  : Response * option Listing :=
  if negb (canApprove u)
  then (Failure 403 "You do not have permission to approve expenses.", None)
  else if negb (validatePagination q)
  then (Failure 400 "Validation failed", None)
  else (Success 200, Some (list_page q (pending_query u) docs)).

(** [User.find({ manager: req.user._id })]: the ids of the team. *)
Definition teamMemberIds (w : World) (u : User) : list ObjectId :=
  map _id
    (filter (fun member =>
               match manager member with
               | Some m => same_id (manager_id m) (_id u)
               | None => false
               end)
            (users w)).

(** The filters of [GET /api/expenses]: each is applied when present. *)
Record ExpenseFilter := {
  filter_status : option Status;
  filter_category : option string;
  filter_startDate : option Z;
  filter_endDate : option Z
}.

Definition same_status (a b : Status) : bool :=
  match a, b with
  | pending, pending | approved, approved | rejected, rejected
  | partially_approved, partially_approved => true
  | _, _ => false
  end.

Definition expenses_query (w : World) (u : User) (f : ExpenseFilter)
  (e : Expense) : bool :=
  same_id (company e) (user_company u)
  && match role u with
     | role_employee => same_id (employee e) (_id u)
     | role_manager => mentions (teamMemberIds w u) (employee e)
     | role_admin => true
     end
  && match filter_status f with
     | Some s => same_status (status e) s
     | None => true
     end
  && match filter_category f with
     | Some c => String.eqb (category e) c
     | None => true
     end
  && match filter_startDate f with
     | Some d => (d <=? expenseDate e)%Z
     | None => true
     end
  && match filter_endDate f with
     | Some d => (expenseDate e <=? d)%Z
     | None => true
     end.

Definition get_expenses (w : World) (u : User) (q : PageQuery)
  (f : ExpenseFilter) (docs : list ExpenseDoc) : Response * option Listing :=
  if negb (validatePagination q)
  then (Failure 400 "Validation failed", None)
  else (Success 200, Some (list_page q (expenses_query w u f) docs)).

(** [GET /api/expenses/:id]. The employee of the expense is populated, and
    is null when the user is gone; an employee's and a manager's check read
    its [_id] and then throw. *)
Definition get_expense (w : World) (u : User) (stored : option Expense)
  : Response * option Expense :=
  match stored with
  | None => (Failure 404 "Expense not found", None)
  | Some expense =>
      let populated := User_findById w (employee expense) in
      match role u with
      | role_employee =>
          match populated with
          | None => (Failure 500 "Server error", None)
          | Some owner =>
              if negb (same_id (_id owner) (_id u))
              then (Failure 403 "Access denied", None)
              else (Success 200, Some expense)
          end
      | role_manager =>
          match populated with
          | None => (Failure 500 "Server error", None)
          | Some owner =>
              if negb (mentions (teamMemberIds w u) (_id owner))
              then (Failure 403 "Access denied", None)
              else (Success 200, Some expense)
          end
      | role_admin => (Success 200, Some expense)
      end
  end.

(** [GET /api/approvals/:id/history]. The query selects
    ['approvalHistory status'] only, so [expense.employee] is undefined in
    the document the handler holds: the permission check of an employee
    throws on it. *)
Definition get_history (u : User) (stored : option Expense)
  : Response * option (list HistoryEntry * Status) :=
  match stored with
  | None => (Failure 404 "Expense not found", None)
  | Some expense =>
      if is_employee (role u)
      then (Failure 500 "Server error", None)
      else (Success 200, Some (approvalHistory expense, status expense))
  end.

(** [DELETE /api/expenses/:id]: the response and what is stored under the
    id afterwards. The removal of the receipt file, whose failure the route
    ignores, is not part of the model. *)
Definition delete_expense (u : User) (stored : option Expense)
  : Response * option Expense :=
  match stored with
  | None => (Failure 404 "Expense not found", stored)
  | Some expense =>
      if is_employee (role u) && negb (same_id (employee expense) (_id u))
      then (Failure 403 "Access denied", stored)
      else if negb (is_pending (status expense))
      then (Failure 400 "Cannot delete expense that is not pending", stored)
      else (Success 200, None)
  end.

(** The pages [1, 2, ..., n]. *)
Definition pages_up_to (n : Z) : list Z :=
  map Z.of_nat (seq 1 (Z.to_nat n)).

Definition page_query (page limit : Z) : PageQuery :=
  {| query_page := Some page; query_limit := Some limit |}.

(** Three stored expenses of the example company. *)
Definition example_docs : list ExpenseDoc :=
  [ {| doc_id := 31%N; doc := example_expense (Some alice) [] [] 2;
       createdAt := 1000 |};
    {| doc_id := 32%N; doc := example_expense (Some bob) [alice] [] 2;
       createdAt := 3000 |};
    {| doc_id := 33%N; doc := auto_approved_expense; createdAt := 2000 |} ].

Definition no_filter : ExpenseFilter :=
  {| filter_status := None; filter_category := None;
     filter_startDate := None; filter_endDate := None |}.

(** ** utils/currency.js

    The rate cache is the module's [Map], threaded through the calls; the
    rate service is what [axios.get] returns for a base currency: the table
    [response.data.rates], or an exception. [Date.now()] reads the clock of
    the call, and [Math.round] is taken as it is given. *)

Module Currency.

Record CachedRate := {
  rate : float;
  cached_timestamp : Z
}.

Definition RateCache := list (string * CachedRate).

Definition RateService := string -> Outcome (string -> option float).

Definition CACHE_DURATION : Z := 24 * 60 * 60 * 1000.

(** [`${fromCurrency}_${toCurrency}`] *)
Definition cacheKey (fromCurrency toCurrency : string) : string :=
  (fromCurrency ++ "_" ++ toCurrency)%string.

(** [exchangeRateCache.get(key)] *)
Definition cache_get (key : string) (cache : RateCache) : option CachedRate :=
  match find (fun entry => String.eqb (fst entry) key) cache with
  | Some entry => Some (snd entry)
  | None => None
  end.

(** [exchangeRateCache.set(key, value)]: the key keeps one binding. *)
Definition cache_set (key : string) (value : CachedRate) (cache : RateCache)
  : RateCache :=
  (key, value) :: filter (fun entry => negb (String.eqb (fst entry) key)) cache.

(** The request to the service and the caching of its answer. A missing
    rate, and a rate that is 0 or NaN, are errors. *)
Definition fetch_rate (service : RateService) (clock : Z)
  (fromCurrency toCurrency : string) (cache : RateCache)
  : Outcome float * RateCache :=
  match service fromCurrency with
  | Thrown => (Thrown, cache)
  | Returned rates =>
      match rates toCurrency with
      | None => (Thrown, cache)
      | Some r =>
          if falsy_number r then (Thrown, cache)
          else (Returned r,
                cache_set (cacheKey fromCurrency toCurrency)
                  {| rate := r; cached_timestamp := clock |} cache)
      end
  end.

Definition getExchangeRate (service : RateService) (clock : Z)
  (fromCurrency toCurrency : string) (cache : RateCache)
  : Outcome float * RateCache :=
  match cache_get (cacheKey fromCurrency toCurrency) cache with
  | Some cached =>
      if (clock - cached_timestamp cached <? CACHE_DURATION)%Z
      then (Returned (rate cached), cache)
      else fetch_rate service clock fromCurrency toCurrency cache
  | None => fetch_rate service clock fromCurrency toCurrency cache
  end.

Record Conversion := {
  convertedAmount : float;
  exchangeRate : float;
  originalAmount : float;
  originalCurrency : string;
  convertedCurrency : string
}.

Definition convertCurrency (Math_round : float -> float)
  (service : RateService) (clock : Z)
  (amount : float) (fromCurrency toCurrency : string) (cache : RateCache)
  : Outcome Conversion * RateCache :=
  if String.eqb fromCurrency toCurrency
  then (Returned {| convertedAmount := amount;
                    exchangeRate := 1%float;
                    originalAmount := amount;
                    originalCurrency := fromCurrency;
                    convertedCurrency := toCurrency |},
        cache)
  else
    match getExchangeRate service clock fromCurrency toCurrency cache with
    | (Thrown, cache') => (Thrown, cache')
    | (Returned r, cache') =>
        (Returned {| convertedAmount :=
                       PrimFloat.div
                         (Math_round
                            (PrimFloat.mul (PrimFloat.mul amount r) 100%float))
                         100%float;
                     exchangeRate := r;
                     originalAmount := amount;
                     originalCurrency := fromCurrency;
                     convertedCurrency := toCurrency |},
         cache')
    end.

(** A service that knows one rate from euro, and one that is down. *)
Definition euro_service : RateService :=
  fun base =>
    if String.eqb base "EUR"
    then Returned (fun target =>
                     if String.eqb target "USD" then Some 1.25%float
                     else if String.eqb target "XXX" then Some 0%float
                     else None)
    else Thrown.

Definition service_down : RateService := fun _ => Thrown.

End Currency.

(** * Theorems *)

Unset Implicit Arguments.

(** ** Field assignments and lists *)

Lemma mentions_true (l : list ObjectId) (x : ObjectId) :
  mentions l x = true <-> In x l.
Proof.
  unfold mentions, same_id. rewrite existsb_exists. split.
  - intros [y [Hin Heq]]. apply N.eqb_eq in Heq. now subst.
  - intros Hin. exists x. split; [assumption | apply N.eqb_refl].
Qed.

Lemma mentions_false (l : list ObjectId) (x : ObjectId) :
  mentions l x = false <-> ~ In x l.
Proof.
  rewrite <- mentions_true. destruct (mentions l x); split; congruence.
Qed.

Lemma string_or_absent (d : string) : string_or None d = d.
Proof. reflexivity. Qed.

Lemma string_or_empty (d : string) : string_or (Some EmptyString) d = d.
Proof. reflexivity. Qed.

Lemma string_or_present (c d : string) :
  c <> EmptyString -> string_or (Some c) d = c.
Proof.
  intros Hc. unfold string_or.
  destruct (String.eqb_spec c EmptyString); [contradiction | reflexivity].
Qed.

(** ** The decision route on an expense without current approver *)

(** C10. A decision request on an expense whose [currentApprover] is null is
    answered with the generic server error 500: reading the current approver
    throws before the pending check, so neither the not-current-approver
    answer (403) nor the not-pending answer (400) can be given, whatever the
    status of the expense; the stored expense is untouched. *)
Theorem decision_without_current_approver_is_server_error :
  forall (w : World) (req : ApprovalRequest) (e : Expense),
    canApprove (req_user req) = true ->
    validateApproval req = true ->
    currentApprover e = None ->
    put_approval w req (Some e) = (Failure 500 "Server error", Some e)
    /\ fst (put_approval w req (Some e))
       <> Failure 403 "You are not the current approver for this expense"
    /\ fst (put_approval w req (Some e))
       <> Failure 400 "Expense is no longer pending approval".
Proof.
  intros w req e Hcan Hvalid Hnull.
  assert (Hrun : put_approval w req (Some e)
                 = (Failure 500 "Server error", Some e)).
  { unfold put_approval, approval_handler.
    rewrite Hcan, Hvalid, Hnull. reflexivity. }
  rewrite Hrun. repeat split; simpl; discriminate.
Qed.

Lemma decision_without_current_approver_is_server_error_witness :
  canApprove (req_user (decision_by alice "approved" None)) = true
  /\ validateApproval (decision_by alice "approved" None) = true
  /\ currentApprover auto_approved_expense = None
  /\ status auto_approved_expense = approved
  /\ put_approval world_without_rules (decision_by alice "approved" None)
       (Some auto_approved_expense)
     = (Failure 500 "Server error", Some auto_approved_expense).
Proof.
  split; [reflexivity |].
  split; [reflexivity |].
  split; [reflexivity |].
  split; [reflexivity |].
  apply (decision_without_current_approver_is_server_error
           world_without_rules (decision_by alice "approved" None)
           auto_approved_expense);
    reflexivity.
Defined.

(** ** The override route *)

Lemma trimStart_length (s : string) :
  (String.length (trimStart s) <= String.length s)%nat.
Proof.
  induction s as [| c s IH]; simpl.
  - lia.
  - destruct (white_space c); simpl; lia.
Qed.

Lemma trimEnd_length (s : string) :
  (String.length (trimEnd s) <= String.length s)%nat.
Proof.
  induction s as [| c s IH]; simpl.
  - lia.
  - destruct (trimEnd s) as [| c' t]; simpl in *.
    + destruct (white_space c); simpl; lia.
    + lia.
Qed.

Lemma trim_length (s : string) :
  (String.length (trim s) <= String.length s)%nat.
Proof.
  unfold trim.
  pose proof (trimEnd_length (trimStart s)).
  pose proof (trimStart_length s). lia.
Qed.

Lemma append_length (s t : string) :
  String.length (s ++ t) = (String.length s + String.length t)%nat.
Proof.
  induction s as [| c s IH]; simpl; [reflexivity | now rewrite IH].
Qed.

(** The entry of an override passes the validator when the reason, or the
    default that stands in for it, has at most 483 characters: the marker
    takes 17 of the 500. *)
Lemma override_entry_valid (w : World) (req : ApprovalRequest) (e : Expense) :
  (String.length (string_or (req_comment req) "No reason provided") <= 483)%nat ->
  history_entry_valid (override_entry w req e) = true.
Proof.
  intros Hshort. unfold history_entry_valid, maxlength.
  change (comment (override_entry w req e))
    with ("[ADMIN OVERRIDE] "
          ++ string_or (req_comment req) "No reason provided")%string.
  apply Nat.leb_le.
  pose proof (trim_length ("[ADMIN OVERRIDE] "
                           ++ string_or (req_comment req) "No reason provided")) as H.
  rewrite append_length in H.
  change (String.length "[ADMIN OVERRIDE] ") with 17%nat in H. lia.
Qed.

(** C9, as the code has it. An override request of an administrator on an
    existing expense is never refused for the status of the expense. It
    succeeds in every status provided the history entry it appends passes
    the schema, that is the reason with the marker "[ADMIN OVERRIDE] " holds
    at most 500 characters after trimming (a reason of at most 483
    characters always does): it appends the entry at step
    [approvalStep + 1], sets the status to the requested terminal value, the
    final approval date to the clock and the current approver to null, and
    leaves [approvedBy] and [rejectedBy] as they are; an approved expense is
    turned into a rejected one and a rejected one into an approved one. With
    a longer reason the save fails: the answer is the server error 500 and
    the stored expense is untouched. *)
Theorem override_succeeds_in_every_status :
  forall (w : World) (req : ApprovalRequest) (e : Expense) (requested : Status),
    role (req_user req) = role_admin ->
    (req_action req = "approved"%string /\ requested = approved
     \/ req_action req = "rejected"%string /\ requested = rejected) ->
    (history_entry_valid (override_entry w req e) = true ->
     exists e',
       put_override w req (Some e) = (Success 200, Some e')
       /\ approvalHistory e' = approvalHistory e ++ [override_entry w req e]
       /\ entry_step (override_entry w req e) = (approvalStep e + 1)%Z
       /\ comment (override_entry w req e)
          = ("[ADMIN OVERRIDE] "
             ++ string_or (req_comment req) "No reason provided")%string
       /\ status e' = requested
       /\ finalApprovalDate e' = Some (now w)
       /\ currentApprover e' = None
       /\ approvedBy e' = approvedBy e
       /\ rejectedBy e' = rejectedBy e
       /\ approvalStep e' = approvalStep e
       /\ (status e = approved -> requested = rejected -> status e' = rejected)
       /\ (status e = rejected -> requested = approved -> status e' = approved))
    /\ (history_entry_valid (override_entry w req e) = false ->
        put_override w req (Some e) = (Failure 500 "Server error", Some e))
    /\ ((String.length (string_or (req_comment req) "No reason provided")
         <= 483)%nat ->
        history_entry_valid (override_entry w req e) = true)
    /\ fst (put_override w req (Some e))
       <> Failure 400 "Expense is no longer pending approval".
Proof.
  intros w req e requested Hadmin Haction.
  split; [| split; [| split]].
  - intros Hvalid. unfold put_override. rewrite Hadmin, Hvalid.
    destruct Haction as [[Ha Hr] | [Ha Hr]]; rewrite Ha; subst requested;
      simpl; eexists; (split; [reflexivity |]); simpl;
      repeat split; try reflexivity; intros; congruence.
  - intros Hinvalid. unfold put_override. rewrite Hadmin, Hinvalid.
    reflexivity.
  - apply override_entry_valid.
  - unfold put_override. rewrite Hadmin.
    destruct (history_entry_valid (override_entry w req e)); simpl;
      discriminate.
Qed.

Lemma override_succeeds_in_every_status_witness :
  role (req_user (override_by_admin "rejected" None)) = role_admin
  /\ history_entry_valid
       (override_entry world_without_rules (override_by_admin "rejected" None)
          auto_approved_expense) = true
  /\ status auto_approved_expense = approved
  /\ exists e',
       put_override world_without_rules (override_by_admin "rejected" None)
         (Some auto_approved_expense) = (Success 200, Some e')
       /\ status e' = rejected
       /\ approvedBy e' = approvedBy auto_approved_expense
       /\ rejectedBy e' = rejectedBy auto_approved_expense.
Proof.
  split; [reflexivity |].
  split; [vm_compute; reflexivity |].
  split; [reflexivity |].
  destruct (override_succeeds_in_every_status
              world_without_rules (override_by_admin "rejected" None)
              auto_approved_expense rejected)
    as [Hfits _].
  - reflexivity.
  - right. split; reflexivity.
  - destruct Hfits as [e' [Hrun [_ [_ [_ [Hstatus [_ [_ [Hyes [Hno _]]]]]]]]]].
    + vm_compute. reflexivity.
    + exists e'. repeat split; assumption.
Defined.

(** C9, as stated, fails for an override whose reason is too long: with a
    reason of 484 characters the entry's comment has 501, the save throws,
    and the administrator is answered 500 with the expense left as it was. *)
Lemma override_with_long_reason_fails :
  role (req_user (override_by_admin "rejected" (Some long_reason)))
  = role_admin
  /\ String.length long_reason = 484%nat
  /\ put_override world_without_rules
       (override_by_admin "rejected" (Some long_reason))
       (Some auto_approved_expense)
     = (Failure 500 "Server error", Some auto_approved_expense)
  /\ ~ (exists e',
         put_override world_without_rules
           (override_by_admin "rejected" (Some long_reason))
           (Some auto_approved_expense)
         = (Success 200, Some e')).
Proof.
  assert (Hrun : put_override world_without_rules
                   (override_by_admin "rejected" (Some long_reason))
                   (Some auto_approved_expense)
                 = (Failure 500 "Server error", Some auto_approved_expense)).
  { vm_compute. reflexivity. }
  split; [reflexivity |].
  split; [vm_compute; reflexivity |].
  split; [exact Hrun |].
  intros [e' Hok]. rewrite Hrun in Hok. discriminate.
Qed.

(** ** Rejection *)

(** C4. A rejection by the current approver of a pending expense is final
    at once, whatever rule and approval type the world holds: the status is
    [rejected], the approver is appended to [rejectedBy], the rejection reason
    is the comment, or "No reason provided" when the comment is absent (or
    empty), the final approval date is set, and nothing else of the workflow
    moves: no rule is consulted (the outcome is the same in every world with
    the same clock) and [currentApprover], [approvalStep], [approvedBy] and
    [totalApprovers] keep their values. *)
Theorem rejection_is_final_under_every_policy :
  forall (w : World) (req : ApprovalRequest) (e : Expense),
    rejects req e ->
    exists e',
      put_approval w req (Some e) = (Success 200, Some e')
      /\ status e' = rejected
      /\ rejectedBy e' = rejectedBy e ++ [_id (req_user req)]
      /\ (req_comment req = None ->
          rejectionReason e' = Some "No reason provided"%string)
      /\ (forall c, req_comment req = Some c -> c <> EmptyString ->
          rejectionReason e' = Some c)
      /\ (req_comment req = Some EmptyString ->
          rejectionReason e' = Some "No reason provided"%string)
      /\ finalApprovalDate e' = Some (now w)
      /\ approvalHistory e' = approvalHistory e ++ [decision_entry w req e]
      /\ currentApprover e' = currentApprover e
      /\ approvalStep e' = approvalStep e
      /\ approvedBy e' = approvedBy e
      /\ totalApprovers e' = totalApprovers e
      /\ (forall w', now w' = now w ->
          put_approval w' req (Some e) = put_approval w req (Some e)).
Proof.
  intros w req e (Hcan & Hvalid & Hcur & Hpending & Haction).
  assert (Hrun : forall w0,
    put_approval w0 req (Some e)
    = (Success 200,
       Some (set_finalApprovalDate (Some (now w0))
               (set_rejectionReason
                  (Some (string_or (req_comment req) "No reason provided"))
                  (set_status rejected
                     (set_rejectedBy (rejectedBy e ++ [_id (req_user req)])
                        (set_approvalHistory
                           (approvalHistory e ++ [decision_entry w0 req e])
                           e))))))).
  { intros w0. unfold put_approval, approval_handler.
    rewrite Hcan, Hvalid, Hcur, Hpending, Haction.
    unfold same_id. rewrite N.eqb_refl. reflexivity. }
  eexists. split; [apply Hrun |]. simpl.
  repeat split; try reflexivity.
  - intros Hnone. rewrite Hnone. reflexivity.
  - intros c Hsome Hc. rewrite Hsome. now rewrite string_or_present.
  - intros Hempty. rewrite Hempty. reflexivity.
  - intros w' Hclock. rewrite !Hrun. unfold decision_entry.
    rewrite Hclock. reflexivity.
Qed.

Lemma rejection_is_final_under_every_policy_witness :
  rejects (decision_by alice "rejected" (Some "Not a business trip"%string))
          (example_expense (Some alice) [] [] 2)
  /\ exists e',
       put_approval
         (example_world
            (Returned [example_rule percentage
                         [approver_at alice 1; approver_at bob 2]
                         (Some 50%float)])
            carol_without_manager)
         (decision_by alice "rejected" (Some "Not a business trip"%string))
         (Some (example_expense (Some alice) [] [] 2))
       = (Success 200, Some e')
       /\ status e' = rejected
       /\ rejectedBy e' = [alice]
       /\ rejectionReason e' = Some "Not a business trip"%string.
Proof.
  assert (H : rejects
                (decision_by alice "rejected" (Some "Not a business trip"%string))
                (example_expense (Some alice) [] [] 2)).
  { repeat split; reflexivity. }
  split; [exact H |].
  destruct (rejection_is_final_under_every_policy
              (example_world
                 (Returned [example_rule percentage
                              [approver_at alice 1; approver_at bob 2]
                              (Some 50%float)])
                 carol_without_manager) _ _ H)
    as [e' [Hrun [Hstatus [Hno [_ [Hreason _]]]]]].
  exists e'. repeat split; try assumption.
  apply Hreason; [reflexivity | discriminate].
Defined.

(** ** Initialization without a matching rule *)

Lemma no_rule_applies (e : Expense) (docs : list ApprovalRule) :
  (forall r, In r docs -> rule_applies e r = false) ->
  filter (rule_applies e) docs = [].
Proof.
  induction docs as [| r docs IH]; intros Hnone; simpl.
  - reflexivity.
  - rewrite (Hnone r (or_introl eq_refl)). apply IH.
    intros r' Hin. apply Hnone. now right.
Qed.

Lemma find_without_match (w : World) (e : Expense) (docs : list ApprovalRule) :
  approvalRules w = Returned docs ->
  (forall r, In r docs -> rule_applies e r = false) ->
  ApprovalRule_find w e = Returned [].
Proof.
  intros Hdocs Hnone. unfold ApprovalRule_find.
  rewrite Hdocs, (no_rule_applies e docs Hnone). reflexivity.
Qed.

(** Without a matching rule the approver list is empty for every existing
    employee, with or without a manager: the flag is read from the stored
    reference, never from the manager. *)
Lemma default_workflow_has_no_approvers :
  forall (w : World) (e : Expense) (docs : list ApprovalRule) (emp : User),
    approvalRules w = Returned docs ->
    (forall r, In r docs -> rule_applies e r = false) ->
    User_findById w (employee e) = Some emp ->
    resolve_workflow w e
    = Returned {| wf_rules := []; wf_approvers := [];
                  wf_approvalType := sequential |}
    /\ status (determineApprovalWorkflow w e) = approved
    /\ totalApprovers (determineApprovalWorkflow w e) = 0%Z
    /\ approvalStep (determineApprovalWorkflow w e) = 0%Z
    /\ currentApprover (determineApprovalWorkflow w e) = currentApprover e
    /\ finalApprovalDate (determineApprovalWorkflow w e) = Some (now w).
Proof.
  intros w e docs emp Hdocs Hnone Hemp.
  pose proof (find_without_match w e docs Hdocs Hnone) as Hfind.
  assert (Hwf : resolve_workflow w e
                = Returned {| wf_rules := []; wf_approvers := [];
                              wf_approvalType := sequential |}).
  { unfold resolve_workflow, default_approvers. rewrite Hfind, Hemp.
    destruct (manager emp) as [m |]; reflexivity. }
  split; [exact Hwf |].
  unfold determineApprovalWorkflow. rewrite Hwf. simpl.
  repeat split; reflexivity.
Qed.

(** C2. No approval rule matches and the employee, carol, has a manager,
    alice, who is flagged as an approver. The specification asks for the
    approver list of alice alone, [totalApprovers = 1], alice as current
    approver and [approvalStep = 1]. The code reads the flag from the
    reference that carol's document stores, which is not populated, finds
    none, and approves the expense on creation: [status = approved],
    [totalApprovers = 0], no current approver, [approvalStep = 0]; alice is
    never asked. *)
Theorem flagged_manager_is_not_asked :
  has_flagged_manager (example_world (Returned []) carol_under_alice)
                      carol_under_alice alice
  /\ ApprovalRule_find (example_world (Returned []) carol_under_alice)
       (Expense_create (example_submission carol_under_alice) (500%Q, 1%Q))
     = Returned []
  /\ default_approvers (example_world (Returned []) carol_under_alice)
       (Expense_create (example_submission carol_under_alice) (500%Q, 1%Q))
     = Returned []
  /\ exists e,
       post_expense (example_world (Returned []) carol_under_alice)
                    (example_submission carol_under_alice)
       = (Success 201, Some e)
       /\ status e = approved
       /\ totalApprovers e = 0%Z
       /\ currentApprover e = None
       /\ approvalStep e = 0%Z
       /\ finalApprovalDate e
          = Some (now (example_world (Returned []) carol_under_alice)).
Proof.
  split.
  { exists (example_user alice role_manager true None).
    repeat split; reflexivity. }
  split; [reflexivity |].
  split; [reflexivity |].
  eexists. split; [vm_compute; reflexivity |].
  repeat split; reflexivity.
Qed.

(** ** What the helpers leave untouched *)

Lemma approval_switch_same_decisions (wf : Workflow) (e : Expense) :
  same_decisions (fst (approval_switch wf e)) e.
Proof.
  unfold approval_switch, same_decisions.
  destruct (wf_approvalType wf); simpl; try (repeat split; reflexivity).
  destruct (len (wf_approvers wf) <=? approvalStep e)%Z; simpl.
  - repeat split; reflexivity.
  - destruct (at_index (wf_approvers wf) (approvalStep e + 1 - 1));
      simpl; repeat split; reflexivity.
Qed.

Lemma same_decisions_refl (e : Expense) : same_decisions e e.
Proof. repeat split; reflexivity. Qed.

Lemma same_decisions_current (v : option ObjectId) (e1 e : Expense) :
  same_decisions e1 e -> same_decisions (set_currentApprover v e1) e.
Proof. intros H. exact H. Qed.

Lemma processApprovalWorkflow_left_as (w : World) (e : Expense) :
  left_as w e (processApprovalWorkflow w e).
Proof.
  unfold processApprovalWorkflow.
  destruct (resolve_workflow w e) as [wf |].
  2: { apply left_open, same_decisions_refl. }
  pose proof (approval_switch_same_decisions wf e) as Hsame.
  destruct (approval_switch wf e) as [e1 [isApproved |]]; simpl in Hsame.
  2: { now apply left_open. }
  destruct isApproved.
  { now apply left_approved. }
  destruct (is_sequential (wf_approvalType wf)
            && (approvalStep e1 <=? len (wf_approvers wf))%Z).
  { now apply left_open. }
  destruct (remainingApprovers (wf_approvers wf) e1) as [| next rest].
  2: { apply left_open. now apply same_decisions_current. }
  destruct (percentage_or_hybrid (wf_approvalType wf)).
  2: { now apply left_open. }
  destruct (number_ge _ _).
  - now apply left_approved.
  - now apply left_insufficient.
Qed.

Lemma processApprovalWorkflow_lists (w : World) (e : Expense) :
  approvedBy (processApprovalWorkflow w e) = approvedBy e
  /\ rejectedBy (processApprovalWorkflow w e) = rejectedBy e
  /\ approvalHistory (processApprovalWorkflow w e) = approvalHistory e.
Proof.
  destruct (processApprovalWorkflow_left_as w e)
    as [e1 (_ & _ & Hyes & Hno & Hhist & _)
       | e1 (_ & _ & Hyes & Hno & Hhist & _)
       | e1 (_ & _ & Hyes & Hno & Hhist & _)];
    simpl; repeat split; assumption.
Qed.

(** ** The final approval date *)

Lemma date_iff_terminal_pending (e : Expense) :
  status e = pending -> finalApprovalDate e = None -> date_iff_terminal e.
Proof.
  intros Hs Hd. unfold date_iff_terminal. rewrite Hs, Hd.
  split; [congruence | intros [H | H]; discriminate].
Qed.

Lemma date_iff_terminal_closed (e : Expense) (t : Z) :
  status e = approved \/ status e = rejected ->
  finalApprovalDate e = Some t -> date_iff_terminal e.
Proof.
  intros Hs Hd. unfold date_iff_terminal. rewrite Hd.
  split; [intros _; exact Hs | intros _; discriminate].
Qed.

Lemma date_iff_terminal_same (e1 e : Expense) :
  status e1 = status e -> finalApprovalDate e1 = finalApprovalDate e ->
  date_iff_terminal e -> date_iff_terminal e1.
Proof.
  unfold date_iff_terminal. intros Hs Hd H. now rewrite Hs, Hd.
Qed.

Lemma processApprovalWorkflow_date (w : World) (e : Expense) :
  date_iff_terminal e -> date_iff_terminal (processApprovalWorkflow w e).
Proof.
  intros Hinv.
  destruct (processApprovalWorkflow_left_as w e)
    as [e1 (Hs & Hd & _) | e1 _ | e1 _].
  - now apply date_iff_terminal_same with e.
  - apply date_iff_terminal_closed with (now w); [now left | reflexivity].
  - apply date_iff_terminal_closed with (now w); [now right | reflexivity].
Qed.

Lemma determineApprovalWorkflow_date (w : World) (e : Expense) :
  date_iff_terminal e -> date_iff_terminal (determineApprovalWorkflow w e).
Proof.
  intros Hinv. unfold determineApprovalWorkflow.
  destruct (resolve_workflow w e) as [wf |]; [| exact Hinv].
  destruct (wf_approvers wf) as [| first rest].
  - apply date_iff_terminal_closed with (now w); [now left | reflexivity].
  - now apply date_iff_terminal_same with e.
Qed.

Lemma post_expense_date (w : World) (req : ExpenseRequest) :
  stored_satisfies date_iff_terminal (snd (post_expense w req)).
Proof.
  unfold post_expense, stored_satisfies.
  destruct (Company_findById w (user_company (ereq_user req))) as [c |];
    [| discriminate].
  destruct (convert_if_needed w req c) as [converted |]; [| discriminate].
  destruct (negb (Qle_bool (fst converted) (maxExpenseAmount c)));
    [discriminate |].
  simpl. intros e [= <-]. apply determineApprovalWorkflow_date.
  now apply date_iff_terminal_pending.
Qed.

Lemma put_expense_date (w : World) (req : ExpenseRequest)
  (stored : option Expense) :
  stored_satisfies date_iff_terminal stored ->
  stored_satisfies date_iff_terminal (snd (put_expense w req stored)).
Proof.
  unfold put_expense. intros Hinv.
  destruct stored as [expense |]; [| exact Hinv].
  destruct (is_employee (role (ereq_user req))
            && negb (same_id (employee expense) (_id (ereq_user req))));
    [exact Hinv |].
  destruct (negb (is_pending (status expense))); [exact Hinv |].
  destruct (Company_findById w (user_company (ereq_user req))) as [c |];
    [| exact Hinv].
  destruct (convert_if_needed w req c) as [converted |]; [| exact Hinv].
  cbv zeta.
  destruct (assigned_paths_valid (update_fields req converted expense));
    [| exact Hinv].
  simpl. intros e [= <-]. apply determineApprovalWorkflow_date.
  apply date_iff_terminal_same with expense; try reflexivity.
  now apply Hinv.
Qed.

Lemma put_approval_date (w : World) (req : ApprovalRequest)
  (stored : option Expense) :
  stored_satisfies date_iff_terminal stored ->
  stored_satisfies date_iff_terminal (snd (put_approval w req stored)).
Proof.
  unfold put_approval, approval_handler. intros Hinv.
  destruct (negb (canApprove (req_user req))); [exact Hinv |].
  destruct (negb (validateApproval req)); [exact Hinv |].
  destruct stored as [expense |]; [| exact Hinv].
  destruct (currentApprover expense) as [current |]; [| exact Hinv].
  destruct (negb (same_id current (_id (req_user req)))); [exact Hinv |].
  destruct (negb (is_pending (status expense))); [exact Hinv |].
  destruct (String.eqb (req_action req) "approved");
    simpl; intros e [= <-].
  - apply processApprovalWorkflow_date.
    apply date_iff_terminal_same with expense; try reflexivity.
    now apply Hinv.
  - apply date_iff_terminal_closed with (now w); [now right | reflexivity].
Qed.

Lemma put_override_date (w : World) (req : ApprovalRequest)
  (stored : option Expense) :
  stored_satisfies date_iff_terminal stored ->
  stored_satisfies date_iff_terminal (snd (put_override w req stored)).
Proof.
  unfold put_override. intros Hinv.
  destruct (role (req_user req)); try exact Hinv.
  destruct stored as [expense |]; [| exact Hinv].
  cbv zeta.
  destruct (history_entry_valid (override_entry w req expense));
    [| exact Hinv].
  simpl. intros e [= <-].
  apply date_iff_terminal_closed with (now w).
  - destruct (String.eqb (req_action req) "approved");
      destruct (String.eqb (req_action req) "rejected"); simpl; auto.
  - destruct (String.eqb (req_action req) "rejected"); reflexivity.
Qed.

Lemma perform_date (stored : option Expense) (op : Operation) :
  stored_satisfies date_iff_terminal stored ->
  stored_satisfies date_iff_terminal (perform stored op).
Proof.
  destruct op as [w req | w req | w req]; simpl.
  - apply put_expense_date.
  - apply put_approval_date.
  - apply put_override_date.
Qed.

Lemma operations_date (ops : list Operation) :
  forall stored,
    stored_satisfies date_iff_terminal stored ->
    stored_satisfies date_iff_terminal (fold_left perform ops stored).
Proof.
  induction ops as [| op ops IH]; intros stored Hinv; simpl.
  - exact Hinv.
  - apply IH. now apply perform_date.
Qed.

(** C7. Every expense reached from a create request by update, decision and
    override requests has its [finalApprovalDate] set if and only if its
    status is [approved] or [rejected]. *)
Theorem final_date_set_iff_terminal :
  forall (w : World) (req : ExpenseRequest) (ops : list Operation)
         (e : Expense),
    life w req ops = Some e ->
    (finalApprovalDate e <> None
     <-> (status e = approved \/ status e = rejected)).
Proof.
  intros w req ops e Hlife.
  apply (operations_date ops (snd (post_expense w req))
           (post_expense_date w req) e Hlife).
Qed.

Lemma final_date_set_iff_terminal_witness :
  exists e,
    life world_alice_then_bob (example_submission carol_without_manager)
         life_alice_then_bob = Some e
    /\ status e = approved
    /\ (finalApprovalDate e <> None
        <-> (status e = approved \/ status e = rejected)).
Proof.
  eexists. split; [vm_compute; reflexivity |].
  split; [reflexivity |].
  apply (final_date_set_iff_terminal
           world_alice_then_bob (example_submission carol_without_manager)
           life_alice_then_bob).
  vm_compute. reflexivity.
Defined.

(** ** The two decision lists *)

Lemma decided_once_same (e1 e : Expense) :
  approvedBy e1 = approvedBy e -> rejectedBy e1 = rejectedBy e ->
  decided_once e -> decided_once e1.
Proof.
  unfold decided_once. intros Hyes Hno H. now rewrite Hyes, Hno.
Qed.

Lemma decided_once_empty (e : Expense) :
  approvedBy e = [] -> rejectedBy e = [] -> decided_once e.
Proof.
  unfold decided_once. intros Hyes Hno. rewrite Hyes, Hno. constructor.
Qed.

Lemma nodup_approve (yes no : list ObjectId) (u : ObjectId) :
  NoDup (yes ++ no) -> ~ In u yes -> ~ In u no ->
  NoDup ((yes ++ [u]) ++ no).
Proof.
  intros Hnodup Hyes Hno.
  rewrite <- app_assoc. simpl.
  apply (NoDup_Add (Add_app u yes no)).
  split; [exact Hnodup |]. rewrite in_app_iff. tauto.
Qed.

Lemma nodup_reject (yes no : list ObjectId) (u : ObjectId) :
  NoDup (yes ++ no) -> ~ In u yes -> ~ In u no ->
  NoDup (yes ++ (no ++ [u])).
Proof.
  intros Hnodup Hyes Hno.
  rewrite app_assoc.
  apply (NoDup_Add (Add_app u (yes ++ no) [])).
  rewrite app_nil_r, in_app_iff. tauto.
Qed.

Lemma determineApprovalWorkflow_decided_once (w : World) (e : Expense) :
  decided_once e -> decided_once (determineApprovalWorkflow w e).
Proof.
  intros Hinv. unfold determineApprovalWorkflow.
  destruct (resolve_workflow w e) as [wf |]; [| exact Hinv].
  destruct (wf_approvers wf); now apply decided_once_empty.
Qed.

Lemma post_expense_decided_once (w : World) (req : ExpenseRequest) :
  stored_satisfies decided_once (snd (post_expense w req)).
Proof.
  unfold post_expense, stored_satisfies.
  destruct (Company_findById w (user_company (ereq_user req))) as [c |];
    [| discriminate].
  destruct (convert_if_needed w req c) as [converted |]; [| discriminate].
  destruct (negb (Qle_bool (fst converted) (maxExpenseAmount c)));
    [discriminate |].
  simpl. intros e [= <-]. apply determineApprovalWorkflow_decided_once.
  now apply decided_once_empty.
Qed.

Lemma put_expense_decided_once (w : World) (req : ExpenseRequest)
  (stored : option Expense) :
  stored_satisfies decided_once stored ->
  stored_satisfies decided_once (snd (put_expense w req stored)).
Proof.
  unfold put_expense. intros Hinv.
  destruct stored as [expense |]; [| exact Hinv].
  destruct (is_employee (role (ereq_user req))
            && negb (same_id (employee expense) (_id (ereq_user req))));
    [exact Hinv |].
  destruct (negb (is_pending (status expense))); [exact Hinv |].
  destruct (Company_findById w (user_company (ereq_user req))) as [c |];
    [| exact Hinv].
  destruct (convert_if_needed w req c) as [converted |]; [| exact Hinv].
  cbv zeta.
  destruct (assigned_paths_valid (update_fields req converted expense));
    [| exact Hinv].
  simpl. intros e [= <-]. apply determineApprovalWorkflow_decided_once.
  apply decided_once_same with expense; try reflexivity.
  now apply Hinv.
Qed.

Lemma put_override_decided_once (w : World) (req : ApprovalRequest)
  (stored : option Expense) :
  stored_satisfies decided_once stored ->
  stored_satisfies decided_once (snd (put_override w req stored)).
Proof.
  unfold put_override. intros Hinv.
  destruct (role (req_user req)); try exact Hinv.
  destruct stored as [expense |]; [| exact Hinv].
  cbv zeta.
  destruct (history_entry_valid (override_entry w req expense));
    [| exact Hinv].
  simpl. intros e [= <-].
  apply decided_once_same with expense.
  - destruct (String.eqb (req_action req) "rejected"); reflexivity.
  - destruct (String.eqb (req_action req) "rejected"); reflexivity.
  - now apply Hinv.
Qed.

Lemma put_approval_decided_once (w : World) (req : ApprovalRequest)
  (stored : option Expense) :
  current_undecided stored = true ->
  stored_satisfies decided_once stored ->
  stored_satisfies decided_once (snd (put_approval w req stored)).
Proof.
  unfold put_approval, approval_handler. intros Hfresh Hinv.
  destruct (negb (canApprove (req_user req))); [exact Hinv |].
  destruct (negb (validateApproval req)); [exact Hinv |].
  destruct stored as [expense |]; [| exact Hinv].
  simpl in Hfresh.
  destruct (currentApprover expense) as [current |]; [| exact Hinv].
  destruct (same_id current (_id (req_user req))) eqn:Hsame;
    [| exact Hinv].
  apply N.eqb_eq in Hsame. subst current. simpl.
  destruct (negb (is_pending (status expense))); [exact Hinv |].
  apply andb_true_iff in Hfresh. destruct Hfresh as [Hyes Hno].
  apply negb_true_iff, mentions_false in Hyes.
  apply negb_true_iff, mentions_false in Hno.
  pose proof (Hinv expense eq_refl) as Hexpense.
  destruct (String.eqb (req_action req) "approved");
    simpl; intros e [= <-].
  - destruct (processApprovalWorkflow_lists w
                (set_approvedBy (approvedBy expense ++ [_id (req_user req)])
                   (set_approvalHistory
                      (approvalHistory expense ++ [decision_entry w req expense])
                      expense)))
      as (Hlyes & Hlno & _).
    unfold decided_once. rewrite Hlyes, Hlno. simpl.
    now apply nodup_approve.
  - unfold decided_once. simpl. now apply nodup_reject.
Qed.

Lemma operations_decided_once (ops : list Operation) :
  forall stored,
    never_reoffered stored ops = true ->
    stored_satisfies decided_once stored ->
    stored_satisfies decided_once (fold_left perform ops stored).
Proof.
  induction ops as [| op ops IH]; intros stored Hfresh Hinv; simpl.
  - exact Hinv.
  - simpl in Hfresh. apply andb_true_iff in Hfresh.
    destruct Hfresh as [Hop Hrest].
    apply IH; [exact Hrest |].
    destruct op as [w req | w req | w req]; simpl.
    + now apply put_expense_decided_once.
    + now apply put_approval_decided_once.
    + now apply put_override_decided_once.
Qed.

(** C8, as the code has it. In every life of an expense in which no decision
    request arrives while the current approver is already in [approvedBy] or
    [rejectedBy], the two lists are disjoint and no approver occurs twice
    across them. The engine itself does not keep a decided approver from
    becoming the current approver again. *)
Theorem decided_once_unless_reoffered :
  forall (w : World) (req : ExpenseRequest) (ops : list Operation)
         (e : Expense),
    never_reoffered (snd (post_expense w req)) ops = true ->
    life w req ops = Some e ->
    NoDup (approvedBy e ++ rejectedBy e).
Proof.
  intros w req ops e Hfresh Hlife.
  apply (operations_decided_once ops (snd (post_expense w req)) Hfresh
           (post_expense_decided_once w req) e Hlife).
Qed.

Lemma decided_once_unless_reoffered_witness :
  exists e,
    never_reoffered
      (snd (post_expense world_alice_then_bob
              (example_submission carol_without_manager)))
      life_alice_then_bob = true
    /\ life world_alice_then_bob (example_submission carol_without_manager)
            life_alice_then_bob = Some e
    /\ approvedBy e = [alice; bob]
    /\ NoDup (approvedBy e ++ rejectedBy e).
Proof.
  eexists.
  split; [vm_compute; reflexivity |].
  split; [vm_compute; reflexivity |].
  split; [reflexivity |].
  apply (decided_once_unless_reoffered
           world_alice_then_bob (example_submission carol_without_manager)
           life_alice_then_bob);
    vm_compute; reflexivity.
Defined.

Example approved_twice_after_swap :
  exists e,
    life world_alice_then_bob (example_submission carol_without_manager)
         life_after_swap = Some e
    /\ approvedBy e = [alice; alice]
    /\ status e = approved.
Proof.
  eexists. split; [vm_compute; reflexivity |]. split; reflexivity.
Qed.

Example in_both_lists_when_listed_twice :
  exists e,
    life world_alice_twice (example_submission carol_without_manager)
         life_alice_twice = Some e
    /\ approvedBy e = [alice]
    /\ rejectedBy e = [alice].
Proof.
  eexists. split; [vm_compute; reflexivity |]. split; reflexivity.
Qed.

(** C8, as stated, fails. Under a sequential rule that lists alice at both
    steps she approves at step 1 and rejects at step 2, and is then in both
    lists; when the steps of a rule over alice and bob are swapped after the
    creation, alice is offered the expense twice and is twice in
    [approvedBy]. *)
Lemma decided_once_fails_when_reoffered :
  ~ (forall (w : World) (req : ExpenseRequest) (ops : list Operation)
            (e : Expense),
       life w req ops = Some e -> NoDup (approvedBy e ++ rejectedBy e)).
Proof.
  intros Hclaim.
  destruct in_both_lists_when_listed_twice as [e (Hlife & Hyes & Hno)].
  pose proof (Hclaim _ _ _ e Hlife) as Hnodup.
  rewrite Hyes, Hno in Hnodup. simpl in Hnodup.
  inversion Hnodup as [| x l Hnotin _]. apply Hnotin. now left.
Qed.

(** ** A failing re-evaluation *)

Lemma rule_applies_ext (e1 e : Expense) :
  company e1 = company e ->
  amountInCompanyCurrency e1 = amountInCompanyCurrency e ->
  forall r, rule_applies e1 r = rule_applies e r.
Proof.
  intros Hc Ha r. unfold rule_applies. now rewrite Hc, Ha.
Qed.

Lemma resolve_workflow_ext (w : World) (e1 e : Expense) :
  employee e1 = employee e ->
  company e1 = company e ->
  amountInCompanyCurrency e1 = amountInCompanyCurrency e ->
  ApprovalRule_find w e1 = ApprovalRule_find w e
  /\ resolve_workflow w e1 = resolve_workflow w e.
Proof.
  intros He Hc Ha.
  assert (Hfind : ApprovalRule_find w e1 = ApprovalRule_find w e).
  { unfold ApprovalRule_find. destruct (approvalRules w) as [docs |];
      [| reflexivity].
    now rewrite (filter_ext _ _ (rule_applies_ext e1 e Hc Ha)). }
  split; [exact Hfind |].
  unfold resolve_workflow, default_approvers. now rewrite Hfind, He.
Qed.

Lemma resolve_workflow_recorded (w : World) (req : ApprovalRequest)
  (e : Expense) :
  ApprovalRule_find w (approval_recorded w req e) = ApprovalRule_find w e
  /\ resolve_workflow w (approval_recorded w req e) = resolve_workflow w e.
Proof. apply resolve_workflow_ext; reflexivity. Qed.

(** The request of [approves] reaches the helper. *)
Lemma put_approval_approves (w : World) (req : ApprovalRequest) (e : Expense) :
  approves req e ->
  put_approval w req (Some e)
  = (Success 200,
     Some (processApprovalWorkflow w (approval_recorded w req e))).
Proof.
  intros (Hcan & Hvalid & Hcur & Hpending & Haction).
  unfold put_approval, approval_handler, approval_recorded.
  rewrite Hcan, Hvalid, Hcur, Hpending, Haction.
  unfold same_id. rewrite N.eqb_refl. reflexivity.
Qed.

Lemma approval_switch_throws (wf : Workflow) (e e1 : Expense) :
  approval_switch wf e = (e1, Thrown) ->
  e1 = set_approvalStep (approvalStep e + 1) e.
Proof.
  unfold approval_switch.
  destruct (wf_approvalType wf); try discriminate.
  destruct (len (wf_approvers wf) <=? approvalStep e)%Z; [discriminate |].
  destruct (at_index _ _); [discriminate |].
  now intros [= <-].
Qed.

(** C3, as the code has it. When something throws during the re-evaluation
    of an approval, the helper catches the exception and the request still
    succeeds and saves the expense: the history entry and the approver's id
    pushed before the evaluation are stored, while the status, the current
    approver, the final approval date, the rejection reason, [rejectedBy] and
    [totalApprovers] are the prior ones. When it is the rule or user lookup
    that throws, the stored expense is exactly the prior one with these two
    additions. *)
Theorem failed_evaluation_commits_the_recorded_approval :
  forall (w : World) (req : ApprovalRequest) (e : Expense),
    approves req e ->
    evaluation_throws w (approval_recorded w req e) = true ->
    exists e',
      put_approval w req (Some e) = (Success 200, Some e')
      /\ approvalHistory e' = approvalHistory e ++ [decision_entry w req e]
      /\ approvedBy e' = approvedBy e ++ [_id (req_user req)]
      /\ rejectedBy e' = rejectedBy e
      /\ status e' = status e
      /\ currentApprover e' = currentApprover e
      /\ finalApprovalDate e' = finalApprovalDate e
      /\ rejectionReason e' = rejectionReason e
      /\ totalApprovers e' = totalApprovers e
      /\ (resolve_workflow w e = Thrown -> e' = approval_recorded w req e).
Proof.
  intros w req e Happroves Hthrows.
  rewrite (put_approval_approves w req e Happroves).
  eexists. split; [reflexivity |].
  unfold evaluation_throws in Hthrows. unfold processApprovalWorkflow.
  destruct (resolve_workflow_recorded w req e) as [_ Hsame].
  destruct (resolve_workflow w (approval_recorded w req e)) as [wf |] eqn:Hwf.
  - destruct (approval_switch wf (approval_recorded w req e))
      as [e1 [isApproved |]] eqn:Hswitch; [discriminate |].
    apply approval_switch_throws in Hswitch. subst e1. simpl.
    repeat split; try reflexivity.
    intros Hresolve. rewrite Hresolve in Hsame. discriminate.
  - simpl. repeat split; reflexivity.
Qed.

Lemma failed_evaluation_commits_the_recorded_approval_witness :
  approves (decision_by alice "approved" None)
           (example_expense (Some alice) [] [] 2)
  /\ evaluation_throws world_rules_unavailable
       (approval_recorded world_rules_unavailable
          (decision_by alice "approved" None)
          (example_expense (Some alice) [] [] 2)) = true
  /\ exists e',
       put_approval world_rules_unavailable
         (decision_by alice "approved" None)
         (Some (example_expense (Some alice) [] [] 2))
       = (Success 200, Some e')
       /\ approvedBy e' = [alice]
       /\ currentApprover e' = Some alice
       /\ status e' = pending.
Proof.
  assert (H : approves (decision_by alice "approved" None)
                       (example_expense (Some alice) [] [] 2)).
  { repeat split; reflexivity. }
  split; [exact H |].
  split; [reflexivity |].
  destruct (failed_evaluation_commits_the_recorded_approval
              world_rules_unavailable _ _ H eq_refl)
    as [e' (Hrun & _ & Hyes & _ & Hstatus & Hcur & _)].
  exists e'. repeat split; assumption.
Defined.

(** C3, as stated, fails: the rule lookup throws, and the stored expense is
    not the prior one (it has gained a history entry and an id in
    [approvedBy]). *)
Lemma failed_evaluation_does_not_leave_prior_state :
  ~ failure_leaves_prior_state world_rules_unavailable
      (decision_by alice "approved" None)
      (example_expense (Some alice) [] [] 2).
Proof.
  unfold failure_leaves_prior_state. intros Hclaim.
  specialize (Hclaim eq_refl). vm_compute in Hclaim. discriminate.
Qed.

(** ** The parallel policy *)

Lemma remaining_first_undecided (approvers : list Approver) (e : Expense) :
  first_undecided approvers e
  = match remainingApprovers approvers e with
    | next :: _ => Some next
    | [] => None
    end.
Proof.
  unfold first_undecided, remainingApprovers.
  induction approvers as [| a l IH]; simpl.
  - reflexivity.
  - destruct (negb (mentions (approvedBy e) (user a))
              && negb (mentions (rejectedBy e) (user a))).
    + reflexivity.
    + exact IH.
Qed.

(** [processApprovalWorkflow] under a rule of type [parallel]. *)
Lemma processApprovalWorkflow_parallel (w : World) (e : Expense)
  (rule : ApprovalRule) (rest : list ApprovalRule) :
  ApprovalRule_find w e = Returned (rule :: rest) ->
  approvalType rule = parallel ->
  processApprovalWorkflow w e
  = if (len (requiredApprovers (sort_by_step (approvers rule)))
        <=? approvedRequiredCount (sort_by_step (approvers rule)) e)%Z
    then mark_approved w e
    else match first_undecided (sort_by_step (approvers rule)) e with
         | Some next => set_currentApprover (Some (user next)) e
         | None => e
         end.
Proof.
  intros Hfind Htype.
  unfold processApprovalWorkflow, resolve_workflow. rewrite Hfind.
  unfold approval_switch. simpl. rewrite Htype. simpl.
  destruct (len (requiredApprovers (sort_by_step (approvers rule)))
            <=? approvedRequiredCount (sort_by_step (approvers rule)) e)%Z.
  - reflexivity.
  - rewrite remaining_first_undecided.
    destruct (remainingApprovers (sort_by_step (approvers rule)) e);
      reflexivity.
Qed.

(** C1. A parallel rule requires alice and bob. The rule lookup fails
    while alice's approval is processed: the approval is recorded and the
    expense still waits for alice. Alice approves again. The specification
    counts the required approvers whose id appears in [approvedBy]: that is
    one of two, so the expense is to wait for bob, the first undecided
    approver. The code counts the entries of [approvedBy] that are ids of
    required approvers: alice's two entries make two of two, and the expense
    is approved without bob having been asked, against the code's own
    comment that all required approvers must approve. *)
Theorem parallel_count_takes_one_approver_for_two :
  exists e1 e2 e3,
    post_expense world_parallel (example_submission carol_without_manager)
    = (Success 201, Some e1)
    /\ status e1 = pending
    /\ currentApprover e1 = Some alice
    /\ totalApprovers e1 = 2%Z
    /\ put_approval world_rules_unavailable
         (decision_by alice "approved" None) (Some e1)
       = (Success 200, Some e2)
    /\ status e2 = pending
    /\ currentApprover e2 = Some alice
    /\ approvedBy e2 = [alice]
    /\ ApprovalRule_find world_parallel e2
       = Returned [example_rule parallel alice_and_bob None]
    /\ put_approval world_parallel (decision_by alice "approved" None)
         (Some e2)
       = (Success 200, Some e3)
    /\ life world_parallel (example_submission carol_without_manager)
         life_lookup_fails_once
       = Some e3
    /\ status e3 = approved
    /\ approvedBy e3 = [alice; alice]
    /\ rejectedBy e3 = []
    /\ map approver (approvalHistory e3) = [alice; alice]
    /\ len (requiredApprovers alice_and_bob) = 2%Z
    /\ required_approvers_approved alice_and_bob e3 = 1%Z
    /\ approvedRequiredCount alice_and_bob e3 = 2%Z
    /\ first_undecided alice_and_bob e3 = Some (approver_at bob 2)
    /\ ~ parallel_as_specified alice_and_bob
           (approval_recorded world_parallel
              (decision_by alice "approved" None) e2)
           e3.
Proof.
  eexists. eexists. eexists.
  split; [vm_compute; reflexivity |].
  split; [reflexivity |].
  split; [reflexivity |].
  split; [reflexivity |].
  split; [vm_compute; reflexivity |].
  split; [reflexivity |].
  split; [reflexivity |].
  split; [reflexivity |].
  split; [vm_compute; reflexivity |].
  split; [vm_compute; reflexivity |].
  split; [vm_compute; reflexivity |].
  split; [reflexivity |].
  split; [reflexivity |].
  split; [reflexivity |].
  split; [reflexivity |].
  split; [reflexivity |].
  split; [vm_compute; reflexivity |].
  split; [vm_compute; reflexivity |].
  split; [vm_compute; reflexivity |].
  intros [[Happroved _] _].
  specialize (Happroved eq_refl).
  vm_compute in Happroved. apply Happroved. reflexivity.
Qed.

(** The count of the code and the count of the specification's sentence
    agree when no id is repeated in [approvedBy] or among the required
    approvers. *)
Lemma mentions_cons (a : ObjectId) (l : list ObjectId) (x : ObjectId) :
  mentions (a :: l) x = same_id a x || mentions l x.
Proof. reflexivity. Qed.

Lemma count_one_more_id (i : ObjectId) (ids : list ObjectId) :
  ~ In i ids ->
  forall l, NoDup l ->
    List.length (filter (mentions (i :: ids)) l)
    = ((if mentions l i then 1 else 0)
       + List.length (filter (mentions ids) l))%nat.
Proof.
  intros Hnotin. apply mentions_false in Hnotin.
  induction l as [| d l IHl]; intros Hl.
  - reflexivity.
  - inversion Hl as [| d' l' Hd Hl']; subst.
    specialize (IHl Hl'). apply mentions_false in Hd.
    cbn [filter]. rewrite !mentions_cons. unfold same_id at 1 2.
    destruct (N.eqb_spec i d) as [Heq | Hneq].
    + subst d. rewrite N.eqb_refl, Hnotin. cbn [orb List.length].
      rewrite IHl, Hd. reflexivity.
    + assert (Hdi : N.eqb d i = false) by (apply N.eqb_neq; congruence).
      rewrite Hdi. cbn [orb].
      destruct (mentions ids d); cbn [List.length]; rewrite IHl; lia.
Qed.

Lemma count_common_ids (ids decided : list ObjectId) :
  NoDup ids -> NoDup decided ->
  List.length (filter (mentions ids) decided)
  = List.length (filter (mentions decided) ids).
Proof.
  intros Hids. revert decided.
  induction Hids as [| i ids Hnotin Hids IH]; intros decided Hdecided.
  - induction decided as [| d decided IHd].
    + reflexivity.
    + cbn [filter mentions existsb]. apply IHd. now inversion Hdecided.
  - rewrite (count_one_more_id i ids Hnotin decided Hdecided).
    rewrite (IH decided Hdecided). cbn [filter].
    destruct (mentions decided i); reflexivity.
Qed.

Lemma mentions_users (l : list Approver) (x : ObjectId) :
  existsb (fun a => same_id (user a) x) l = mentions (map user l) x.
Proof.
  unfold mentions. induction l as [| a l IH]; simpl.
  - reflexivity.
  - now rewrite IH.
Qed.

Lemma approvedRequiredCount_as_specified (approvers : list Approver)
  (e : Expense) :
  NoDup (map user (requiredApprovers approvers)) ->
  NoDup (approvedBy e) ->
  approvedRequiredCount approvers e = required_approvers_approved approvers e.
Proof.
  intros Hids Hdecided.
  unfold approvedRequiredCount, required_approvers_approved, len.
  f_equal.
  assert (Hleft : forall x,
            existsb (fun a => same_id (user a) x) (requiredApprovers approvers)
            = mentions (map user (requiredApprovers approvers)) x).
  { intros x. apply mentions_users. }
  rewrite (filter_ext _ _ Hleft).
  rewrite (count_common_ids _ _ Hids Hdecided).
  generalize (requiredApprovers approvers) as l.
  induction l as [| a l IH]; simpl.
  - reflexivity.
  - destruct (mentions (approvedBy e) (user a)); simpl; now rewrite IH.
Qed.

(** ** The percentage policy *)

(** [processApprovalWorkflow] under a rule of type [percentage]: the
    threshold is the same in the first and in the final comparison, so an
    exhausted list always ends in the rejection. *)
Lemma processApprovalWorkflow_percentage (w : World) (e : Expense)
  (rule : ApprovalRule) (rest : list ApprovalRule) :
  ApprovalRule_find w e = Returned (rule :: rest) ->
  approvalType rule = percentage ->
  processApprovalWorkflow w e
  = if number_ge (approvalPercentage e)
         (number_or (percentageRequired (approvalSettings rule)) 100%float)
    then mark_approved w e
    else match first_undecided (sort_by_step (approvers rule)) e with
         | Some next => set_currentApprover (Some (user next)) e
         | None => mark_insufficient w e
         end.
Proof.
  intros Hfind Htype.
  unfold processApprovalWorkflow, resolve_workflow. rewrite Hfind.
  unfold approval_switch.
  cbn [wf_approvers wf_rules wf_approvalType first_percentageRequired].
  rewrite Htype.
  cbn [is_sequential percentage_or_hybrid andb].
  destruct (number_ge (approvalPercentage e)
              (number_or (percentageRequired (approvalSettings rule))
                         100%float)) eqn:Hge.
  - reflexivity.
  - rewrite remaining_first_undecided.
    destruct (remainingApprovers (sort_by_step (approvers rule)) e).
    + reflexivity.
    + reflexivity.
Qed.

(** Where the rule's threshold is absent, or present and neither zero nor
    NaN, the percentage policy is the one of the specification: approved if
    and only if the percentage reaches the threshold, else the next undecided
    approver, else the rejection for insufficient approvals. *)
Lemma percentage_policy_with_truthy_threshold :
  forall (w : World) (req : ApprovalRequest) (e : Expense)
         (rule : ApprovalRule) (rest : list ApprovalRule),
    approves req e ->
    ApprovalRule_find w e = Returned (rule :: rest) ->
    approvalType rule = percentage ->
    (forall p, percentageRequired (approvalSettings rule) = Some p ->
               falsy_number p = false) ->
    exists e',
      put_approval w req (Some e) = (Success 200, Some e')
      /\ (status e' = approved
          <-> number_ge (approvalPercentage (approval_recorded w req e))
                        (specified_threshold (rule :: rest)) = true)
      /\ (number_ge (approvalPercentage (approval_recorded w req e))
                    (specified_threshold (rule :: rest)) = false ->
          match first_undecided (sort_by_step (approvers rule))
                                (approval_recorded w req e) with
          | Some next =>
              e' = set_currentApprover (Some (user next))
                     (approval_recorded w req e)
          | None =>
              status e' = rejected
              /\ rejectionReason e' = Some "Insufficient approvals"%string
          end).
Proof.
  intros w req e rule rest Happroves Hfind Htype Htruthy.
  rewrite (put_approval_approves w req e Happroves).
  destruct (resolve_workflow_recorded w req e) as [Hsame _].
  rewrite <- Hsame in Hfind.
  rewrite (processApprovalWorkflow_percentage w _ rule rest Hfind Htype).
  destruct Happroves as (_ & _ & _ & Hpending & _).
  assert (Hthreshold :
            number_or (percentageRequired (approvalSettings rule)) 100%float
            = specified_threshold (rule :: rest)).
  { unfold specified_threshold, number_or. simpl.
    destruct (percentageRequired (approvalSettings rule)) as [p |];
      [| reflexivity].
    now rewrite (Htruthy p eq_refl). }
  rewrite Hthreshold.
  eexists. split; [reflexivity |].
  destruct (number_ge (approvalPercentage (approval_recorded w req e))
              (specified_threshold (rule :: rest))).
  - simpl. split; [tauto | discriminate].
  - split.
    + split; [| discriminate].
      destruct (first_undecided _ _); simpl; rewrite ?Hpending; discriminate.
    + intros _. destruct (first_undecided _ _); simpl; auto.
Qed.

(** C5 at a threshold of 0: the code reads [percentageRequired || 100], so
    the threshold 0 that the rule provides counts as 100. With alice and bob
    as approvers and alice approving, the percentage is 50, which reaches the
    rule's threshold 0, but the expense is not approved: it stays pending and
    waits for bob. *)
Theorem zero_percent_threshold_is_read_as_hundred :
  exists e,
    life world_zero_percent (example_submission carol_without_manager)
         [Decide world_zero_percent (decision_by alice "approved" None)]
    = Some e
    /\ approvedBy e = [alice]
    /\ totalApprovers e = 2%Z
    /\ approvalPercentage e = 50%float
    /\ specified_threshold [zero_percent_rule] = 0%float
    /\ number_ge (approvalPercentage e)
                 (specified_threshold [zero_percent_rule]) = true
    /\ number_or (first_percentageRequired [zero_percent_rule]) 100%float
       = 100%float
    /\ status e = pending
    /\ currentApprover e = Some bob.
Proof.
  eexists. split; [vm_compute; reflexivity |].
  repeat split; reflexivity.
Qed.

(** ** Rule resolution *)

Section StableSortFacts.
Variable A : Type.
Variable later : A -> A -> bool.

Lemma insert_sorted_permutation (x : A) (l : list A) :
  Permutation (insert_sorted later x l) (x :: l).
Proof.
  induction l as [| y l IH]; simpl.
  - apply Permutation_refl.
  - destruct (later x y).
    + apply Permutation_trans with (y :: x :: l).
      * now apply perm_skip.
      * apply perm_swap.
    + apply Permutation_refl.
Qed.

Lemma stable_sort_permutation (l : list A) :
  Permutation (stable_sort later l) l.
Proof.
  induction l as [| x l IH]; simpl.
  - apply Permutation_refl.
  - apply Permutation_trans with (x :: stable_sort later l).
    + apply insert_sorted_permutation.
    + now apply perm_skip.
Qed.

Hypothesis later_asym :
  forall x y, later x y = true -> later y x = false.
Hypothesis not_later_trans :
  forall x y z, later x y = false -> later y z = false -> later x z = false.

Lemma insert_sorted_sorted (x : A) (l : list A) :
  StronglySorted (fun x y => later x y = false) l ->
  StronglySorted (fun x y => later x y = false) (insert_sorted later x l).
Proof.
  induction 1 as [| y l Hsorted IH Hfirst]; simpl.
  - repeat constructor.
  - destruct (later x y) eqn:Hxy.
    + constructor; [exact IH |].
      apply Forall_forall. intros z Hz.
      apply (Permutation_in _ (insert_sorted_permutation x l)) in Hz.
      destruct Hz as [<- | Hz].
      * now apply later_asym.
      * now apply (proj1 (Forall_forall _ _) Hfirst).
    + constructor; [now constructor |].
      constructor; [exact Hxy |].
      apply Forall_forall. intros z Hz.
      apply not_later_trans with y; [exact Hxy |].
      now apply (proj1 (Forall_forall _ _) Hfirst).
Qed.

Lemma stable_sort_sorted (l : list A) :
  StronglySorted (fun x y => later x y = false) (stable_sort later l).
Proof.
  induction l as [| x l IH]; simpl.
  - constructor.
  - now apply insert_sorted_sorted.
Qed.
End StableSortFacts.

Lemma threshold_compare_no_later (x y : option Q) :
  threshold_compare x y <> Lt <-> threshold_le y x.
Proof.
  destruct x as [a |], y as [b |]; simpl.
  - destruct (Qcompare_spec a b) as [Heq | Hlt | Hgt]; split; intros H;
      try congruence; try lra.
  - split; [trivial | discriminate].
  - split; [congruence | contradiction].
  - split; [trivial | discriminate].
Qed.

Lemma rule_later_false (a b : ApprovalRule) :
  rule_later a b = false <-> ranks_no_lower a b.
Proof.
  unfold rule_later, rule_compare, ranks_no_lower.
  destruct (Qcompare_spec (priority a) (priority b)) as [Heq | Hlt | Hgt].
  - pose proof (threshold_compare_no_later (amountThreshold a)
                  (amountThreshold b)) as Hthreshold.
    destruct (threshold_compare (amountThreshold a) (amountThreshold b)).
    + split; [intros _; right; split; [exact Heq | apply Hthreshold; discriminate]
             | reflexivity].
    + split; [discriminate |].
      intros [Hlt | [_ Hle]]; [lra |].
      apply Hthreshold in Hle. congruence.
    + split; [intros _; right; split; [exact Heq | apply Hthreshold; discriminate]
             | reflexivity].
  - split; [discriminate |]. intros [H | [H _]]; lra.
  - split; [intros _; now left | reflexivity].
Qed.

Lemma threshold_le_trans (x y z : option Q) :
  threshold_le x y -> threshold_le y z -> threshold_le x z.
Proof.
  destruct x as [a |], y as [b |], z as [c |]; simpl; try tauto.
  intros; lra.
Qed.

Lemma threshold_le_total (x y : option Q) :
  threshold_le x y \/ threshold_le y x.
Proof.
  destruct x as [a |], y as [b |]; simpl; try tauto.
  destruct (Qlt_le_dec a b); [left; lra | now right].
Qed.

Lemma ranks_no_lower_trans (a b c : ApprovalRule) :
  ranks_no_lower a b -> ranks_no_lower b c -> ranks_no_lower a c.
Proof.
  unfold ranks_no_lower.
  intros [Hab | [Hab Htab]] [Hbc | [Hbc Htbc]].
  - left. lra.
  - left. lra.
  - left. lra.
  - right. split; [lra |]. now apply threshold_le_trans with (amountThreshold b).
Qed.

Lemma ranks_no_lower_total (a b : ApprovalRule) :
  ranks_no_lower a b \/ ranks_no_lower b a.
Proof.
  unfold ranks_no_lower.
  destruct (Qcompare_spec (priority a) (priority b)) as [Heq | Hlt | Hgt].
  - destruct (threshold_le_total (amountThreshold a) (amountThreshold b)).
    + right. right. split; [lra | assumption].
    + left. right. split; assumption.
  - right. now left.
  - left. now left.
Qed.

Lemma rule_later_asym (a b : ApprovalRule) :
  rule_later a b = true -> rule_later b a = false.
Proof.
  intros Hab. apply rule_later_false.
  destruct (ranks_no_lower_total a b) as [H | H]; [| exact H].
  apply rule_later_false in H. congruence.
Qed.

Lemma not_rule_later_trans (a b c : ApprovalRule) :
  rule_later a b = false -> rule_later b c = false -> rule_later a c = false.
Proof.
  rewrite !rule_later_false. apply ranks_no_lower_trans.
Qed.

Lemma rule_applies_candidate (e : Expense) (docs : list ApprovalRule)
  (r : ApprovalRule) :
  In r (filter (rule_applies e) docs) <-> candidate e docs r.
Proof.
  rewrite filter_In. unfold candidate, rule_applies, same_id.
  rewrite !andb_true_iff, N.eqb_eq.
  destruct (amountThreshold r) as [t |].
  - rewrite Qle_bool_iff. split.
    + intros (Hin & (Hc & Ha) & Ht). repeat split; try assumption.
      right. exists t. now split.
    + intros (Hin & Hc & Ha & [Hnone | (t' & [= <-] & Ht)]);
        [discriminate |]. repeat split; assumption.
  - split.
    + intros (Hin & (Hc & Ha) & _). repeat split; try assumption. now left.
    + intros (Hin & Hc & Ha & _). repeat split; assumption.
Qed.

Lemma sorted_rules (l : list ApprovalRule) :
  StronglySorted ranks_no_lower (stable_sort rule_later l).
Proof.
  pose proof (stable_sort_sorted _ rule_later rule_later_asym
                not_rule_later_trans l) as Hsorted.
  induction Hsorted as [| a rest Hrest IH Hfirst]; constructor.
  - exact IH.
  - apply Forall_forall. intros r Hr. apply rule_later_false.
    now apply (proj1 (Forall_forall _ _) Hfirst).
Qed.

(** C6. Rule resolution for an expense considers exactly the rules of the
    expense's company that are active and whose threshold is absent or at
    most the amount in company currency, orders them by priority descending
    and then threshold descending, and both helpers take the first one. When
    no rule matches, the query returns the empty list without throwing and
    the helpers fall back to the default policy. *)
Theorem rule_resolution_takes_the_first_candidate :
  forall (w : World) (e : Expense) (docs : list ApprovalRule),
    approvalRules w = Returned docs ->
    exists rules,
      ApprovalRule_find w e = Returned rules
      /\ (forall r, In r rules <-> candidate e docs r)
      /\ Permutation rules (filter (rule_applies e) docs)
      /\ StronglySorted ranks_no_lower rules
      /\ match rules with
         | first :: _ =>
             candidate e docs first
             /\ (forall r, candidate e docs r -> ranks_no_lower first r)
             /\ resolve_workflow w e
                = Returned {| wf_rules := rules;
                              wf_approvers := sort_by_step (approvers first);
                              wf_approvalType := approvalType first |}
         | [] =>
             (forall r, ~ candidate e docs r)
             /\ resolve_workflow w e
                = match default_approvers w e with
                  | Returned l =>
                      Returned {| wf_rules := []; wf_approvers := l;
                                  wf_approvalType := sequential |}
                  | Thrown => Thrown
                  end
         end.
Proof.
  intros w e docs Hdocs.
  assert (Hfind : ApprovalRule_find w e
                  = Returned (stable_sort rule_later
                                (filter (rule_applies e) docs))).
  { unfold ApprovalRule_find. now rewrite Hdocs. }
  pose proof (stable_sort_permutation _ rule_later
                (filter (rule_applies e) docs)) as Hperm.
  pose proof (sorted_rules (filter (rule_applies e) docs)) as Hsorted.
  assert (Hexact : forall r,
            In r (stable_sort rule_later (filter (rule_applies e) docs))
            <-> candidate e docs r).
  { intros r. rewrite <- rule_applies_candidate. split.
    - apply Permutation_in. exact Hperm.
    - apply Permutation_in. now apply Permutation_sym. }
  unfold resolve_workflow. rewrite Hfind.
  exists (stable_sort rule_later (filter (rule_applies e) docs)).
  split; [reflexivity |].
  split; [exact Hexact |].
  split; [exact Hperm |].
  split; [exact Hsorted |].
  destruct (stable_sort rule_later (filter (rule_applies e) docs))
    as [| first rest].
  - split; [| reflexivity].
    intros r Hr. apply Hexact in Hr. destruct Hr.
  - split; [apply Hexact; now left |].
    split; [| reflexivity].
    intros r Hr. apply Hexact in Hr. destruct Hr as [<- | Hr].
    + destruct (ranks_no_lower_total first first); assumption.
    + inversion Hsorted as [| x l _ Hfirst]; subst.
      now apply (proj1 (Forall_forall _ _) Hfirst).
Qed.

Lemma rule_resolution_takes_the_first_candidate_witness :
  approvalRules world_ranked = Returned ranked_rules
  /\ exists rules,
       ApprovalRule_find world_ranked (example_expense (Some alice) [] [] 2)
       = Returned rules
       /\ rules = [ranked_rule 5 (Some 200%Q) true percentage;
                   ranked_rule 5 (Some 100%Q) true parallel;
                   ranked_rule 1 (Some 0%Q) true sequential]
       /\ StronglySorted ranks_no_lower rules.
Proof.
  split; [reflexivity |].
  destruct (rule_resolution_takes_the_first_candidate
              world_ranked (example_expense (Some alice) [] [] 2)
              ranked_rules eq_refl)
    as [rules (Hfind & _ & _ & Hsorted & _)].
  exists rules. split; [exact Hfind |]. split; [| exact Hsorted].
  assert (Hrun : ApprovalRule_find world_ranked
                   (example_expense (Some alice) [] [] 2)
                 = Returned [ranked_rule 5 (Some 200%Q) true percentage;
                             ranked_rule 5 (Some 100%Q) true parallel;
                             ranked_rule 1 (Some 0%Q) true sequential]).
  { vm_compute. reflexivity. }
  rewrite Hrun in Hfind. now injection Hfind as <-.
Defined.

(** * Further properties of the routes *)

(** ** Floating-point comparison *)

Lemma pos_compare_cont_le_trans (a b c : positive) :
  Pos.compare_cont Eq a b <> Gt -> Pos.compare_cont Eq b c <> Gt ->
  Pos.compare_cont Eq a c <> Gt.
Proof.
  change (Pos.compare_cont Eq a b) with (a ?= b)%positive.
  change (Pos.compare_cont Eq b c) with (b ?= c)%positive.
  change (Pos.compare_cont Eq a c) with (a ?= c)%positive.
  rewrite !Pos.compare_le_iff. lia.
Qed.

Lemma pos_compare_cont_ge_trans (a b c : positive) :
  Pos.compare_cont Eq a b <> Lt -> Pos.compare_cont Eq b c <> Lt ->
  Pos.compare_cont Eq a c <> Lt.
Proof.
  change (Pos.compare_cont Eq a b) with (a ?= b)%positive.
  change (Pos.compare_cont Eq b c) with (b ?= c)%positive.
  change (Pos.compare_cont Eq a c) with (a ?= c)%positive.
  rewrite !Pos.compare_ge_iff. lia.
Qed.

(** The order of the floats is transitive; a comparison with NaN is
    false. *)
Lemma SFleb_trans (a b c : SpecFloat.spec_float) :
  SpecFloat.SFleb a b = true -> SpecFloat.SFleb b c = true ->
  SpecFloat.SFleb a c = true.
Proof.
  unfold SpecFloat.SFleb, SpecFloat.SFcompare.
  destruct a as [sa | sa | | sa ma ea]; destruct b as [sb | sb | | sb mb eb];
    destruct c as [sc | sc | | sc mc ec];
    try destruct sa; try destruct sb; try destruct sc;
    try reflexivity; try discriminate.
  - (* three negative numbers *)
    destruct (Z.compare_spec ea eb) as [Hab | Hab | Hab];
      destruct (Z.compare_spec eb ec) as [Hbc | Hbc | Hbc];
      destruct (Z.compare_spec ea ec) as [Hac | Hac | Hac];
      try lia; try reflexivity; try discriminate.
    subst. intros Hab Hbc.
    pose proof (pos_compare_cont_ge_trans ma mb mc) as Htrans.
    destruct (Pos.compare_cont Eq ma mb); try discriminate;
      destruct (Pos.compare_cont Eq mb mc); try discriminate;
      destruct (Pos.compare_cont Eq ma mc); try reflexivity;
      exfalso; apply Htrans; congruence.
  - (* three positive numbers *)
    destruct (Z.compare_spec ea eb) as [Hab | Hab | Hab];
      destruct (Z.compare_spec eb ec) as [Hbc | Hbc | Hbc];
      destruct (Z.compare_spec ea ec) as [Hac | Hac | Hac];
      try lia; try reflexivity; try discriminate.
    subst. intros Hab Hbc.
    pose proof (pos_compare_cont_le_trans ma mb mc) as Htrans.
    destruct (Pos.compare_cont Eq ma mb); try discriminate;
      destruct (Pos.compare_cont Eq mb mc); try discriminate;
      destruct (Pos.compare_cont Eq ma mc); try reflexivity;
      exfalso; apply Htrans; congruence.
Qed.

Lemma number_ge_trans (x y z : float) :
  number_ge x y = true -> number_ge y z = true -> number_ge x z = true.
Proof.
  unfold number_ge. rewrite !FloatAxioms.leb_spec.
  intros Hxy Hyz. eapply SFleb_trans; eassumption.
Qed.

(** ** The policies of the decision processor *)

Lemma processApprovalWorkflow_sequential (w : World) (e : Expense)
  (rule : ApprovalRule) (rest : list ApprovalRule) :
  ApprovalRule_find w e = Returned (rule :: rest) ->
  approvalType rule = sequential ->
  processApprovalWorkflow w e
  = if (len (sort_by_step (approvers rule)) <=? approvalStep e)%Z
    then mark_approved w e
    else match at_index (sort_by_step (approvers rule)) (approvalStep e) with
         | Some next =>
             set_currentApprover (Some (user next))
               (set_approvalStep (approvalStep e + 1) e)
         | None => set_approvalStep (approvalStep e + 1) e
         end.
Proof.
  intros Hfind Htype.
  unfold processApprovalWorkflow, resolve_workflow. rewrite Hfind.
  unfold approval_switch.
  cbn [wf_approvers wf_rules wf_approvalType]. rewrite Htype.
  destruct (Z.leb_spec (len (sort_by_step (approvers rule)))
                       (approvalStep e)) as [Hlast | Hmore].
  - reflexivity.
  - replace (approvalStep (set_approvalStep (approvalStep e + 1) e) - 1)%Z
      with (approvalStep e) by (simpl; lia).
    destruct (at_index (sort_by_step (approvers rule)) (approvalStep e))
      as [next |]; [| reflexivity].
    cbn [is_sequential andb].
    replace (approvalStep
               (set_currentApprover (Some (user next))
                  (set_approvalStep (approvalStep e + 1) e))
             <=? len (sort_by_step (approvers rule)))%Z
      with true by (symmetry; apply Z.leb_le; simpl; lia).
    reflexivity.
Qed.

Lemma at_index_in_range {A : Type} (l : list A) (i : Z) :
  (0 <= i < len l)%Z -> exists a, at_index l i = Some a
                                  /\ nth_error l (Z.to_nat i) = Some a.
Proof.
  intros [Hlow Hhigh]. unfold at_index, len in *.
  replace (i <? 0)%Z with false by (symmetry; apply Z.ltb_ge; lia).
  destruct (nth_error l (Z.to_nat i)) as [a |] eqn:Hnth.
  - now exists a.
  - apply nth_error_None in Hnth. lia.
Qed.

(** Under the sequential type an approval by the current approver closes the
    expense as approved when the step counter has reached the number of
    approvers; otherwise the counter grows by one and the approver at the old
    counter's position of the step-sorted list (the list is 0-based, the
    counter 1-based) becomes the current approver, and the expense stays
    pending. Nobody is skipped and [approvedBy] is not consulted. *)
Theorem sequential_policy_advances_one_step :
  forall (w : World) (req : ApprovalRequest) (e : Expense)
         (rule : ApprovalRule) (rest : list ApprovalRule),
    approves req e ->
    ApprovalRule_find w e = Returned (rule :: rest) ->
    approvalType rule = sequential ->
    (0 <= approvalStep e)%Z ->
    exists e',
      put_approval w req (Some e) = (Success 200, Some e')
      /\ ((len (sort_by_step (approvers rule)) <= approvalStep e)%Z ->
          e' = mark_approved w (approval_recorded w req e))
      /\ ((approvalStep e < len (sort_by_step (approvers rule)))%Z ->
          exists next,
            nth_error (sort_by_step (approvers rule))
                      (Z.to_nat (approvalStep e)) = Some next
            /\ e' = set_currentApprover (Some (user next))
                      (set_approvalStep (approvalStep e + 1)
                         (approval_recorded w req e))
            /\ status e' = pending).
Proof.
  intros w req e rule rest Happroves Hfind Htype Hstep.
  rewrite (put_approval_approves w req e Happroves).
  destruct (resolve_workflow_recorded w req e) as [Hsame _].
  rewrite <- Hsame in Hfind.
  rewrite (processApprovalWorkflow_sequential w _ rule rest Hfind Htype).
  destruct Happroves as (_ & _ & _ & Hpending & _).
  change (approvalStep (approval_recorded w req e)) with (approvalStep e).
  eexists. split; [reflexivity |].
  destruct (Z.leb_spec (len (sort_by_step (approvers rule)))
                       (approvalStep e)) as [Hlast | Hmore].
  - split; [reflexivity | lia].
  - split; [lia |]. intros _.
    destruct (at_index_in_range (sort_by_step (approvers rule))
                (approvalStep e) (conj Hstep Hmore)) as [next [Hat Hnth]].
    exists next. rewrite Hat. repeat split; [exact Hnth | exact Hpending].
Qed.

Lemma sequential_policy_advances_one_step_witness :
  approves (approval_of manager_alice) (example_expense (Some alice) [] [] 2)
  /\ exists e',
       put_approval world_alice_then_bob (approval_of manager_alice)
         (Some (example_expense (Some alice) [] [] 2))
       = (Success 200, Some e')
       /\ currentApprover e' = Some bob
       /\ approvalStep e' = 2%Z.
Proof.
  assert (H : approves (approval_of manager_alice)
                       (example_expense (Some alice) [] [] 2)).
  { repeat split; reflexivity. }
  split; [exact H |].
  destruct (sequential_policy_advances_one_step
              world_alice_then_bob _ _
              (example_rule sequential
                 [approver_at alice 1; approver_at bob 2] None) [] H
              eq_refl eq_refl)
    as [e' (Hrun & _ & Hmore)].
  { simpl. lia. }
  exists e'. split; [exact Hrun |].
  destruct Hmore as [next (Hnth & -> & _)].
  { vm_compute. reflexivity. }
  vm_compute in Hnth. injection Hnth as <-. split; reflexivity.
Defined.

Lemma processApprovalWorkflow_required (w : World) (e : Expense)
  (rule : ApprovalRule) (rest : list ApprovalRule) :
  ApprovalRule_find w e = Returned (rule :: rest) ->
  (approvalType rule = parallel
   \/ exists name, approvalType rule = unknown_type name) ->
  processApprovalWorkflow w e
  = if (len (requiredApprovers (sort_by_step (approvers rule)))
        <=? approvedRequiredCount (sort_by_step (approvers rule)) e)%Z
    then mark_approved w e
    else match first_undecided (sort_by_step (approvers rule)) e with
         | Some next => set_currentApprover (Some (user next)) e
         | None => e
         end.
Proof.
  intros Hfind Htype.
  unfold processApprovalWorkflow, resolve_workflow. rewrite Hfind.
  unfold approval_switch.
  cbn [wf_approvers wf_rules wf_approvalType].
  rewrite remaining_first_undecided.
  destruct Htype as [Htype | [name Htype]]; rewrite Htype; cbn;
    destruct (len (requiredApprovers (sort_by_step (approvers rule)))
              <=? approvedRequiredCount (sort_by_step (approvers rule)) e)%Z;
    try reflexivity;
    destruct (remainingApprovers (sort_by_step (approvers rule)) e);
    reflexivity.
Qed.

(** An approval type outside the five known ones is processed exactly as
    [parallel]: two worlds that select rules with the same approvers, one of
    an unknown type and one parallel, leave the expense in the same state. *)
Theorem unknown_type_is_processed_as_parallel :
  forall (w w' : World) (e : Expense) (rule rule' : ApprovalRule)
         (rest rest' : list ApprovalRule) (name : string),
    ApprovalRule_find w e = Returned (rule :: rest) ->
    ApprovalRule_find w' e = Returned (rule' :: rest') ->
    approvalType rule = unknown_type name ->
    approvalType rule' = parallel ->
    approvers rule = approvers rule' ->
    now w = now w' ->
    processApprovalWorkflow w e = processApprovalWorkflow w' e.
Proof.
  intros w w' e rule rule' rest rest' name Hfind Hfind' Htype Htype'
    Happrovers Hnow.
  rewrite (processApprovalWorkflow_required w e rule rest Hfind
             (or_intror (ex_intro _ name Htype))).
  rewrite (processApprovalWorkflow_required w' e rule' rest' Hfind'
             (or_introl Htype')).
  rewrite Happrovers. unfold mark_approved. now rewrite Hnow.
Qed.

Lemma unknown_type_is_processed_as_parallel_witness :
  processApprovalWorkflow
    (world_with_rule (example_rule (unknown_type "committee") alice_and_bob None))
    (example_expense (Some alice) [alice] [] 2)
  = processApprovalWorkflow world_parallel
      (example_expense (Some alice) [alice] [] 2).
Proof.
  apply (unknown_type_is_processed_as_parallel
           (world_with_rule
              (example_rule (unknown_type "committee") alice_and_bob None))
           world_parallel
           (example_expense (Some alice) [alice] [] 2)
           (example_rule (unknown_type "committee") alice_and_bob None)
           (example_rule parallel alice_and_bob None)
           [] [] "committee");
    reflexivity.
Defined.

Lemma processApprovalWorkflow_specific (w : World) (e : Expense)
  (rule : ApprovalRule) (rest : list ApprovalRule) :
  ApprovalRule_find w e = Returned (rule :: rest) ->
  approvalType rule = specific_approver ->
  processApprovalWorkflow w e
  = if approved_by_specific e
         (specificApproverCanApprove (approvalSettings rule))
    then mark_approved w e
    else match first_undecided (sort_by_step (approvers rule)) e with
         | Some next => set_currentApprover (Some (user next)) e
         | None => e
         end.
Proof.
  intros Hfind Htype.
  unfold processApprovalWorkflow, resolve_workflow. rewrite Hfind.
  unfold approval_switch.
  cbn [wf_approvers wf_rules wf_approvalType first_specificApprover].
  rewrite Htype. rewrite remaining_first_undecided.
  cbn [is_sequential percentage_or_hybrid andb].
  destruct (approved_by_specific e
              (specificApproverCanApprove (approvalSettings rule)));
    [reflexivity |].
  destruct (remainingApprovers (sort_by_step (approvers rule)) e);
    reflexivity.
Qed.

(** Under the specific-approver type an approval closes the expense as
    approved exactly when the approver named by the rule is then in
    [approvedBy], however few of the listed approvers have approved; a rule
    that names nobody never approves. Otherwise the first undecided approver
    of the step-sorted list becomes current, and when none is left the
    expense stays pending as it is: it is never rejected here. *)
Theorem specific_approver_policy :
  forall (w : World) (req : ApprovalRequest) (e : Expense)
         (rule : ApprovalRule) (rest : list ApprovalRule),
    approves req e ->
    ApprovalRule_find w e = Returned (rule :: rest) ->
    approvalType rule = specific_approver ->
    exists e',
      put_approval w req (Some e) = (Success 200, Some e')
      /\ (status e' = approved
          <-> exists named,
                specificApproverCanApprove (approvalSettings rule) = Some named
                /\ In named (approvedBy e ++ [_id (req_user req)]))
      /\ (status e' = approved ->
          e' = mark_approved w (approval_recorded w req e))
      /\ (status e' <> approved ->
          match first_undecided (sort_by_step (approvers rule))
                                (approval_recorded w req e) with
          | Some next =>
              e' = set_currentApprover (Some (user next))
                     (approval_recorded w req e)
          | None => e' = approval_recorded w req e
          end)
      /\ status e' <> rejected.
Proof.
  intros w req e rule rest Happroves Hfind Htype.
  rewrite (put_approval_approves w req e Happroves).
  destruct (resolve_workflow_recorded w req e) as [Hsame _].
  rewrite <- Hsame in Hfind.
  rewrite (processApprovalWorkflow_specific w _ rule rest Hfind Htype).
  destruct Happroves as (_ & _ & _ & Hpending & _).
  eexists. split; [reflexivity |].
  assert (Hnamed : approved_by_specific (approval_recorded w req e)
                     (specificApproverCanApprove (approvalSettings rule))
                   = true
                   <-> exists named,
                         specificApproverCanApprove (approvalSettings rule)
                         = Some named
                         /\ In named (approvedBy e ++ [_id (req_user req)])).
  { unfold approved_by_specific.
    destruct (specificApproverCanApprove (approvalSettings rule)) as [s |].
    - rewrite mentions_true. simpl. split.
      + intros Hin. now exists s.
      + now intros [named [[= <-] Hin]].
    - split; [discriminate | intros [named [Hnone _]]; discriminate]. }
  destruct (approved_by_specific (approval_recorded w req e)
              (specificApproverCanApprove (approvalSettings rule))).
  - simpl. repeat split; try reflexivity; try discriminate.
    + intros _. now apply Hnamed.
    + intros Hnot. now contradiction Hnot.
  - assert (Hstill :
              status (match first_undecided (sort_by_step (approvers rule))
                              (approval_recorded w req e) with
                      | Some next =>
                          set_currentApprover (Some (user next))
                            (approval_recorded w req e)
                      | None => approval_recorded w req e
                      end) = pending).
    { destruct (first_undecided _ _); simpl; exact Hpending. }
    repeat split.
    + intros Happroved. rewrite Hstill in Happroved. discriminate.
    + intros Hex. apply Hnamed in Hex. discriminate.
    + intros Happroved. rewrite Hstill in Happroved. discriminate.
    + intros _. destruct (first_undecided _ _); reflexivity.
    + rewrite Hstill. discriminate.
Qed.

Lemma specific_approver_policy_witness :
  approves (approval_of manager_bob) (example_expense (Some bob) [] [] 5)
  /\ exists e',
       put_approval
         (world_with_rule
            (rule_with_settings specific_approver alice_and_bob None (Some bob)))
         (approval_of manager_bob)
         (Some (example_expense (Some bob) [] [] 5))
       = (Success 200, Some e')
       /\ status e' = approved.
Proof.
  assert (H : approves (approval_of manager_bob)
                       (example_expense (Some bob) [] [] 5)).
  { repeat split; reflexivity. }
  split; [exact H |].
  destruct (specific_approver_policy
              (world_with_rule
                 (rule_with_settings specific_approver alice_and_bob None
                    (Some bob)))
              _ _
              (rule_with_settings specific_approver alice_and_bob None
                 (Some bob))
              [] H eq_refl eq_refl)
    as [e' (Hrun & Hiff & _)].
  exists e'. split; [exact Hrun |].
  apply Hiff. exists bob. split; [reflexivity | simpl; now left].
Defined.

Lemma processApprovalWorkflow_hybrid (w : World) (e : Expense)
  (rule : ApprovalRule) (rest : list ApprovalRule) :
  ApprovalRule_find w e = Returned (rule :: rest) ->
  approvalType rule = hybrid ->
  processApprovalWorkflow w e
  = if number_ge (approvalPercentage e)
         (number_or (percentageRequired (approvalSettings rule)) 60%float)
       || approved_by_specific e
            (specificApproverCanApprove (approvalSettings rule))
    then mark_approved w e
    else match first_undecided (sort_by_step (approvers rule)) e with
         | Some next => set_currentApprover (Some (user next)) e
         | None =>
             if number_ge (approvalPercentage e)
                  (number_or (percentageRequired (approvalSettings rule))
                             100%float)
             then mark_approved w e
             else mark_insufficient w e
         end.
Proof.
  intros Hfind Htype.
  unfold processApprovalWorkflow, resolve_workflow. rewrite Hfind.
  unfold approval_switch.
  cbn [wf_approvers wf_rules wf_approvalType first_specificApprover
       first_percentageRequired].
  rewrite Htype. rewrite remaining_first_undecided.
  cbn [is_sequential percentage_or_hybrid andb].
  destruct (number_ge (approvalPercentage e)
              (number_or (percentageRequired (approvalSettings rule))
                         60%float)
            || approved_by_specific e
                 (specificApproverCanApprove (approvalSettings rule)));
    [reflexivity |].
  destruct (remainingApprovers (sort_by_step (approvers rule)) e);
    reflexivity.
Qed.

(** The threshold of the second comparison of the hybrid type is never below
    the one of the first: a percentage that misses the first misses the
    second. *)
Lemma hybrid_final_threshold (p : option float) (x : float) :
  number_ge x (number_or p 60%float) = false ->
  number_ge x (number_or p 100%float) = false.
Proof.
  unfold number_or. destruct p as [v |].
  - destruct (falsy_number v); [| trivial].
    intros Hmiss. destruct (number_ge x 100%float) eqn:Hge; [| reflexivity].
    rewrite (number_ge_trans x 100%float 60%float Hge eq_refl) in Hmiss.
    discriminate.
  - intros Hmiss. destruct (number_ge x 100%float) eqn:Hge; [| reflexivity].
    rewrite (number_ge_trans x 100%float 60%float Hge eq_refl) in Hmiss.
    discriminate.
Qed.

(** Under the hybrid type an approval closes the expense as approved exactly
    when the percentage of approvals reaches the rule's threshold (60 when
    the rule has none, or has 0) or the approver named by the rule is in
    [approvedBy]. Otherwise the first undecided approver becomes current,
    and when none is left the expense is rejected for insufficient
    approvals: the second comparison, against a default of 100, can never
    succeed where the first has failed. *)
Theorem hybrid_policy :
  forall (w : World) (req : ApprovalRequest) (e : Expense)
         (rule : ApprovalRule) (rest : list ApprovalRule),
    approves req e ->
    ApprovalRule_find w e = Returned (rule :: rest) ->
    approvalType rule = hybrid ->
    exists e',
      put_approval w req (Some e) = (Success 200, Some e')
      /\ (status e' = approved
          <-> (number_ge (approvalPercentage (approval_recorded w req e))
                 (number_or (percentageRequired (approvalSettings rule))
                            60%float) = true
               \/ exists named,
                    specificApproverCanApprove (approvalSettings rule)
                    = Some named
                    /\ In named (approvedBy e ++ [_id (req_user req)])))
      /\ (status e' <> approved ->
          match first_undecided (sort_by_step (approvers rule))
                                (approval_recorded w req e) with
          | Some next =>
              e' = set_currentApprover (Some (user next))
                     (approval_recorded w req e)
          | None =>
              e' = mark_insufficient w (approval_recorded w req e)
          end).
Proof.
  intros w req e rule rest Happroves Hfind Htype.
  rewrite (put_approval_approves w req e Happroves).
  destruct (resolve_workflow_recorded w req e) as [Hsame _].
  rewrite <- Hsame in Hfind.
  rewrite (processApprovalWorkflow_hybrid w _ rule rest Hfind Htype).
  destruct Happroves as (_ & _ & _ & Hpending & _).
  eexists. split; [reflexivity |].
  assert (Hnamed : approved_by_specific (approval_recorded w req e)
                     (specificApproverCanApprove (approvalSettings rule))
                   = true
                   <-> exists named,
                         specificApproverCanApprove (approvalSettings rule)
                         = Some named
                         /\ In named (approvedBy e ++ [_id (req_user req)])).
  { unfold approved_by_specific.
    destruct (specificApproverCanApprove (approvalSettings rule)) as [s |].
    - rewrite mentions_true. simpl. split.
      + intros Hin. now exists s.
      + now intros [named [[= <-] Hin]].
    - split; [discriminate | intros [named [Hnone _]]; discriminate]. }
  destruct (number_ge (approvalPercentage (approval_recorded w req e))
              (number_or (percentageRequired (approvalSettings rule))
                         60%float)) eqn:Hfirst.
  - simpl. split; [split; [intros _; now left | reflexivity] |].
    intros Hnot. now contradiction Hnot.
  - rewrite (hybrid_final_threshold _ _ Hfirst).
    destruct (approved_by_specific (approval_recorded w req e)
                (specificApproverCanApprove (approvalSettings rule))).
    + simpl. split; [split; [intros _; right; now apply Hnamed | reflexivity] |].
      intros Hnot. now contradiction Hnot.
    + cbn [orb].
      assert (Hopen :
                status (match first_undecided (sort_by_step (approvers rule))
                                (approval_recorded w req e) with
                        | Some next =>
                            set_currentApprover (Some (user next))
                              (approval_recorded w req e)
                        | None =>
                            mark_insufficient w (approval_recorded w req e)
                        end) <> approved).
      { destruct (first_undecided _ _); simpl; [rewrite Hpending |];
          discriminate. }
      split.
      * split; [intros Happroved; contradiction |].
        intros [Hge | Hex]; [discriminate |].
        apply Hnamed in Hex. discriminate.
      * intros _. destruct (first_undecided _ _); reflexivity.
Qed.

Lemma hybrid_policy_witness :
  approves (approval_of manager_bob) (example_expense (Some bob) [alice] [] 3)
  /\ exists e',
       put_approval
         (world_with_rule
            (rule_with_settings hybrid
               [approver_at alice 1; approver_at bob 2; approver_at dave 3]
               None None))
         (approval_of manager_bob)
         (Some (example_expense (Some bob) [alice] [] 3))
       = (Success 200, Some e')
       /\ status e' = approved.
Proof.
  assert (H : approves (approval_of manager_bob)
                       (example_expense (Some bob) [alice] [] 3)).
  { repeat split; reflexivity. }
  split; [repeat split; reflexivity |].
  destruct (hybrid_policy
              (world_with_rule
                 (rule_with_settings hybrid
                    [approver_at alice 1; approver_at bob 2;
                     approver_at dave 3]
                    None None))
              _ _
              (rule_with_settings hybrid
                 [approver_at alice 1; approver_at bob 2; approver_at dave 3]
                 None None)
              [] H eq_refl eq_refl)
    as [e' (Hrun & Hiff & _)].
  exists e'. split; [exact Hrun |].
  apply Hiff. left. vm_compute. reflexivity.
Defined.

(** ** Initialization under a rule *)

Lemma sort_by_step_permutation (l : list Approver) :
  Permutation (sort_by_step l) l.
Proof. apply stable_sort_permutation. Qed.

Lemma sort_by_step_sorted (l : list Approver) :
  StronglySorted (fun a b => (step a <= step b)%Z) (sort_by_step l).
Proof.
  assert (Hsorted : StronglySorted (fun a b => step_later a b = false)
                      (sort_by_step l)).
  { apply stable_sort_sorted; unfold step_later; intros; lia. }
  induction Hsorted as [| a rest Hrest IH Hfirst]; constructor.
  - exact IH.
  - apply Forall_forall. intros b Hb.
    pose proof (proj1 (Forall_forall _ _) Hfirst b Hb) as Hle.
    unfold step_later in Hle. lia.
Qed.

Lemma len_sort_by_step (l : list Approver) :
  len (sort_by_step l) = len l.
Proof.
  unfold len. f_equal. apply Permutation_length, sort_by_step_permutation.
Qed.

(** Initialization under a matching rule counts the rule's approvers, empties
    both decision lists and the history, and makes an approver of the lowest
    step the current approver at step 1, leaving the status alone. A rule
    without approvers approves the expense at once; the current approver the
    expense had is then left in place. *)
Theorem initialization_under_a_rule :
  forall (w : World) (e : Expense) (rule : ApprovalRule)
         (rest : list ApprovalRule),
    ApprovalRule_find w e = Returned (rule :: rest) ->
    totalApprovers (determineApprovalWorkflow w e) = len (approvers rule)
    /\ approvedBy (determineApprovalWorkflow w e) = []
    /\ rejectedBy (determineApprovalWorkflow w e) = []
    /\ approvalHistory (determineApprovalWorkflow w e) = []
    /\ (approvers rule = [] ->
        status (determineApprovalWorkflow w e) = approved
        /\ finalApprovalDate (determineApprovalWorkflow w e) = Some (now w)
        /\ approvalStep (determineApprovalWorkflow w e) = 0%Z
        /\ currentApprover (determineApprovalWorkflow w e)
           = currentApprover e)
    /\ (approvers rule <> [] ->
        exists first,
          In first (approvers rule)
          /\ (forall a, In a (approvers rule) -> (step first <= step a)%Z)
          /\ currentApprover (determineApprovalWorkflow w e)
             = Some (user first)
          /\ approvalStep (determineApprovalWorkflow w e) = 1%Z
          /\ status (determineApprovalWorkflow w e) = status e
          /\ finalApprovalDate (determineApprovalWorkflow w e)
             = finalApprovalDate e).
Proof.
  intros w e rule rest Hfind.
  unfold determineApprovalWorkflow, resolve_workflow. rewrite Hfind.
  cbn [wf_approvers].
  pose proof (sort_by_step_permutation (approvers rule)) as Hperm.
  pose proof (sort_by_step_sorted (approvers rule)) as Hsorted.
  pose proof (len_sort_by_step (approvers rule)) as Hlen.
  destruct (sort_by_step (approvers rule)) as [| first sorted].
  - apply Permutation_nil in Hperm.
    simpl. rewrite Hperm.
    split; [reflexivity |].
    split; [reflexivity |]. split; [reflexivity |]. split; [reflexivity |].
    split; [intros _; repeat split; reflexivity |].
    intros Hnonempty. now contradiction Hnonempty.
  - simpl. split; [exact Hlen |].
    split; [reflexivity |]. split; [reflexivity |]. split; [reflexivity |].
    split.
    + intros Hempty. rewrite Hempty in Hperm.
      apply Permutation_sym, Permutation_nil in Hperm. discriminate.
    + intros _. exists first.
      split; [apply (Permutation_in _ Hperm); now left |].
      split; [| repeat split; reflexivity].
      intros a Ha.
      apply (Permutation_in _ (Permutation_sym Hperm)) in Ha.
      destruct Ha as [<- | Ha]; [lia |].
      inversion Hsorted as [| x l _ Hfirst]; subst.
      now apply (proj1 (Forall_forall _ _) Hfirst).
Qed.

Lemma initialization_under_a_rule_witness :
  ApprovalRule_find world_bob_then_alice
    (Expense_create (example_submission carol_without_manager) (500%Q, 1%Q))
  = Returned [example_rule sequential
                [approver_at bob 1; approver_at alice 2] None]
  /\ totalApprovers
       (determineApprovalWorkflow world_bob_then_alice
          (Expense_create (example_submission carol_without_manager)
                          (500%Q, 1%Q))) = 2%Z
  /\ approvedBy
       (determineApprovalWorkflow world_bob_then_alice
          (Expense_create (example_submission carol_without_manager)
                          (500%Q, 1%Q))) = [].
Proof.
  split; [reflexivity |].
  destruct (initialization_under_a_rule
              world_bob_then_alice
              (Expense_create (example_submission carol_without_manager)
                              (500%Q, 1%Q))
              (example_rule sequential
                 [approver_at bob 1; approver_at alice 2] None)
              [] eq_refl)
    as (Htotal & Hyes & _).
  split; [exact Htotal | exact Hyes].
Defined.

(** ** A whole sequential workflow *)

Lemma at_index_middle {A : Type} (done todo : list A) (a : A) :
  at_index (done ++ a :: todo) (len done) = Some a.
Proof.
  unfold at_index, len.
  replace (Z.of_nat (List.length done) <? 0)%Z with false
    by (symmetry; apply Z.ltb_ge; lia).
  rewrite Nat2Z.id, nth_error_app2 by lia.
  now rewrite Nat.sub_diag.
Qed.

Lemma len_app_one {A : Type} (l : list A) (a : A) :
  len (l ++ [a]) = (len l + 1)%Z.
Proof. unfold len. rewrite length_app. simpl. lia. Qed.

Lemma len_app_cons {A : Type} (l m : list A) (a : A) :
  len (l ++ a :: m) = (len l + 1 + len m)%Z.
Proof. unfold len. rewrite length_app. simpl. lia. Qed.

Lemma approval_of_approves (u : User) (e : Expense) :
  canApprove u = true ->
  currentApprover e = Some (_id u) ->
  status e = pending ->
  approves (approval_of u) e.
Proof. intros Hcan Hcur Hpending. repeat split; assumption. Qed.

Lemma sequential_run_from (w : World) (rule : ApprovalRule)
  (rest : list ApprovalRule) :
  approvalType rule = sequential ->
  forall (us : list User) (done todo : list Approver) (e : Expense),
    us <> [] ->
    sort_by_step (approvers rule) = done ++ todo ->
    map _id us = map user todo ->
    Forall (fun u => canApprove u = true) us ->
    ApprovalRule_find w e = Returned (rule :: rest) ->
    status e = pending ->
    approvalStep e = (len done + 1)%Z ->
    currentApprover e = option_map user (hd_error todo) ->
    exists e',
      fold_left perform (approvals_in w us) (Some e) = Some e'
      /\ status e' = approved
      /\ currentApprover e' = None
      /\ finalApprovalDate e' = Some (now w)
      /\ approvedBy e' = approvedBy e ++ map _id us
      /\ rejectedBy e' = rejectedBy e
      /\ map approver (approvalHistory e')
         = map approver (approvalHistory e) ++ map _id us
      /\ map entry_step (approvalHistory e')
         = map entry_step (approvalHistory e)
           ++ steps_from (approvalStep e) (List.length us).
Proof.
  intros Htype.
  induction us as [| u us IH]; intros done todo e Hne Hsorted Hids Hcan
    Hfind Hpending Hstep Hcurrent; [now contradiction Hne |].
  destruct todo as [| a todo]; [discriminate |].
  simpl in Hids. injection Hids as Hid Hids.
  simpl in Hcurrent. rewrite <- Hid in Hcurrent.
  inversion Hcan as [| u' us' Hcanu Hcanus]; subst u' us'.
  pose proof (approval_of_approves u e Hcanu Hcurrent Hpending) as Happroves.
  destruct (resolve_workflow_recorded w (approval_of u) e) as [Hsame _].
  assert (Hfind' : ApprovalRule_find w (approval_recorded w (approval_of u) e)
                   = Returned (rule :: rest)) by now rewrite Hsame.
  cbn [approvals_in map fold_left perform].
  rewrite (put_approval_approves w (approval_of u) e Happroves).
  cbn [snd].
  rewrite (processApprovalWorkflow_sequential w _ rule rest Hfind' Htype).
  change (approvalStep (approval_recorded w (approval_of u) e))
    with (approvalStep e).
  rewrite Hsorted, Hstep.
  destruct todo as [| b todo].
  - (* the last approver *)
    destruct us as [| u2 us]; [| discriminate].
    replace (len (done ++ [a]) <=? len done + 1)%Z with true
      by (symmetry; apply Z.leb_le; rewrite len_app_one; lia).
    eexists. split; [reflexivity |]. simpl.
    rewrite !map_app. simpl. rewrite Hstep. repeat split; reflexivity.
  - (* an approver in the middle *)
    replace (len (done ++ a :: b :: todo) <=? len done + 1)%Z with false
      by (symmetry; apply Z.leb_gt; rewrite len_app_cons;
          unfold len; simpl; lia).
    replace (done ++ a :: b :: todo) with ((done ++ [a]) ++ b :: todo)
      by (rewrite <- app_assoc; reflexivity).
    rewrite <- (len_app_one done a), at_index_middle.
    destruct us as [| u2 us]; [discriminate |].
    destruct (IH (done ++ [a]) (b :: todo)
                (set_currentApprover (Some (user b))
                   (set_approvalStep (len (done ++ [a]) + 1)
                      (approval_recorded w (approval_of u) e))))
      as [e' (Hrun & Hstatus & Hcur & Hdate & Hyes & Hno & Hwho & Hsteps)].
    + discriminate.
    + rewrite Hsorted, <- app_assoc. reflexivity.
    + exact Hids.
    + exact Hcanus.
    + destruct (resolve_workflow_ext w
                  (set_currentApprover (Some (user b))
                     (set_approvalStep (len (done ++ [a]) + 1)
                        (approval_recorded w (approval_of u) e)))
                  e eq_refl eq_refl eq_refl) as [Hext _].
      now rewrite Hext.
    + exact Hpending.
    + reflexivity.
    + reflexivity.
    + exists e'. split; [exact Hrun |].
      repeat split; try assumption.
      * rewrite Hyes. simpl. now rewrite <- app_assoc.
      * rewrite Hwho. simpl. rewrite map_app, <- app_assoc. reflexivity.
      * rewrite Hsteps. simpl. rewrite map_app, <- app_assoc. simpl.
        rewrite Hstep, len_app_one. reflexivity.
Qed.

(** Under a sequential rule that stays in place, the approvals of the
    rule's approvers, given one after the other in step order, turn a freshly
    initialized expense into an approved one: every approver is in
    [approvedBy] once, in that order, and the history holds one entry per
    approver with the steps 1, 2, ... *)
Theorem sequential_workflow_runs_to_approval :
  forall (w : World) (e : Expense) (rule : ApprovalRule)
         (rest : list ApprovalRule) (us : list User),
    ApprovalRule_find w e = Returned (rule :: rest) ->
    approvalType rule = sequential ->
    status e = pending ->
    us <> [] ->
    map _id us = map user (sort_by_step (approvers rule)) ->
    Forall (fun u => canApprove u = true) us ->
    exists e',
      fold_left perform (approvals_in w us)
                (Some (determineApprovalWorkflow w e)) = Some e'
      /\ status e' = approved
      /\ currentApprover e' = None
      /\ finalApprovalDate e' = Some (now w)
      /\ approvedBy e' = map _id us
      /\ rejectedBy e' = []
      /\ map approver (approvalHistory e') = map _id us
      /\ map entry_step (approvalHistory e') = steps_from 1 (List.length us).
Proof.
  intros w e rule rest us Hfind Htype Hpending Hne Hids Hcan.
  assert (Hinit : determineApprovalWorkflow w e
                  = match sort_by_step (approvers rule) with
                    | first :: _ =>
                        set_approvalStep 1
                          (set_currentApprover (Some (user first))
                             (set_approvalHistory []
                                (set_rejectedBy []
                                   (set_approvedBy []
                                      (set_approvalStep 0
                                         (set_totalApprovers
                                            (len (sort_by_step
                                                    (approvers rule)))
                                            e))))))
                    | [] =>
                        set_finalApprovalDate (Some (now w))
                          (set_status approved
                             (set_approvalHistory []
                                (set_rejectedBy []
                                   (set_approvedBy []
                                      (set_approvalStep 0
                                         (set_totalApprovers
                                            (len (sort_by_step
                                                    (approvers rule)))
                                            e))))))
                    end).
  { unfold determineApprovalWorkflow, resolve_workflow. rewrite Hfind.
    reflexivity. }
  destruct (sort_by_step (approvers rule)) as [| first sorted] eqn:Hsorted.
  { destruct us; [now contradiction Hne | discriminate]. }
  destruct (sequential_run_from w rule rest Htype us [] (first :: sorted)
              (determineApprovalWorkflow w e))
    as [e' (Hrun & Hstatus & Hcur & Hdate & Hyes & Hno & Hwho & Hsteps)];
    try assumption.
  - destruct (resolve_workflow_ext w (determineApprovalWorkflow w e) e)
      as [Hext _]; try (rewrite Hinit; reflexivity).
    now rewrite Hext.
  - rewrite Hinit. exact Hpending.
  - rewrite Hinit. reflexivity.
  - rewrite Hinit. reflexivity.
  - exists e'. split; [exact Hrun |].
    rewrite Hinit in Hyes, Hno, Hwho, Hsteps. simpl in Hyes, Hno, Hwho, Hsteps.
    repeat split; assumption.
Qed.

Lemma sequential_workflow_runs_to_approval_witness :
  exists e',
    fold_left perform
      (approvals_in world_alice_then_bob [manager_alice; manager_bob])
      (Some (determineApprovalWorkflow world_alice_then_bob
               (Expense_create (example_submission carol_without_manager)
                               (500%Q, 1%Q))))
    = Some e'
    /\ status e' = approved
    /\ approvedBy e' = [alice; bob]
    /\ map entry_step (approvalHistory e') = [1%Z; 2%Z].
Proof.
  destruct (sequential_workflow_runs_to_approval
              world_alice_then_bob
              (Expense_create (example_submission carol_without_manager)
                              (500%Q, 1%Q))
              (example_rule sequential
                 [approver_at alice 1; approver_at bob 2] None)
              [] [manager_alice; manager_bob])
    as [e' (Hrun & Hstatus & _ & _ & Hyes & _ & _ & Hsteps)].
  - reflexivity.
  - reflexivity.
  - reflexivity.
  - discriminate.
  - reflexivity.
  - repeat constructor.
  - exists e'. repeat split; assumption.
Defined.

(** ** What a request can do to an expense *)

Lemma determineApprovalWorkflow_initialized (w : World) (e : Expense) :
  initialized w e (determineApprovalWorkflow w e).
Proof.
  unfold determineApprovalWorkflow.
  destruct (resolve_workflow w e) as [wf |]; [| constructor].
  destruct (wf_approvers wf) as [| first rest] eqn:Hl.
  - apply initialized_approved.
  - apply (@initialized_waiting w e first (len (first :: rest))).
    unfold len. simpl. lia.
Qed.

Lemma perform_none (op : Operation) : perform None op = None.
Proof.
  destruct op as [w req | w req | w req]; simpl.
  - reflexivity.
  - unfold put_approval, approval_handler.
    destruct (negb (canApprove (req_user req))); [reflexivity |].
    destruct (negb (validateApproval req)); reflexivity.
  - unfold put_override. destruct (role (req_user req)); reflexivity.
Qed.

Lemma put_approval_admitted (w : World) (req : ApprovalRequest) (e : Expense) :
  decision_admitted req e = true ->
  currentApprover e = Some (_id (req_user req))
  /\ status e = pending
  /\ put_approval w req (Some e)
     = (Success 200,
        Some (if String.eqb (req_action req) "approved"
              then processApprovalWorkflow w (approval_recorded w req e)
              else rejection_recorded w req e)).
Proof.
  unfold decision_admitted, put_approval, approval_handler.
  rewrite !andb_true_iff. intros [[[Hcan Hvalid] Hcur] Hpending].
  rewrite Hcan, Hvalid. simpl.
  destruct (currentApprover e) as [current |]; [| discriminate].
  rewrite Hcur. apply N.eqb_eq in Hcur. subst current.
  rewrite Hpending. simpl.
  destruct (status e); try discriminate.
  repeat split. destruct (String.eqb (req_action req) "approved"); reflexivity.
Qed.

Lemma put_approval_refused (w : World) (req : ApprovalRequest)
  (stored : option Expense) :
  match stored with
  | Some e => decision_admitted req e = false
  | None => True
  end ->
  snd (put_approval w req stored) = stored
  /\ exists code message,
       fst (put_approval w req stored) = Failure code message.
Proof.
  assert (Hrefused : forall code message (s : option Expense),
            snd (Failure code message, s) = s
            /\ exists code' message',
                 fst (Failure code message, s) = Failure code' message').
  { intros code message s. split; [reflexivity |]. now exists code, message. }
  unfold decision_admitted, put_approval, approval_handler.
  destruct (canApprove (req_user req)); simpl; [| intros _; apply Hrefused].
  destruct (validateApproval req); simpl; [| intros _; apply Hrefused].
  destruct stored as [e |]; [| intros _; apply Hrefused].
  destruct (currentApprover e) as [current |]; [| intros _; apply Hrefused].
  destruct (same_id current (_id (req_user req))); simpl;
    [| intros _; apply Hrefused].
  destruct (is_pending (status e)); simpl;
    [discriminate | intros _; apply Hrefused].
Qed.

Lemma perform_becomes (op : Operation) (e e' : Expense) :
  perform (Some e) op = Some e' -> becomes e e'.
Proof.
  destruct op as [w req | w req | w req]; simpl.
  - unfold put_expense.
    destruct (is_employee (role (ereq_user req))
              && negb (same_id (employee e) (_id (ereq_user req))));
      [intros [= <-]; constructor |].
    destruct (status e) eqn:Hstatus; simpl;
      try (intros [= <-]; constructor).
    destruct (Company_findById w (user_company (ereq_user req))) as [c |];
      [| intros [= <-]; constructor].
    destruct (convert_if_needed w req c) as [converted |];
      [| intros [= <-]; constructor].
    cbv zeta.
    destruct (assigned_paths_valid (update_fields req converted e));
      [| intros [= <-]; constructor].
    simpl. intros [= <-]. now apply becomes_updated.
  - destruct (decision_admitted req e) eqn:Hadmitted.
    + destruct (put_approval_admitted w req e Hadmitted)
        as (Hcur & Hpending & Hrun).
      rewrite Hrun. simpl.
      destruct (String.eqb (req_action req) "approved"); intros [= <-].
      * now apply becomes_approved_by.
      * now apply becomes_rejected_by.
    + destruct (put_approval_refused w req (Some e) Hadmitted) as [Hsame _].
      rewrite Hsame. intros [= <-]. constructor.
  - unfold put_override.
    destruct (role (req_user req));
      try (simpl; intros [= <-]; constructor).
    cbv zeta.
    destruct (history_entry_valid (override_entry w req e));
      simpl; intros [= <-]; [apply becomes_overridden | constructor].
Qed.

Lemma post_expense_created (w : World) (req : ExpenseRequest) (e : Expense) :
  snd (post_expense w req) = Some e ->
  exists converted,
    initialized w (Expense_create req converted) e.
Proof.
  unfold post_expense.
  destruct (Company_findById w (user_company (ereq_user req))) as [c |];
    [| discriminate].
  destruct (convert_if_needed w req c) as [converted |]; [| discriminate].
  destruct (negb (Qle_bool (fst converted) (maxExpenseAmount c)));
    [discriminate |].
  simpl. intros [= <-]. exists converted.
  apply determineApprovalWorkflow_initialized.
Qed.

(** Induction over the life of an expense. *)
Lemma life_invariant (req : ExpenseRequest) (P : Expense -> Prop) :
  (forall w converted e,
     initialized w (Expense_create req converted) e -> P e) ->
  (forall e e', P e -> becomes e e' -> P e') ->
  forall w ops e, life w req ops = Some e -> P e.
Proof.
  intros Hcreated Hstep w ops. unfold life.
  assert (Hstart : stored_satisfies P (snd (post_expense w req))).
  { intros e He. destruct (post_expense_created w req e He) as [c Hc].
    now apply (Hcreated w c). }
  revert Hstart. generalize (snd (post_expense w req)) as stored.
  induction ops as [| op ops IH]; intros stored Hstart e; simpl.
  - apply Hstart.
  - apply IH. intros e1 He1.
    destruct stored as [e0 |].
    + apply (Hstep e0 e1); [now apply Hstart | now apply perform_becomes with op].
    + rewrite perform_none in He1. discriminate.
Qed.

Lemma approval_switch_advanced (wf : Workflow) (e : Expense) :
  advanced e (fst (approval_switch wf e)).
Proof.
  unfold approval_switch, advanced.
  destruct (wf_approvalType wf); simpl; auto.
  destruct (len (wf_approvers wf) <=? approvalStep e)%Z; simpl; auto.
  destruct (at_index (wf_approvers wf) (approvalStep e + 1 - 1)) as [a |];
    simpl; [| auto].
  right. right. now exists a.
Qed.

Lemma processApprovalWorkflow_processed (w : World) (e : Expense) :
  processed w e (processApprovalWorkflow w e).
Proof.
  unfold processApprovalWorkflow, processed.
  destruct (resolve_workflow w e) as [wf |].
  2: { exists e. split; [now left | now left]. }
  pose proof (approval_switch_advanced wf e) as Hadvanced.
  destruct (approval_switch wf e) as [e1 [isApproved |]]; simpl in Hadvanced;
    exists e1; (split; [exact Hadvanced |]).
  2: { now left. }
  destruct isApproved; [right; now left |].
  destruct (is_sequential (wf_approvalType wf)
            && (approvalStep e1 <=? len (wf_approvers wf))%Z); [now left |].
  destruct (remainingApprovers (wf_approvers wf) e1) as [| next rest].
  2: { right. right. right. now exists next. }
  destruct (percentage_or_hybrid (wf_approvalType wf)); [| now left].
  destruct (number_ge _ _); [right; now left | right; right; now left].
Qed.

Lemma becomes_cases (e e' : Expense) :
  becomes e e' ->
  e' = e
  \/ (status e = pending
      /\ exists w req converted,
           initialized w (update_fields req converted e) e')
  \/ (status e = pending
      /\ exists w req,
           currentApprover e = Some (_id (req_user req))
           /\ processed w (approval_recorded w req e) e')
  \/ (status e = pending
      /\ exists w req,
           currentApprover e = Some (_id (req_user req))
           /\ e' = rejection_recorded w req e)
  \/ (exists w req, e' = override_recorded w req e).
Proof.
  intros [| w req converted Hpending | w req Hpending Hcur
          | w req Hpending Hcur | w req].
  - now left.
  - right. left. split; [exact Hpending |]. exists w, req, converted.
    apply determineApprovalWorkflow_initialized.
  - right. right. left. split; [exact Hpending |]. exists w, req.
    split; [exact Hcur | apply processApprovalWorkflow_processed].
  - right. right. right. left. split; [exact Hpending |]. now exists w, req.
  - right. right. right. right. now exists w, req.
Qed.

Lemma override_recorded_fields (w : World) (req : ApprovalRequest)
  (e : Expense) :
  (status (override_recorded w req e) = approved
   \/ status (override_recorded w req e) = rejected)
  /\ approvedBy (override_recorded w req e) = approvedBy e
  /\ rejectedBy (override_recorded w req e) = rejectedBy e
  /\ approvalHistory (override_recorded w req e)
     = approvalHistory e ++ [override_entry w req e]
  /\ approvalStep (override_recorded w req e) = approvalStep e
  /\ totalApprovers (override_recorded w req e) = totalApprovers e
  /\ currentApprover (override_recorded w req e) = None
  /\ employee (override_recorded w req e) = employee e
  /\ company (override_recorded w req e) = company e.
Proof.
  unfold override_recorded.
  destruct (String.eqb (req_action req) "approved");
    destruct (String.eqb (req_action req) "rejected"); simpl;
    repeat split; auto.
Qed.

(** ** Invariants of a life *)

(** The status [partially_approved] of the schema is never reached: the
    expense of every life is pending, approved or rejected. *)
Theorem never_partially_approved :
  forall (w : World) (req : ExpenseRequest) (ops : list Operation)
         (e : Expense),
    life w req ops = Some e ->
    status e = pending \/ status e = approved \/ status e = rejected.
Proof.
  intros w req ops e Hlife.
  apply (life_invariant req
           (fun e => status e = pending \/ status e = approved
                     \/ status e = rejected))
    with (w := w) (ops := ops); [| | exact Hlife].
  - intros w0 converted e0 [| first total _ |]; simpl; auto.
  - intros e0 e1 Hinv Hbecomes.
    destruct (becomes_cases e0 e1 Hbecomes)
      as [-> | [[Hp (w0 & req0 & c0 & Hinit)]
         | [[Hp (w0 & req0 & Hcur & Hproc)]
         | [[Hp (w0 & req0 & Hcur & ->)] | (w0 & req0 & ->)]]]].
    + exact Hinv.
    + destruct Hinit as [| first total _ |]; simpl; auto.
    + destruct Hproc as [b [[-> | [-> | [a ->]]]
                            [-> | [-> | [-> | [a' ->]]]]]]; simpl; auto.
    + simpl. auto.
    + destruct (override_recorded_fields w0 req0 e0) as [[H | H] _]; auto.
Qed.

Lemma never_partially_approved_witness :
  exists e,
    a_life_of_alice_and_bob = Some e
    /\ (status e = pending \/ status e = approved \/ status e = rejected).
Proof.
  eexists. split; [vm_compute; reflexivity |].
  apply (never_partially_approved
           world_alice_then_bob (example_submission carol_without_manager)
           life_alice_then_bob).
  vm_compute. reflexivity.
Defined.

(** At most one rejection is ever recorded, and none while the expense is
    pending: a rejection ends the workflow. *)
Theorem at_most_one_rejection :
  forall (w : World) (req : ExpenseRequest) (ops : list Operation)
         (e : Expense),
    life w req ops = Some e ->
    (status e = pending -> rejectedBy e = [])
    /\ (List.length (rejectedBy e) <= 1)%nat.
Proof.
  intros w req ops e Hlife.
  apply (life_invariant req
           (fun e => (status e = pending -> rejectedBy e = [])
                     /\ (List.length (rejectedBy e) <= 1)%nat))
    with (w := w) (ops := ops); [| | exact Hlife].
  - intros w0 converted e0 [| first total _ |]; simpl; auto.
  - intros e0 e1 [Hnone Hone] Hbecomes.
    destruct (becomes_cases e0 e1 Hbecomes)
      as [-> | [[Hp (w0 & req0 & c0 & Hinit)]
         | [[Hp (w0 & req0 & Hcur & Hproc)]
         | [[Hp (w0 & req0 & Hcur & ->)] | (w0 & req0 & ->)]]]].
    + auto.
    + destruct Hinit as [| first total _ |]; simpl; auto.
    + specialize (Hnone Hp).
      destruct Hproc as [b [[-> | [-> | [a ->]]]
                            [-> | [-> | [-> | [a' ->]]]]]]; simpl;
        rewrite Hnone; simpl; auto.
    + simpl. rewrite (Hnone Hp). simpl. split; [discriminate | lia].
    + destruct (override_recorded_fields w0 req0 e0)
        as ([Hs | Hs] & _ & Hno & _); rewrite Hno;
        (split; [rewrite Hs; discriminate | exact Hone]).
Qed.

Lemma at_most_one_rejection_witness :
  exists e,
    life world_alice_twice (example_submission carol_without_manager)
         life_alice_twice = Some e
    /\ rejectedBy e = [alice]
    /\ (List.length (rejectedBy e) <= 1)%nat.
Proof.
  eexists. split; [vm_compute; reflexivity |]. split; [reflexivity |].
  apply (at_most_one_rejection
           world_alice_twice (example_submission carol_without_manager)
           life_alice_twice).
  vm_compute. reflexivity.
Defined.

(** The owner and the company of an expense are those of the user who
    created it, whatever updates, decisions and overrides follow, and whoever
    sends them. *)
Theorem owner_and_company_never_change :
  forall (w : World) (req : ExpenseRequest) (ops : list Operation)
         (e : Expense),
    life w req ops = Some e ->
    employee e = _id (ereq_user req)
    /\ company e = user_company (ereq_user req).
Proof.
  intros w req ops e Hlife.
  apply (life_invariant req
           (fun e => employee e = _id (ereq_user req)
                     /\ company e = user_company (ereq_user req)))
    with (w := w) (ops := ops); [| | exact Hlife].
  - intros w0 converted e0 [| first total _ |]; simpl; auto.
  - intros e0 e1 [Howner Hcompany] Hbecomes.
    destruct (becomes_cases e0 e1 Hbecomes)
      as [-> | [[Hp (w0 & req0 & c0 & Hinit)]
         | [[Hp (w0 & req0 & Hcur & Hproc)]
         | [[Hp (w0 & req0 & Hcur & ->)] | (w0 & req0 & ->)]]]].
    + auto.
    + destruct Hinit as [| first total _ |]; simpl; auto.
    + destruct Hproc as [b [[-> | [-> | [a ->]]]
                            [-> | [-> | [-> | [a' ->]]]]]]; simpl; auto.
    + simpl. auto.
    + destruct (override_recorded_fields w0 req0 e0)
        as (_ & _ & _ & _ & _ & _ & _ & He & Hc).
      rewrite He, Hc. auto.
Qed.

Lemma owner_and_company_never_change_witness :
  exists e,
    a_life_of_alice_and_bob = Some e
    /\ employee e = carol /\ company e = acme.
Proof.
  eexists. split; [vm_compute; reflexivity |].
  apply (owner_and_company_never_change
           world_alice_then_bob (example_submission carol_without_manager)
           life_alice_then_bob).
  vm_compute. reflexivity.
Defined.

(** Every id in the two decision lists is backed by an entry of the history:
    the lists together are never longer than the history. *)
Theorem decisions_are_logged :
  forall (w : World) (req : ExpenseRequest) (ops : list Operation)
         (e : Expense),
    life w req ops = Some e ->
    (List.length (approvedBy e) + List.length (rejectedBy e)
     <= List.length (approvalHistory e))%nat.
Proof.
  intros w req ops e Hlife.
  apply (life_invariant req
           (fun e => (List.length (approvedBy e) + List.length (rejectedBy e)
                      <= List.length (approvalHistory e))%nat))
    with (w := w) (ops := ops); [| | exact Hlife].
  - intros w0 converted e0 [| first total _ |]; simpl; auto.
  - intros e0 e1 Hinv Hbecomes.
    destruct (becomes_cases e0 e1 Hbecomes)
      as [-> | [[Hp (w0 & req0 & c0 & Hinit)]
         | [[Hp (w0 & req0 & Hcur & Hproc)]
         | [[Hp (w0 & req0 & Hcur & ->)] | (w0 & req0 & ->)]]]].
    + exact Hinv.
    + destruct Hinit as [| first total _ |]; simpl; auto.
    + destruct Hproc as [b [[-> | [-> | [a ->]]]
                            [-> | [-> | [-> | [a' ->]]]]]]; simpl;
        rewrite !length_app; simpl; lia.
    + simpl. rewrite !length_app. simpl. lia.
    + destruct (override_recorded_fields w0 req0 e0)
        as (_ & Hyes & Hno & Hhist & _).
      rewrite Hyes, Hno, Hhist, length_app. simpl. lia.
Qed.

Lemma decisions_are_logged_witness :
  exists e,
    a_life_of_alice_and_bob = Some e
    /\ (List.length (approvedBy e) + List.length (rejectedBy e)
        <= List.length (approvalHistory e))%nat.
Proof.
  eexists. split; [vm_compute; reflexivity |].
  apply (decisions_are_logged
           world_alice_then_bob (example_submission carol_without_manager)
           life_alice_then_bob).
  vm_compute. reflexivity.
Defined.

Lemma approval_switch_returns (wf : Workflow) (e : Expense) :
  (0 <= approvalStep e)%Z ->
  exists isApproved, snd (approval_switch wf e) = Returned isApproved.
Proof.
  intros Hstep. unfold approval_switch.
  destruct (wf_approvalType wf); simpl; eauto.
  destruct (Z.leb_spec (len (wf_approvers wf)) (approvalStep e))
    as [Hlast | Hmore]; simpl; eauto.
  replace (approvalStep e + 1 - 1)%Z with (approvalStep e) by lia.
  destruct (at_index_in_range (wf_approvers wf) (approvalStep e)
              (conj Hstep Hmore)) as [a [Hat _]].
  rewrite Hat. simpl. eauto.
Qed.

(** The step counter of an expense is never negative, so in no life does the
    sequential branch read past the approver list: whatever rule is resolved,
    the [switch] of the decision processor does not throw. *)
Theorem step_counter_stays_in_range :
  forall (w : World) (req : ExpenseRequest) (ops : list Operation)
         (e : Expense),
    life w req ops = Some e ->
    (0 <= approvalStep e)%Z
    /\ forall wf, exists isApproved,
         snd (approval_switch wf e) = Returned isApproved.
Proof.
  intros w req ops e Hlife.
  assert (Hstep : (0 <= approvalStep e)%Z).
  { apply (life_invariant req (fun e => (0 <= approvalStep e)%Z))
      with (w := w) (ops := ops); [| | exact Hlife].
    - intros w0 converted e0 [| first total _ |]; simpl; lia.
    - intros e0 e1 Hinv Hbecomes.
      destruct (becomes_cases e0 e1 Hbecomes)
        as [-> | [[Hp (w0 & req0 & c0 & Hinit)]
           | [[Hp (w0 & req0 & Hcur & Hproc)]
           | [[Hp (w0 & req0 & Hcur & ->)] | (w0 & req0 & ->)]]]].
      + exact Hinv.
      + destruct Hinit as [| first total _ |]; simpl; auto; lia.
      + destruct Hproc as [b [[-> | [-> | [a ->]]]
                              [-> | [-> | [-> | [a' ->]]]]]]; simpl; lia.
      + simpl. exact Hinv.
      + destruct (override_recorded_fields w0 req0 e0)
          as (_ & _ & _ & _ & Hsame & _).
        now rewrite Hsame. }
  split; [exact Hstep |].
  intros wf. now apply approval_switch_returns.
Qed.

Lemma step_counter_stays_in_range_witness :
  exists e,
    a_life_of_alice_and_bob = Some e
    /\ (0 <= approvalStep e)%Z.
Proof.
  eexists. split; [vm_compute; reflexivity |].
  apply (step_counter_stays_in_range
           world_alice_then_bob (example_submission carol_without_manager)
           life_alice_then_bob).
  vm_compute. reflexivity.
Defined.

(** A pending expense that waits for an approver was initialized with at
    least one approver: the percentage of a decision is never computed over
    [totalApprovers = 0]. *)
Theorem waiting_expense_counts_an_approver :
  forall (w : World) (req : ExpenseRequest) (ops : list Operation)
         (e : Expense),
    life w req ops = Some e ->
    status e = pending ->
    currentApprover e <> None ->
    (1 <= totalApprovers e)%Z.
Proof.
  intros w req ops e Hlife.
  apply (life_invariant req
           (fun e => status e = pending -> currentApprover e <> None ->
                     (1 <= totalApprovers e)%Z))
    with (w := w) (ops := ops); [| | exact Hlife].
  - intros w0 converted e0 [| first total Htotal |]; simpl; auto;
      try discriminate.
    intros _ Hnone. now contradiction Hnone.
  - intros e0 e1 Hinv Hbecomes.
    destruct (becomes_cases e0 e1 Hbecomes)
      as [-> | [[Hp (w0 & req0 & c0 & Hinit)]
         | [[Hp (w0 & req0 & Hcur & Hproc)]
         | [[Hp (w0 & req0 & Hcur & ->)] | (w0 & req0 & ->)]]]].
    + exact Hinv.
    + destruct Hinit as [| first total Htotal |]; simpl; auto;
        discriminate.
    + assert (Htotal : (1 <= totalApprovers e0)%Z).
      { apply Hinv; [exact Hp | rewrite Hcur; discriminate]. }
      destruct Hproc as [b [[-> | [-> | [a ->]]]
                            [-> | [-> | [-> | [a' ->]]]]]]; simpl;
        intros; try discriminate; exact Htotal.
    + simpl. discriminate.
    + destruct (override_recorded_fields w0 req0 e0)
        as (_ & _ & _ & _ & _ & _ & Hnone & _).
      intros _ Hcur. now rewrite Hnone in Hcur.
Qed.

Lemma waiting_expense_counts_an_approver_witness :
  exists e,
    life world_alice_then_bob (example_submission carol_without_manager)
         [Decide world_alice_then_bob (approval_of manager_alice)] = Some e
    /\ status e = pending
    /\ currentApprover e = Some bob
    /\ (1 <= totalApprovers e)%Z.
Proof.
  eexists. split; [vm_compute; reflexivity |].
  split; [reflexivity |]. split; [reflexivity |].
  apply (waiting_expense_counts_an_approver
           world_alice_then_bob (example_submission carol_without_manager)
           [Decide world_alice_then_bob (approval_of manager_alice)]).
  - vm_compute. reflexivity.
  - reflexivity.
  - discriminate.
Defined.

(** ** The guards of the routes *)

(** A decision request that fails one of the four guards (permission to
    approve, a valid body, being the current approver, a pending expense)
    is answered with an error and leaves the stored expense as it is. *)
Theorem refused_decision_changes_nothing :
  forall (w : World) (req : ApprovalRequest) (e : Expense),
    (canApprove (req_user req) = false
     \/ validateApproval req = false
     \/ currentApprover e <> Some (_id (req_user req))
     \/ status e <> pending) ->
    snd (put_approval w req (Some e)) = Some e
    /\ exists code message,
         fst (put_approval w req (Some e)) = Failure code message.
Proof.
  intros w req e Hguard.
  apply (put_approval_refused w req (Some e)).
  unfold decision_admitted.
  destruct Hguard as [H | [H | [H | H]]].
  - now rewrite H.
  - rewrite H. now rewrite andb_false_r.
  - destruct (currentApprover e) as [current |].
    + destruct (same_id current (_id (req_user req))) eqn:Hsame.
      * apply N.eqb_eq in Hsame. subst current. now contradiction H.
      * now rewrite andb_false_r.
    + now rewrite andb_false_r.
  - destruct (status e); try now rewrite andb_false_r.
    now contradiction H.
Qed.

Lemma refused_decision_changes_nothing_witness :
  currentApprover (example_expense (Some alice) [] [] 2)
  <> Some (_id (req_user (approval_of manager_bob)))
  /\ snd (put_approval world_alice_then_bob (approval_of manager_bob)
            (Some (example_expense (Some alice) [] [] 2)))
     = Some (example_expense (Some alice) [] [] 2).
Proof.
  assert (H : currentApprover (example_expense (Some alice) [] [] 2)
              <> Some (_id (req_user (approval_of manager_bob)))).
  { discriminate. }
  split; [exact H |].
  apply (refused_decision_changes_nothing
           world_alice_then_bob (approval_of manager_bob)
           (example_expense (Some alice) [] [] 2)).
  right. right. left. exact H.
Defined.

(** Once an expense has left the pending state, update and decision
    requests no longer change it, whoever sends them and whatever they ask
    for: only an override does. *)
Theorem only_override_changes_a_closed_expense :
  forall (e : Expense) (op : Operation),
    status e <> pending ->
    match op with
    | Override _ _ => True
    | Update _ _ | Decide _ _ => perform (Some e) op = Some e
    end.
Proof.
  intros e op Hclosed.
  assert (Hnot : is_pending (status e) = false).
  { destruct (status e); try reflexivity. now contradiction Hclosed. }
  destruct op as [w req | w req | w req]; [| | exact I].
  - simpl. unfold put_expense. rewrite Hnot. simpl.
    destruct (is_employee (role (ereq_user req))
              && negb (same_id (employee e) (_id (ereq_user req))));
      reflexivity.
  - simpl. apply (put_approval_refused w req (Some e)).
    unfold decision_admitted. rewrite Hnot. apply andb_false_r.
Qed.

Lemma only_override_changes_a_closed_expense_witness :
  status auto_approved_expense <> pending
  /\ perform (Some auto_approved_expense)
       (Update world_without_rules
          (example_update carol_without_manager 20 "USD"))
     = Some auto_approved_expense.
Proof.
  assert (H : status auto_approved_expense <> pending) by discriminate.
  split; [exact H |].
  apply (only_override_changes_a_closed_expense
           auto_approved_expense
           (Update world_without_rules
              (example_update carol_without_manager 20 "USD")) H).
Defined.




(** An expense submitted in the currency of the company never reaches the
    conversion service: with any other service, even one that always throws,
    the create and the update route answer and store the same, the amount in
    company currency being the amount and the rate 1. *)
Theorem own_currency_needs_no_conversion :
  forall (w : World) (req : ExpenseRequest) (c : Company)
         (f : Q -> string -> string -> Outcome (Q * Q))
         (stored : option Expense),
    Company_findById w (user_company (ereq_user req)) = Some c ->
    ereq_currency req = company_currency c ->
    convert_if_needed w req c = Returned (ereq_amount req, 1%Q)
    /\ post_expense (with_conversion f w) req = post_expense w req
    /\ put_expense (with_conversion f w) req stored
       = put_expense w req stored.
Proof.
  intros w req c f stored Hcompany Hcurrency.
  assert (Hsame : forall w0, convert_if_needed w0 req c
                             = Returned (ereq_amount req, 1%Q)).
  { intros w0. unfold convert_if_needed.
    now rewrite Hcurrency, String.eqb_refl. }
  assert (Hcompany' : Company_findById (with_conversion f w)
                        (user_company (ereq_user req)) = Some c)
    by exact Hcompany.
  split; [apply Hsame |]. split.
  - unfold post_expense. rewrite Hcompany, Hcompany', !Hsame. reflexivity.
  - unfold put_expense. rewrite Hcompany, Hcompany', !Hsame. reflexivity.
Qed.

Lemma own_currency_needs_no_conversion_witness :
  convert_if_needed world_alice_then_bob
    (example_submission carol_without_manager)
    {| company_id := acme; company_currency := "USD";
       maxExpenseAmount := 10000%Q |}
  = Returned (500%Q, 1%Q).
Proof.
  apply (own_currency_needs_no_conversion
           world_alice_then_bob (example_submission carol_without_manager)
           {| company_id := acme; company_currency := "USD";
              maxExpenseAmount := 10000%Q |}
           (fun _ _ _ => Thrown) None eq_refl eq_refl).
Defined.

(** An update of a pending expense by its owner (or by a manager or an
    administrator) is saved before the workflow is determined again, and the
    save runs the validators of the schema on what the request assigns: the
    amount is at least 0.01, the currency is not empty, category and
    description are not empty after trimming and the description holds at
    most 500 characters. When they pass, the update starts the workflow
    again: the approvals recorded so far and the history are discarded and
    the approvers counted anew. When the new resolution finds no approver
    the expense is approved, and the approver it was waiting for stays in
    [currentApprover]. When the resolution throws, the update is stored all
    the same, with the workflow state of before. When a validator fails,
    the answer is the server error 500 and the stored expense is
    untouched. *)
Theorem update_restarts_the_workflow :
  forall (w : World) (req : ExpenseRequest) (e : Expense) (c : Company)
         (converted : Q * Q),
    update_admitted req e = true ->
    Company_findById w (user_company (ereq_user req)) = Some c ->
    convert_if_needed w req c = Returned converted ->
    assigned_paths_valid (update_fields req converted e)
    = (Qle_bool (1 # 100) (ereq_amount req)
       && negb (String.eqb (toUpperCase (ereq_currency req)) EmptyString)
       && required_string (ereq_category req)
       && required_string (ereq_description req)
       && maxlength 500 (ereq_description req))
    /\ (assigned_paths_valid (update_fields req converted e) = true ->
        exists e',
          put_expense w req (Some e) = (Success 200, Some e')
          /\ amountInCompanyCurrency e' = fst converted
          /\ (resolve_workflow w (update_fields req converted e) = Thrown ->
              e' = update_fields req converted e)
          /\ (forall wf,
                resolve_workflow w (update_fields req converted e)
                = Returned wf ->
                approvedBy e' = [] /\ rejectedBy e' = []
                /\ approvalHistory e' = []
                /\ totalApprovers e' = len (wf_approvers wf)
                /\ (wf_approvers wf = [] ->
                    status e' = approved
                    /\ currentApprover e' = currentApprover e)))
    /\ (assigned_paths_valid (update_fields req converted e) = false ->
        put_expense w req (Some e) = (Failure 500 "Server error", Some e)).
Proof.
  intros w req e c converted Hadmitted Hcompany Hconverted.
  unfold update_admitted in Hadmitted.
  apply andb_true_iff in Hadmitted. destruct Hadmitted as [Hown Hpending].
  apply negb_true_iff in Hown.
  split; [reflexivity |].
  split.
  - intros Hvalid.
    unfold put_expense.
    rewrite Hown, Hpending, Hcompany, Hconverted. cbv zeta.
    rewrite Hvalid. simpl.
    eexists. split; [reflexivity |].
    unfold determineApprovalWorkflow.
    destruct (resolve_workflow w (update_fields req converted e)) as [wf |].
    + split.
      * destruct (wf_approvers wf); reflexivity.
      * split; [discriminate |].
        intros wf' [= <-].
        destruct (wf_approvers wf) as [| first rest]; simpl.
        -- repeat split; reflexivity.
        -- split; [reflexivity |]. split; [reflexivity |].
           split; [reflexivity |]. split; [reflexivity |]. discriminate.
    + split; [reflexivity |]. split; [reflexivity | discriminate].
  - intros Hinvalid.
    unfold put_expense.
    rewrite Hown, Hpending, Hcompany, Hconverted. cbv zeta.
    rewrite Hinvalid. reflexivity.
Qed.

Lemma update_restarts_the_workflow_witness :
  exists e,
    life world_alice_then_bob (example_submission carol_without_manager)
      [Decide world_alice_then_bob (decision_by alice "approved" None)]
    = Some e
    /\ approvedBy e = [alice]
    /\ update_admitted (example_update carol_without_manager 20 "USD") e
       = true
    /\ (exists e',
          put_expense world_alice_then_bob
            (example_update carol_without_manager 20 "USD") (Some e)
          = (Success 200, Some e')
          /\ approvedBy e' = []
          /\ approvalHistory e' = [])
    /\ put_expense world_alice_then_bob
         (example_update carol_without_manager (-5) "USD") (Some e)
       = (Failure 500 "Server error", Some e).
Proof.
  eexists. split; [vm_compute; reflexivity |].
  split; [reflexivity |].
  split; [reflexivity |].
  split.
  - match goal with
    | |- exists e', put_expense _ _ (Some ?e) = _ /\ _ =>
        destruct (update_restarts_the_workflow
                    world_alice_then_bob
                    (example_update carol_without_manager 20 "USD") e
                    {| company_id := acme; company_currency := "USD";
                       maxExpenseAmount := 10000%Q |}
                    (20%Q, 1%Q) eq_refl eq_refl eq_refl)
          as [_ [Hvalid _]]
    end.
    destruct Hvalid as [e' (Hrun & _ & _ & Hreset)];
      [vm_compute; reflexivity |].
    exists e'. split; [exact Hrun |].
    destruct (Hreset _ eq_refl) as (Hyes & _ & Hhistory & _).
    split; assumption.
  - match goal with
    | |- put_expense _ _ (Some ?e) = _ =>
        destruct (update_restarts_the_workflow
                    world_alice_then_bob
                    (example_update carol_without_manager (-5) "USD") e
                    {| company_id := acme; company_currency := "USD";
                       maxExpenseAmount := 10000%Q |}
                    (-5%Q, 1%Q) eq_refl eq_refl eq_refl)
          as [_ [_ Hinvalid]]
    end.
    apply Hinvalid. vm_compute. reflexivity.
Defined.

(** ** The listing routes *)

Lemma in_firstn {A : Type} (n : nat) (l : list A) (x : A) :
  In x (firstn n l) -> In x l.
Proof.
  intros Hin. rewrite <- (firstn_skipn n l). apply in_or_app. now left.
Qed.

Lemma in_skipn {A : Type} (n : nat) (l : list A) (x : A) :
  In x (skipn n l) -> In x l.
Proof.
  intros Hin. rewrite <- (firstn_skipn n l). apply in_or_app. now right.
Qed.

Lemma window_incl (skip limit : Z) (l : list ExpenseDoc) (d : ExpenseDoc) :
  In d (window skip limit l) -> In d l.
Proof.
  unfold window. intros Hin.
  destruct (limit =? 0)%Z.
  - now apply in_skipn in Hin.
  - apply in_firstn in Hin. now apply in_skipn in Hin.
Qed.

Lemma listed_matches (q : PageQuery) (query : Expense -> bool)
  (docs : list ExpenseDoc) (d : ExpenseDoc) :
  In d (listed (list_page q query docs)) ->
  In d docs /\ query (doc d) = true.
Proof.
  unfold list_page. cbn [listed]. intros Hin.
  apply window_incl in Hin. unfold Expense_find in Hin.
  apply (Permutation_in _ (stable_sort_permutation _ older _)) in Hin.
  now apply filter_In in Hin.
Qed.

Lemma window_length (skip limit : Z) (l : list ExpenseDoc) :
  (1 <= limit)%Z -> (len (window skip limit l) <= limit)%Z.
Proof.
  intros Hlimit. unfold window, len.
  replace (limit =? 0)%Z with false by (symmetry; apply Z.eqb_neq; lia).
  rewrite length_firstn. lia.
Qed.

Lemma parseInt_or_limit (q : PageQuery) :
  validatePagination q = true ->
  (1 <= parseInt_or (query_limit q) 10 <= 100)%Z
  /\ (1 <= parseInt_or (query_page q) 1)%Z.
Proof.
  unfold validatePagination, parseInt_or.
  destruct (query_page q) as [p |], (query_limit q) as [l |];
    rewrite ?andb_true_iff, ?Z.leb_le; intros H;
    repeat match goal with
           | |- context [(?n =? 0)%Z] => destruct (Z.eqb_spec n 0)
           end; lia.
Qed.

(** The list of pending approvals never shows a manager an expense that
    waits for somebody else, and never shows anybody an expense of another
    company or one that is no longer pending; a page holds at most [limit]
    expenses, all of them stored ones. Users who may not approve get no list
    at all. *)
Theorem pending_list_shows_only_what_awaits_the_caller :
  forall (u : User) (q : PageQuery) (docs : list ExpenseDoc)
         (answer : Listing),
    get_pending u q docs = (Success 200, Some answer) ->
    canApprove u = true
    /\ (results answer <= parseInt_or (query_limit q) 10 <= 100)%Z
    /\ results answer = len (listed answer)
    /\ forall d, In d (listed answer) ->
         In d docs
         /\ status (doc d) = pending
         /\ company (doc d) = user_company u
         /\ (role u = role_manager ->
             currentApprover (doc d) = Some (_id u)).
Proof.
  intros u q docs answer. unfold get_pending.
  destruct (canApprove u); [| discriminate].
  destruct (validatePagination q) eqn:Hvalid; [| discriminate].
  simpl. intros [= <-].
  destruct (parseInt_or_limit q Hvalid) as [[Hlow Hhigh] _].
  split; [reflexivity |]. split.
  { split; [| exact Hhigh]. cbn [results list_page].
    now apply window_length. }
  split; [reflexivity |].
  intros d Hin. apply listed_matches in Hin. destruct Hin as [Hin Hquery].
  unfold pending_query in Hquery.
  apply andb_true_iff in Hquery. destruct Hquery as [Hquery Hwaits].
  apply andb_true_iff in Hquery. destruct Hquery as [Hcompany Hpending].
  apply N.eqb_eq in Hcompany.
  split; [exact Hin |]. split.
  { destruct (status (doc d)); try discriminate. reflexivity. }
  split; [exact Hcompany |].
  intros Hrole. rewrite Hrole in Hwaits. simpl in Hwaits.
  unfold waits_for in Hwaits.
  destruct (currentApprover (doc d)) as [c |]; [| discriminate].
  apply N.eqb_eq in Hwaits. now subst c.
Qed.

Lemma pending_list_shows_only_what_awaits_the_caller_witness :
  exists answer,
    get_pending manager_alice (page_query 1 10) example_docs
    = (Success 200, Some answer)
    /\ map doc_id (listed answer) = [31%N]
    /\ forall d, In d (listed answer) ->
         currentApprover (doc d) = Some alice.
Proof.
  eexists. split; [vm_compute; reflexivity |].
  split; [reflexivity |].
  intros d Hin.
  destruct (pending_list_shows_only_what_awaits_the_caller
              manager_alice (page_query 1 10) example_docs _ eq_refl)
    as (_ & _ & _ & Hall).
  destruct (Hall d Hin) as (_ & _ & _ & Hwaits).
  now apply Hwaits.
Defined.

Lemma teamMemberIds_spec (w : World) (u : User) (id : ObjectId) :
  mentions (teamMemberIds w u) id = true ->
  exists member m,
    In member (users w) /\ _id member = id
    /\ manager member = Some m /\ manager_id m = _id u.
Proof.
  rewrite mentions_true. unfold teamMemberIds. rewrite in_map_iff.
  intros [member [Hid Hin]]. apply filter_In in Hin.
  destruct Hin as [Hin Hmanager].
  destruct (manager member) as [m |] eqn:Hm; [| discriminate].
  apply N.eqb_eq in Hmanager. now exists member, m.
Qed.

(** The list of expenses is confined to the caller's company; within it an
    employee is shown own expenses only, and a manager only expenses of the
    users whose manager he is. *)
Theorem expense_list_respects_roles :
  forall (w : World) (u : User) (q : PageQuery) (f : ExpenseFilter)
         (docs : list ExpenseDoc) (answer : Listing),
    get_expenses w u q f docs = (Success 200, Some answer) ->
    forall d, In d (listed answer) ->
      In d docs
      /\ company (doc d) = user_company u
      /\ (role u = role_employee -> employee (doc d) = _id u)
      /\ (role u = role_manager ->
          exists member m,
            In member (users w) /\ _id member = employee (doc d)
            /\ manager member = Some m /\ manager_id m = _id u)
      /\ (forall s, filter_status f = Some s -> status (doc d) = s).
Proof.
  intros w u q f docs answer. unfold get_expenses.
  destruct (validatePagination q); [| discriminate].
  simpl. intros [= <-] d Hin.
  apply listed_matches in Hin. destruct Hin as [Hin Hquery].
  unfold expenses_query in Hquery.
  repeat (apply andb_true_iff in Hquery;
          let H := fresh "Hq" in destruct Hquery as [Hquery H]).
  apply N.eqb_eq in Hquery.
  split; [exact Hin |]. split; [exact Hquery |].
  split; [| split].
  - intros Hrole. rewrite Hrole in Hq3. now apply N.eqb_eq in Hq3.
  - intros Hrole. rewrite Hrole in Hq3. now apply teamMemberIds_spec.
  - intros s Hs. rewrite Hs in Hq2.
    destruct (status (doc d)), s; try discriminate; reflexivity.
Qed.

Lemma expense_list_respects_roles_witness :
  exists answer,
    get_expenses world_alice_then_bob carol_without_manager
      (page_query 1 10) no_filter example_docs
    = (Success 200, Some answer)
    /\ map doc_id (listed answer) = [32%N; 33%N; 31%N]
    /\ forall d, In d (listed answer) -> employee (doc d) = carol.
Proof.
  eexists. split; [vm_compute; reflexivity |].
  split; [reflexivity |].
  intros d Hin.
  destruct (expense_list_respects_roles
              world_alice_then_bob carol_without_manager
              (page_query 1 10) no_filter example_docs _ eq_refl d Hin)
    as (_ & _ & Hown & _).
  now apply Hown.
Defined.

(** ** Pagination *)

Lemma chunks_concat {A : Type} (n : nat) :
  forall (m : nat) (l : list A),
    (List.length l <= m * n)%nat ->
    List.concat (map (fun k => firstn n (skipn (k * n) l)) (seq 0 m)) = l.
Proof.
  induction m as [| m IH]; intros l Hlen.
  - simpl in *. destruct l; [reflexivity | simpl in Hlen; lia].
  - cbn [seq map List.concat]. rewrite <- seq_shift, map_map.
    transitivity (firstn n l ++ skipn n l); [| apply firstn_skipn].
    f_equal.
    transitivity (List.concat
                    (map (fun k => firstn n (skipn (k * n) (skipn n l)))
                         (seq 0 m))).
    + f_equal. apply map_ext. intros k.
      rewrite skipn_skipn. f_equal. f_equal. lia.
    + apply IH. rewrite length_skipn. lia.
Qed.

Lemma ceil_div_covers (total limit : Z) :
  (0 <= total)%Z -> (1 <= limit)%Z ->
  (0 <= ceil_div total limit)%Z
  /\ (total <= ceil_div total limit * limit)%Z
  /\ ((ceil_div total limit - 1) * limit < total
      \/ ceil_div total limit = 0)%Z.
Proof.
  intros Htotal Hlimit. unfold ceil_div.
  pose proof (Z.div_mod (total + limit - 1) limit ltac:(lia)) as Hdiv.
  pose proof (Z.mod_pos_bound (total + limit - 1) limit ltac:(lia)) as Hmod.
  nia.
Qed.

Lemma len_Expense_find (query : Expense -> bool) (docs : list ExpenseDoc) :
  len (Expense_find query docs)
  = len (filter (fun d => query (doc d)) docs).
Proof.
  unfold len, Expense_find. f_equal.
  apply Permutation_length, stable_sort_permutation.
Qed.

Lemma listed_page (p limit : Z) (query : Expense -> bool)
  (docs : list ExpenseDoc) :
  (1 <= p)%Z -> (1 <= limit)%Z ->
  listed (list_page (page_query p limit) query docs)
  = firstn (Z.to_nat limit)
      (skipn (Z.to_nat ((p - 1) * limit)) (Expense_find query docs)).
Proof.
  intros Hp Hlimit. unfold list_page, page_query, parseInt_or, window.
  cbn [listed query_page query_limit].
  assert (Hp0 : (p =? 0)%Z = false) by (apply Z.eqb_neq; lia).
  assert (Hl0 : (limit =? 0)%Z = false) by (apply Z.eqb_neq; lia).
  rewrite Hp0, Hl0. cbv beta iota zeta. rewrite Hl0. reflexivity.
Qed.

(** The pages of a listing cut the sorted matches into consecutive pieces
    without loss or repetition: the pages 1 to [totalPages], one after the
    other, are exactly the matching expenses, newest first; every one of
    these pages but the last is full, none is empty, and every later page
    is empty. *)
Theorem pages_partition_the_matches :
  forall (limit : Z) (query : Expense -> bool) (docs : list ExpenseDoc),
    (1 <= limit)%Z ->
    List.concat (map (fun p => listed (list_page (page_query p limit) query docs))
                (pages_up_to
                   (totalPages (list_page (page_query 1 limit) query docs))))
    = Expense_find query docs
    /\ (forall p,
          (1 <= p <= totalPages (list_page (page_query 1 limit) query docs))%Z ->
          listed (list_page (page_query p limit) query docs) <> [])
    /\ (forall p,
          (1 <= p < totalPages (list_page (page_query 1 limit) query docs))%Z ->
          len (listed (list_page (page_query p limit) query docs)) = limit)
    /\ (forall p,
          (totalPages (list_page (page_query 1 limit) query docs) < p)%Z ->
          listed (list_page (page_query p limit) query docs) = []).
Proof.
  intros limit query docs Hlimit.
  assert (Hpages : totalPages (list_page (page_query 1 limit) query docs)
                   = ceil_div (len (Expense_find query docs)) limit).
  { unfold list_page, page_query, parseInt_or.
    cbn [totalPages query_limit].
    assert (Hl0 : (limit =? 0)%Z = false) by (apply Z.eqb_neq; lia).
    rewrite Hl0. now rewrite len_Expense_find. }
  rewrite Hpages.
  assert (Htotal : (0 <= len (Expense_find query docs))%Z)
    by (unfold len; lia).
  destruct (ceil_div_covers _ _ Htotal Hlimit) as (Hnonneg & Hcover & Hlast).
  set (matches := Expense_find query docs) in *.
  set (pages := ceil_div (len matches) limit) in *.
  split; [| split; [| split]].
  - unfold pages_up_to. rewrite <- seq_shift, !map_map.
    transitivity
      (List.concat
         (map (fun k => firstn (Z.to_nat limit)
                          (skipn (k * Z.to_nat limit) matches))
              (seq 0 (Z.to_nat pages)))).
    + f_equal. apply map_ext. intros k.
      rewrite listed_page by lia. fold matches. f_equal. f_equal. nia.
    + apply chunks_concat. unfold len in Hcover. nia.
  - intros p Hp. rewrite listed_page by lia. fold matches.
    intros Hempty.
    assert (Hlen : List.length
                     (firstn (Z.to_nat limit)
                        (skipn (Z.to_nat ((p - 1) * limit)) matches)) = 0%nat)
      by now rewrite Hempty.
    rewrite length_firstn, length_skipn in Hlen. unfold len in *.
    assert (Hskip : (0 <= (p - 1) * limit
                     < Z.of_nat (List.length matches))%Z) by nia.
    lia.
  - intros p Hp. rewrite listed_page by lia. fold matches.
    unfold len in *. rewrite length_firstn, length_skipn.
    assert (Hskip : (0 <= (p - 1) * limit
                     /\ (p - 1) * limit + limit
                        <= Z.of_nat (List.length matches))%Z) by nia.
    lia.
  - intros p Hp. rewrite listed_page by lia. fold matches.
    rewrite (proj1 (skipn_all_iff _ _)); [apply firstn_nil |].
    unfold len in *.
    assert (Hskip : (Z.of_nat (List.length matches)
                     <= (p - 1) * limit)%Z) by nia.
    lia.
Qed.

Lemma pages_partition_the_matches_witness :
  (1 <= 2)%Z
  /\ List.concat (map (fun p => map doc_id
                            (listed (list_page (page_query p 2)
                                       (fun _ => true) example_docs)))
                 [1%Z; 2%Z])
     = [32%N; 33%N; 31%N]
  /\ List.concat (map (fun p => listed (list_page (page_query p 2)
                                     (fun _ => true) example_docs))
                 (pages_up_to
                    (totalPages (list_page (page_query 1 2)
                                   (fun _ => true) example_docs))))
     = Expense_find (fun _ => true) example_docs.
Proof.
  split; [lia |]. split; [reflexivity |].
  apply (pages_partition_the_matches 2 (fun _ => true) example_docs).
  lia.
Defined.

(** ** Reading and deleting a single expense *)

Lemma User_findById_found (w : World) (id : ObjectId) (u : User) :
  User_findById w id = Some u -> In u (users w) /\ _id u = id.
Proof.
  unfold User_findById. intros Hfind. apply find_some in Hfind.
  destruct Hfind as [Hin Hsame]. apply N.eqb_eq in Hsame. now split.
Qed.

(** A single expense is shown to its owner, to the manager of its owner and
    to administrators, and to nobody else: an employee never reads another
    employee's expense, a manager never one from outside his team. An
    administrator reads every expense, of whatever company. *)
Theorem single_expense_is_shown_to_owner_manager_or_admin :
  forall (w : World) (u : User) (e : Expense),
    (forall shown,
       get_expense w u (Some e) = (Success 200, Some shown) ->
       shown = e
       /\ (role u = role_admin
           \/ (role u = role_employee /\ employee e = _id u)
           \/ (role u = role_manager
               /\ exists member m,
                    In member (users w) /\ _id member = employee e
                    /\ manager member = Some m /\ manager_id m = _id u)))
    /\ (role u = role_admin ->
        get_expense w u (Some e) = (Success 200, Some e)).
Proof.
  intros w u e. unfold get_expense. split.
  - intros shown.
    destruct (role u) eqn:Hrole.
    + intros [= <-]. split; [reflexivity | now left].
    + destruct (User_findById w (employee e)) as [owner |] eqn:Hfound;
        [| discriminate].
      destruct (User_findById_found w _ owner Hfound) as [_ Hid].
      destruct (mentions (teamMemberIds w u) (_id owner)) eqn:Hteam;
        [| discriminate].
      simpl. intros [= <-]. split; [reflexivity |].
      right. right. split; [reflexivity |].
      rewrite <- Hid. now apply teamMemberIds_spec.
    + destruct (User_findById w (employee e)) as [owner |] eqn:Hfound;
        [| discriminate].
      destruct (User_findById_found w _ owner Hfound) as [_ Hid].
      destruct (same_id (_id owner) (_id u)) eqn:Hsame; [| discriminate].
      simpl. intros [= <-]. split; [reflexivity |].
      right. left. split; [reflexivity |].
      apply N.eqb_eq in Hsame. congruence.
  - intros Hadmin. now rewrite Hadmin.
Qed.

Lemma single_expense_is_shown_to_owner_manager_or_admin_witness :
  get_expense world_alice_then_bob carol_without_manager
    (Some (example_expense (Some alice) [] [] 2))
  = (Success 200, Some (example_expense (Some alice) [] [] 2))
  /\ (role carol_without_manager = role_admin
      \/ (role carol_without_manager = role_employee
          /\ employee (example_expense (Some alice) [] [] 2)
             = _id carol_without_manager)
      \/ (role carol_without_manager = role_manager
          /\ exists member m,
               In member (users world_alice_then_bob)
               /\ _id member = employee (example_expense (Some alice) [] [] 2)
               /\ manager member = Some m
               /\ manager_id m = _id carol_without_manager)).
Proof.
  split; [reflexivity |].
  destruct (single_expense_is_shown_to_owner_manager_or_admin
              world_alice_then_bob carol_without_manager
              (example_expense (Some alice) [] [] 2)) as [Hshown _].
  destruct (Hshown _ eq_refl) as [_ Hwho]. exact Hwho.
Defined.

(** The history route is closed to employees and open to everybody else: an
    employee who can read his own expense through the expenses route is
    answered with the server error 500 when he asks for its history, because
    the handler checks the owner on a document that was loaded without it;
    a manager or an administrator gets the history and the status of any
    expense. *)
Theorem employee_reads_the_expense_but_not_its_history :
  forall (w : World) (u owner : User) (e : Expense),
    role u = role_employee ->
    User_findById w (employee e) = Some owner ->
    _id owner = _id u ->
    get_expense w u (Some e) = (Success 200, Some e)
    /\ get_history u (Some e) = (Failure 500 "Server error", None)
    /\ forall other,
         role other <> role_employee ->
         get_history other (Some e)
         = (Success 200, Some (approvalHistory e, status e)).
Proof.
  intros w u owner e Hrole Hfound Hid.
  unfold get_expense, get_history. rewrite Hrole, Hfound, Hid.
  unfold same_id. rewrite N.eqb_refl. simpl.
  repeat split.
  intros other Hother.
  destruct (role other); try reflexivity. now contradiction Hother.
Qed.

Lemma employee_reads_the_expense_but_not_its_history_witness :
  role carol_without_manager = role_employee
  /\ get_history carol_without_manager
       (Some (example_expense (Some alice) [] [] 2))
     = (Failure 500 "Server error", None).
Proof.
  split; [reflexivity |].
  destruct (employee_reads_the_expense_but_not_its_history
              world_alice_then_bob carol_without_manager
              carol_without_manager
              (example_expense (Some alice) [] [] 2)
              eq_refl eq_refl eq_refl) as (_ & Hhistory & _).
  exact Hhistory.
Defined.

(** An expense is deleted exactly when it is pending and the caller is not
    an employee other than its owner; in every other case it stays stored as
    it is. An approved or rejected expense cannot be deleted by anybody. *)
Theorem only_pending_expenses_are_deleted :
  forall (u : User) (e : Expense),
    (snd (delete_expense u (Some e)) = None
     <-> (status e = pending
          /\ (role u = role_employee -> employee e = _id u)))
    /\ (snd (delete_expense u (Some e)) <> None ->
        snd (delete_expense u (Some e)) = Some e)
    /\ (fst (delete_expense u (Some e)) = Success 200
        <-> snd (delete_expense u (Some e)) = None).
Proof.
  intros u e. unfold delete_expense, same_id.
  destruct (role u) eqn:Hrole;
    destruct (N.eqb_spec (employee e) (_id u)) as [Hown | Hother];
    destruct (status e); simpl;
    intuition (try discriminate; try congruence).
Qed.

(** ** The exchange-rate cache *)

Lemma cache_get_set_same (key : string) (value : Currency.CachedRate)
  (cache : Currency.RateCache) :
  Currency.cache_get key (Currency.cache_set key value cache) = Some value.
Proof.
  unfold Currency.cache_get, Currency.cache_set. simpl.
  now rewrite String.eqb_refl.
Qed.

Lemma cache_get_set_other (key other : string) (value : Currency.CachedRate)
  (cache : Currency.RateCache) :
  other <> key ->
  Currency.cache_get other (Currency.cache_set key value cache)
  = Currency.cache_get other cache.
Proof.
  intros Hother. unfold Currency.cache_get, Currency.cache_set. simpl.
  destruct (String.eqb_spec key other) as [Heq | _]; [congruence |].
  induction cache as [| entry cache IH]; simpl.
  - reflexivity.
  - destruct (String.eqb_spec (fst entry) key) as [Hkey | Hkey]; simpl.
    + destruct (String.eqb_spec (fst entry) other) as [Heq | _];
        [congruence | exact IH].
    + destruct (String.eqb (fst entry) other); [reflexivity | exact IH].
Qed.

(** A rate obtained from the service is served from the cache, unchanged
    and without turning to the service again (even a service that is down
    at that time), for every call within 24 hours of the fetch; the rates
    cached for other pairs of currencies are not disturbed. *)
Theorem fetched_rate_is_served_from_the_cache_for_a_day :
  forall (service : Currency.RateService) (clock : Z) (from to : string)
         (cache cache' : Currency.RateCache) (r : float),
    Currency.fetch_rate service clock from to cache = (Returned r, cache') ->
    (forall service' later,
       (later - clock < Currency.CACHE_DURATION)%Z ->
       Currency.getExchangeRate service' later from to cache'
       = (Returned r, cache'))
    /\ (forall from' to',
          Currency.cacheKey from' to' <> Currency.cacheKey from to ->
          Currency.cache_get (Currency.cacheKey from' to') cache'
          = Currency.cache_get (Currency.cacheKey from' to') cache).
Proof.
  intros service clock from to cache cache' r Hfetch.
  unfold Currency.fetch_rate in Hfetch.
  destruct (service from) as [rates |]; [| discriminate].
  destruct (rates to) as [r0 |]; [| discriminate].
  destruct (falsy_number r0); [discriminate |].
  injection Hfetch as <- <-. split.
  - intros service' later Hfresh. unfold Currency.getExchangeRate.
    rewrite cache_get_set_same. simpl.
    now replace (later - clock <? Currency.CACHE_DURATION)%Z with true
      by (symmetry; apply Z.ltb_lt; exact Hfresh).
  - intros from' to' Hother. now apply cache_get_set_other.
Qed.

Lemma fetched_rate_is_served_from_the_cache_for_a_day_witness :
  exists cache',
    Currency.fetch_rate Currency.euro_service 1000 "EUR" "USD" []
    = (Returned 1.25%float, cache')
    /\ Currency.getExchangeRate Currency.service_down 86400999 "EUR" "USD"
         cache'
       = (Returned 1.25%float, cache').
Proof.
  eexists. split; [reflexivity |].
  destruct (fetched_rate_is_served_from_the_cache_for_a_day
              Currency.euro_service 1000 "EUR" "USD" [] _ 1.25%float eq_refl)
    as [Hserved _].
  apply Hserved. reflexivity.
Defined.

(** A lookup that fails leaves the cache as it was. An entry older than 24
    hours is never used, not even when the service is down; and a rate of 0
    from the service counts as missing: it is an error and is not cached. *)
Theorem failed_lookup_keeps_the_cache :
  forall (service : Currency.RateService) (clock : Z) (from to : string)
         (cache : Currency.RateCache),
    (fst (Currency.getExchangeRate service clock from to cache) = Thrown ->
     snd (Currency.getExchangeRate service clock from to cache) = cache)
    /\ (forall cached,
          Currency.cache_get (Currency.cacheKey from to) cache = Some cached ->
          (Currency.CACHE_DURATION <= clock - Currency.cached_timestamp cached)%Z ->
          service from = Thrown ->
          Currency.getExchangeRate service clock from to cache
          = (Thrown, cache))
    /\ (forall rates,
          Currency.cache_get (Currency.cacheKey from to) cache = None ->
          service from = Returned rates ->
          rates to = Some 0%float ->
          Currency.getExchangeRate service clock from to cache
          = (Thrown, cache)).
Proof.
  intros service clock from to cache. split; [| split].
  - unfold Currency.getExchangeRate, Currency.fetch_rate.
    destruct (Currency.cache_get (Currency.cacheKey from to) cache)
      as [cached |];
      [destruct (clock - Currency.cached_timestamp cached
                 <? Currency.CACHE_DURATION)%Z; [discriminate |] |];
      destruct (service from) as [rates |]; try reflexivity;
      destruct (rates to) as [r |]; try reflexivity;
      destruct (falsy_number r); try reflexivity; discriminate.
  - intros cached Hcached Hexpired Hdown.
    unfold Currency.getExchangeRate, Currency.fetch_rate.
    rewrite Hcached, Hdown.
    now replace (clock - Currency.cached_timestamp cached
                 <? Currency.CACHE_DURATION)%Z with false
      by (symmetry; apply Z.ltb_ge; exact Hexpired).
  - intros rates Hnone Hrates Hzero.
    unfold Currency.getExchangeRate, Currency.fetch_rate.
    rewrite Hnone, Hrates, Hzero. reflexivity.
Qed.

Lemma failed_lookup_keeps_the_cache_witness :
  Currency.getExchangeRate Currency.euro_service 5 "EUR" "XXX" []
  = (Thrown, []).
Proof.
  destruct (failed_lookup_keeps_the_cache
              Currency.euro_service 5 "EUR" "XXX" []) as (_ & _ & Hzero).
  apply (Hzero (fun target =>
                  if String.eqb target "USD" then Some 1.25%float
                  else if String.eqb target "XXX" then Some 0%float
                  else None));
    reflexivity.
Defined.

(** A conversion within one currency returns the amount with the rate 1
    and neither reads nor changes the cache, whatever the service does; a
    conversion between two currencies fails exactly when the rate lookup
    fails, and then leaves the cache as it was; when it succeeds it reports
    the rate the lookup gave. *)
Theorem conversion_follows_the_rate_lookup :
  forall (Math_round : float -> float) (service : Currency.RateService)
         (clock : Z) (amount : float) (from to : string)
         (cache : Currency.RateCache),
    (from = to ->
     exists answer,
       Currency.convertCurrency Math_round service clock amount from to cache
       = (Returned answer, cache)
       /\ Currency.convertedAmount answer = amount
       /\ Currency.exchangeRate answer = 1%float)
    /\ (from <> to ->
        (fst (Currency.convertCurrency Math_round service clock amount
                from to cache) = Thrown
         <-> fst (Currency.getExchangeRate service clock from to cache)
             = Thrown)
        /\ snd (Currency.convertCurrency Math_round service clock amount
                  from to cache)
           = snd (Currency.getExchangeRate service clock from to cache)
        /\ (forall answer cache',
              Currency.convertCurrency Math_round service clock amount
                from to cache = (Returned answer, cache') ->
              Currency.getExchangeRate service clock from to cache
              = (Returned (Currency.exchangeRate answer), cache'))).
Proof.
  intros Math_round service clock amount from to cache.
  unfold Currency.convertCurrency. split.
  - intros ->. rewrite String.eqb_refl. eexists.
    split; [reflexivity |]. split; reflexivity.
  - intros Hother.
    destruct (String.eqb_spec from to) as [Heq | _]; [contradiction |].
    destruct (Currency.getExchangeRate service clock from to cache)
      as [[r |] cache'']; simpl.
    + split; [split; discriminate |]. split; [reflexivity |].
      intros answer cache' [= <- <-]. reflexivity.
    + split; [split; reflexivity |]. split; [reflexivity | discriminate].
Qed.

Lemma conversion_follows_the_rate_lookup_witness :
  exists answer,
    Currency.convertCurrency (fun x => x) Currency.service_down 7
      12.5%float "USD" "USD" []
    = (Returned answer, [])
    /\ Currency.convertedAmount answer = 12.5%float.
Proof.
  destruct (conversion_follows_the_rate_lookup
              (fun x => x) Currency.service_down 7 12.5%float "USD" "USD" [])
    as [Hsame _].
  destruct (Hsame eq_refl) as [answer (Hrun & Hamount & _)].
  exists answer. split; assumption.
Defined.

(** ** Witnesses for the percentage policy and the two counts *)

Lemma percentage_policy_with_truthy_threshold_witness :
  approves (approval_of manager_alice) (example_expense (Some alice) [] [] 2)
  /\ exists e',
       put_approval
         (world_with_rule
            (example_rule percentage alice_and_bob (Some 50%float)))
         (approval_of manager_alice)
         (Some (example_expense (Some alice) [] [] 2))
       = (Success 200, Some e')
       /\ status e' = approved.
Proof.
  assert (H : approves (approval_of manager_alice)
                       (example_expense (Some alice) [] [] 2)).
  { repeat split; reflexivity. }
  split; [exact H |].
  destruct (percentage_policy_with_truthy_threshold
              (world_with_rule
                 (example_rule percentage alice_and_bob (Some 50%float)))
              _ _
              (example_rule percentage alice_and_bob (Some 50%float))
              [] H eq_refl eq_refl)
    as [e' (Hrun & Hiff & _)].
  { intros p [= <-]. reflexivity. }
  exists e'. split; [exact Hrun |].
  apply Hiff. vm_compute. reflexivity.
Defined.

Lemma approvedRequiredCount_as_specified_witness :
  NoDup (map user (requiredApprovers alice_and_bob))
  /\ NoDup (approvedBy (example_expense (Some bob) [alice] [] 2))
  /\ approvedRequiredCount alice_and_bob
       (example_expense (Some bob) [alice] [] 2)
     = required_approvers_approved alice_and_bob
         (example_expense (Some bob) [alice] [] 2).
Proof.
  assert (Hids : NoDup (map user (requiredApprovers alice_and_bob))).
  { repeat constructor; simpl; intuition discriminate. }
  assert (Hyes : NoDup (approvedBy (example_expense (Some bob) [alice] [] 2))).
  { repeat constructor; simpl; intuition. }
  split; [exact Hids |]. split; [exact Hyes |].
  apply (approvedRequiredCount_as_specified alice_and_bob
           (example_expense (Some bob) [alice] [] 2) Hids Hyes).
Defined.
